(** * Proof-of-Ink upload worker: a shallow embedding and its properties

    The worker (workers/poi-upload-worker, the version with the
    [/sync-approved-members] route) is a stateless proxy in front of the
    Apillon storage API.  This file embeds its request handlers as functions
    in a small state-and-exception monad over an arbitrary storage backend,
    and proves the properties the design document states about them. *)

From Stdlib Require Import ZArith String Ascii Permutation.
From stdpp Require Import gmap list.

Local Open Scope Z_scope.
Local Open Scope list_scope.

(** ** JavaScript strings

    A JavaScript string is a sequence of UTF-16 code units.  The regular
    expression of the sync handler has no [u] flag and [trim], [split] and
    [===] all work on code units, so strings are lists of code units. *)

Definition code_unit := N.
Abbreviation jsstring := (list N).

(** An ASCII literal as a JavaScript string. *)
Definition lit (s : string) : jsstring :=
  N_of_ascii <$> list_ascii_of_string s.

Arguments lit : simpl never.

Definition DOT : code_unit := 46%N.
Definition SLASH : code_unit := 47%N.
Definition COMMA : code_unit := 44%N.

(** ECMAScript LineTerminator code units: LF, CR, LS, PS. *)
Definition is_line_terminator (c : code_unit) : bool :=
  (c =? 10)%N || (c =? 13)%N || (c =? 8232)%N || (c =? 8233)%N.

(** ECMAScript WhiteSpace code units (TAB, VT, FF, SP, NBSP, ZWNBSP and the
    Unicode space separators). *)
Definition is_white_space (c : code_unit) : bool :=
  (c =? 9)%N || (c =? 11)%N || (c =? 12)%N || (c =? 32)%N || (c =? 160)%N
  || (c =? 5760)%N || ((8192 <=? c)%N && (c <=? 8202)%N)
  || (c =? 8239)%N || (c =? 8287)%N || (c =? 12288)%N || (c =? 65279)%N.

(** What [String.prototype.trim] strips. *)
Definition is_trimmed (c : code_unit) : bool :=
  is_white_space c || is_line_terminator c.

Fixpoint trim_start (s : jsstring) : jsstring :=
  match s with
  | [] => []
  | c :: s' => if is_trimmed c then trim_start s' else s
  end.

(** [s.trim()] *)
Definition trim (s : jsstring) : jsstring :=
  reverse (trim_start (reverse (trim_start s))).

(** [s.split(sep)] for a one-unit separator: never empty, the pieces in
    order. *)
Fixpoint split (sep : code_unit) (s : jsstring) : list jsstring :=
  match s with
  | [] => [[]]
  | c :: s' =>
      if (c =? sep)%N then [] :: split sep s'
      else match split sep s' with
           | [] => [[c]]
           | piece :: pieces => (c :: piece) :: pieces
           end
  end.

(** [s || dflt] on strings: the empty string is falsy. *)
Definition str_or (s dflt : jsstring) : jsstring :=
  match s with [] => dflt | _ => s end.

(** [o || dflt] where [o] may be [undefined] or [null]. *)
Definition opt_str_or (o : option jsstring) (dflt : jsstring) : jsstring :=
  match o with Some s => str_or s dflt | None => dflt end.

(** Truthiness of a possibly absent string. *)
Definition str_truthy (o : option jsstring) : bool :=
  match o with Some (_ :: _) => true | _ => false end.

(** ** The file-name pattern [/^(.+)\.([^.]+)$/]

    [.] matches any code unit but a line terminator, [[^.]] any code unit
    but a dot.  The matcher follows the backtracking semantics: the greedy
    [(.+)] first takes the longest possible prefix and gives code units back
    one at a time until the rest matches [\.([^.]+)$]. *)

Definition all_dot_class (s : jsstring) : bool :=
  forallb (fun c => negb (is_line_terminator c)) s.

Definition all_non_dot (s : jsstring) : bool :=
  forallb (fun c => negb (c =? DOT)%N) s.

(** Does [\.([^.]+)$] match the whole of [rest]?  The captured extension. *)
Definition match_tail (rest : jsstring) : option jsstring :=
  match rest with
  | c :: ext =>
      if (c =? DOT)%N then
        match ext with
        | [] => None
        | _ :: _ => if all_non_dot ext then Some ext else None
        end
      else None
  | [] => None
  end.

(** Try the prefix lengths [n, n-1, ..., 1] for [(.+)], longest first. *)
Fixpoint match_from (name : jsstring) (n : nat) : option (jsstring * jsstring) :=
  match n with
  | O => None
  | S n' =>
      if all_dot_class (take n name) then
        match match_tail (drop n name) with
        | Some ext => Some (take n name, ext)
        | None => match_from name n'
        end
      else match_from name n'
  end.

(** [name.match(/^(.+)\.([^.]+)$/)]: the two capture groups. *)
Definition name_match (name : jsstring) : option (jsstring * jsstring) :=
  match_from name (length name).

(** The words of the design document: split the name on its last dot. *)
Fixpoint split_last_dot (name : jsstring) : option (jsstring * jsstring) :=
  match name with
  | [] => None
  | c :: name' =>
      match split_last_dot name' with
      | Some (before, after) => Some (c :: before, after)
      | None => if (c =? DOT)%N then Some ([], name') else None
      end
  end.

(** A name has an extension when something follows its last dot. *)
Definition has_extension (name : jsstring) : Prop :=
  exists before after, split_last_dot name = Some (before, after) /\ after <> [].

(** ** JSON values, as [request.json()] yields them *)

#[local] Set Warnings "-register-all".

Inductive json :=
| JNull
| JBool (b : bool)
| JNum (n : Z)  (* a number; the handlers only test it for truthiness *)
| JStr (s : jsstring)
| JArr (items : list json)
| JObj (fields : list (jsstring * json)).

(** Own property of a parsed object; of duplicate keys the last one wins. *)
Fixpoint obj_get (key : jsstring) (fields : list (jsstring * json)) : option json :=
  match fields with
  | [] => None
  | (k, v) :: rest =>
      match obj_get key rest with
      | Some v' => Some v'
      | None => if decide (k = key) then Some v else None
      end
  end.

(** [v.key] on a parsed value: [inl] is the TypeError on [null], [None] is
    [undefined].  None of the keys the handlers read exists on a prototype. *)
Definition get_prop (v : json) (key : jsstring) : jsstring + option json :=
  match v with
  | JNull => inl (lit "Cannot read properties of null")
  | JObj fields => inr (obj_get key fields)
  | _ => inr None
  end.

(** Truthiness of a possibly undefined value. *)
Definition truthy (v : option json) : bool :=
  match v with
  | None | Some JNull => false
  | Some (JBool b) => b
  | Some (JNum n) => negb (n =? 0)
  | Some (JStr s) => match s with [] => false | _ => true end
  | Some (JArr _) | Some (JObj _) => true
  end.

(** [v !== 'text'] is false only for the string itself. *)
Definition is_string (v : option json) (s : jsstring) : bool :=
  match v with
  | Some (JStr s') => bool_decide (s' = s)
  | _ => false
  end.

(** ** The storage backend

    The worker talks to the outside world through six [fetch] call sites:
    the download of an object through its retrieval link, the four Apillon
    operations (open an upload session, end it, list the bucket, delete a
    file) and the PUT of the bytes to a signed URL. *)

Definition Blob := list N.

(** What awaiting [fetch(...)] gives: a rejection, or a response. *)
Record HttpResponse (A : Type) := {
  ok : bool;                      (* response.ok *)
  statusText : jsstring;          (* response.statusText *)
  content_type : option jsstring; (* response.headers.get('content-type') *)
  text : jsstring;                (* await response.text() *)
  payload : option A              (* await response.json() / .blob();
                                     None when that rejects or the value has
                                     not the shape the caller dereferences *)
}.
Arguments ok {A} _.
Arguments statusText {A} _.
Arguments content_type {A} _.
Arguments text {A} _.
Arguments payload {A} _.

Inductive Fetched (A : Type) :=
| NetworkFailure (message : jsstring)
| Responded (response : HttpResponse A).
Arguments NetworkFailure {A} _.
Arguments Responded {A} _.

(** interface ApillonUploadResponse; every member the code guards with [?.]
    is optional. *)
Record UploadFile := {
  url : option jsstring;
  fileUuid : option jsstring
}.

Record UploadData := {
  sessionUuid : option jsstring;
  files : option (list UploadFile)
}.

Record ApillonUploadResponse := { upload_data : option UploadData }.

(** interface ApillonCompleteResponse: [data?.success]. *)
Record ApillonCompleteResponse := { complete_data : option bool }.

(** An item of the bucket listing. *)
Record ApillonFile := {
  af_name : jsstring;
  af_fileUuid : jsstring;
  af_path : option jsstring;
  af_link : option jsstring;
  af_CID : option jsstring;
  af_CIDv1 : option jsstring
}.

(** A backend: any state, and a response to each of the six calls.  The file
    name, the content type and the session identifier travel as the JSON
    values the handlers were given (they are only serialised). *)
Record Backend := {
  bstate : Type;
  on_download : bstate -> jsstring -> bstate * Fetched Blob;
  on_initiate : bstate -> json -> json -> jsstring ->
                bstate * Fetched ApillonUploadResponse;
  on_put : bstate -> jsstring -> jsstring -> Blob -> bstate * Fetched unit;
  on_complete : bstate -> json -> bstate * Fetched ApillonCompleteResponse;
  on_list : bstate -> bstate * Fetched (list ApillonFile);
  on_delete : bstate -> jsstring -> bstate * Fetched unit
}.

(** The transcript of a run: every call made, with what came back. *)
Inductive Event :=
| EvDownload (link : jsstring) (r : Fetched Blob)
| EvInitiate (fileName contentType : json) (directoryPath : jsstring)
             (r : Fetched ApillonUploadResponse)
| EvPut (uploadUrl contentType : jsstring) (body : Blob) (r : Fetched unit)
| EvComplete (session : json) (r : Fetched ApillonCompleteResponse)
| EvList (r : Fetched (list ApillonFile))
| EvDelete (file : jsstring) (r : Fetched unit).

Record World (B : Backend) := {
  store : bstate B;
  trace : list Event
}.
Arguments store {B} _.
Arguments trace {B} _.

(** ** Promises as a state-and-exception monad *)

Inductive Outcome (A : Type) :=
| Returned (value : A)
| Thrown (message : jsstring).
Arguments Returned {A} _.
Arguments Thrown {A} _.

Definition M (B : Backend) (A : Type) : Type := World B -> Outcome A * World B.

Definition ret {B A} (a : A) : M B A := fun w => (Returned a, w).

Definition throw {B A} (message : jsstring) : M B A := fun w => (Thrown message, w).

Definition bind {B A C} (m : M B A) (k : A -> M B C) : M B C :=
  fun w =>
    match m w with
    | (Returned a, w') => k a w'
    | (Thrown e, w') => (Thrown e, w')
    end.

(** [try { m } catch (error) { handler(error.message) }] *)
Definition try_catch {B A} (m : M B A) (handler : jsstring -> M B A) : M B A :=
  fun w =>
    match m w with
    | (Returned a, w') => (Returned a, w')
    | (Thrown e, w') => handler e w'
    end.

Notation "'let*' x ':=' m 'in' k" := (bind m (fun x => k))
  (at level 10, x name, m at level 100, k at level 200).
Notation "m ';;' k" := (bind m (fun _ => k))
  (at level 100, k at level 200, right associativity).

(** One [await fetch(...)]: the backend answers, the transcript grows, and a
    rejection is thrown. *)
Definition perform {B A} (respond : bstate B -> bstate B * Fetched A)
    (event : Fetched A -> Event) : M B (HttpResponse A) :=
  fun w =>
    let '(s, r) := respond (store w) in
    let w' := {| store := s; trace := trace w ++ [event r] |} in
    match r with
    | NetworkFailure message => (Thrown message, w')
    | Responded response => (Returned response, w')
    end.

(** [await response.json()] or [await response.blob()] *)
Definition decode {B A} (response : HttpResponse A) : M B A :=
  match payload response with
  | Some a => ret a
  | None => throw (lit "Unexpected end of JSON input")
  end.

(** ** Requests, responses and configuration *)

Record Env := {
  APILLON_API_KEY : jsstring;
  APILLON_API_SECRET : jsstring;
  APILLON_BUCKET_UUID : jsstring;
  ALLOWED_ORIGINS : jsstring
}.

(** What [request.json()] will give: a rejection or a value. *)
Inductive ParsedBody :=
| NotJson (message : jsstring)
| Json (value : json).

Record Request := {
  method : jsstring;
  pathname : jsstring;                (* new URL(request.url).pathname *)
  origin_header : option jsstring;    (* request.headers.get('Origin') *)
  body : ParsedBody
}.

Record MovedEntry := { mv_address : json; mv_from : jsstring; mv_to : jsstring }.
Record SkippedEntry := { sk_address : json; sk_reason : jsstring }.
Record ErrorEntry := { er_address : json; er_error : jsstring }.

Record SyncResults := {
  moved : list MovedEntry;
  skipped : list SkippedEntry;
  errors : list ErrorEntry
}.

(** The objects the handlers serialise. *)
Inductive ResponseData :=
| NoBody                                             (* new Response(null) *)
| ErrorData (error : jsstring) (details : option jsstring)
| InitiatedData (session uploadUrl : jsstring) (file : option jsstring)
| CompletedData (message : jsstring)
| SyncData (results : SyncResults)                   (* success: true *)
| SyncFailedData (details : jsstring).               (* success: false *)

Record Response := {
  status : Z;
  data : ResponseData;
  headers : list (jsstring * jsstring)
}.

(** jsonResponse(data, status, origin?) *)
Definition jsonResponse (d : ResponseData) (st : Z) (origin : option jsstring)
    : Response :=
  {| status := st;
     data := d;
     headers :=
       (lit "Content-Type", lit "application/json")
       :: match origin with
          | Some ((_ :: _) as o) => [(lit "Access-Control-Allow-Origin", o)]
          | _ => []
          end |}.

(** [env.ALLOWED_ORIGINS.split(',').map(o => o.trim())] *)
Definition allowedOrigins (env : Env) : list jsstring :=
  trim <$> split COMMA (ALLOWED_ORIGINS env).

(** [!origin || !allowedOrigins.includes(origin)] *)
Definition origin_rejected (env : Env) (origin : option jsstring) : bool :=
  negb (str_truthy origin)
  || negb (bool_decide (default [] origin ∈ allowedOrigins env)).

(** handleCORS *)
Definition handleCORS (request : Request) (env : Env) : Response :=
  let origin := origin_header request in
  if origin_rejected env origin then
    {| status := 403; data := NoBody; headers := [] |}
  else
    {| status := 204; data := NoBody;
       headers :=
         [(lit "Access-Control-Allow-Origin", default [] origin);
          (lit "Access-Control-Allow-Methods", lit "POST, OPTIONS");
          (lit "Access-Control-Allow-Headers", lit "Content-Type");
          (lit "Access-Control-Max-Age", lit "86400")] |}.

(** ** The handlers *)

Section Handlers.
Context {B : Backend}.

(** [await request.json()] *)
Definition request_json (request : Request) : M B json :=
  match body request with
  | NotJson message => throw message
  | Json value => ret value
  end.

(** [body.key] *)
Definition prop (value : json) (key : jsstring) : M B (option json) :=
  match get_prop value key with
  | inl message => throw message
  | inr field => ret field
  end.

(** [data?.sessionUuid] *)
Definition upload_session (r : ApillonUploadResponse) : option jsstring :=
  d ← upload_data r; sessionUuid d.

(** [data?.files?.[0]] *)
Definition upload_first_file (r : ApillonUploadResponse) : option UploadFile :=
  d ← upload_data r; fs ← files d; head fs.

(** [data?.files?.[0]?.url] *)
Definition upload_first_url (r : ApillonUploadResponse) : option jsstring :=
  f ← upload_first_file r; url f.

(** apillonInitiateUpload *)
Definition apillonInitiateUpload (env : Env) (fileName contentType : json)
    (directoryPath : jsstring) : M B ApillonUploadResponse :=
  let* response :=
    perform (fun s => on_initiate B s fileName contentType directoryPath)
            (EvInitiate fileName contentType directoryPath) in
  if negb (ok response) then
    throw (lit "Apillon initiate upload failed: " ++ text response)
  else decode response.

(** apillonCompleteUpload *)
Definition apillonCompleteUpload (env : Env) (session : json)
    : M B ApillonCompleteResponse :=
  let* response :=
    perform (fun s => on_complete B s session) (EvComplete session) in
  if negb (ok response) then
    throw (lit "Apillon complete upload failed: " ++ text response)
  else decode response.

(** deleteApillonFile *)
Definition deleteApillonFile (env : Env) (file : jsstring) : M B unit :=
  let* response :=
    perform (fun s => on_delete B s file) (EvDelete file) in
  if negb (ok response) then
    throw (lit "Failed to delete file: " ++ text response)
  else ret tt.

(** handleInitiateUpload *)
Definition handleInitiateUpload (request : Request) (env : Env)
    (origin : jsstring) : M B Response :=
  let* body := request_json request in
  let* fileName := prop body (lit "fileName") in
  let* contentType := prop body (lit "contentType") in
  let* directoryPath := prop body (lit "directoryPath") in
  if negb (truthy fileName) || negb (truthy contentType)
     || negb (truthy directoryPath) then
    ret (jsonResponse (ErrorData (lit "Missing required fields") None) 400
           (Some origin))
  else if negb (is_string directoryPath (lit "pending"))
          && negb (is_string directoryPath (lit "approved")) then
    ret (jsonResponse (ErrorData (lit "Invalid directoryPath") None) 400
           (Some origin))
  else
    let* initiateResponse :=
      apillonInitiateUpload env (default JNull fileName)
        (default JNull contentType)
        (match directoryPath with Some (JStr s) => s | _ => [] end) in
    if negb (str_truthy (upload_session initiateResponse))
       || negb (str_truthy (upload_first_url initiateResponse)) then
      ret (jsonResponse
             (ErrorData (lit "Failed to initiate upload session") None) 500
             (Some origin))
    else
      ret (jsonResponse
             (InitiatedData (default [] (upload_session initiateResponse))
                (default [] (upload_first_url initiateResponse))
                (f ← upload_first_file initiateResponse; fileUuid f))
             200 (Some origin)).

(** handleCompleteUpload *)
Definition handleCompleteUpload (request : Request) (env : Env)
    (origin : jsstring) : M B Response :=
  let* body := request_json request in
  let* session := prop body (lit "sessionUuid") in
  if negb (truthy session) then
    ret (jsonResponse (ErrorData (lit "Missing sessionUuid") None) 400
           (Some origin))
  else
    let* completeResponse :=
      apillonCompleteUpload env (default JNull session) in
    if negb (default false (complete_data completeResponse)) then
      ret (jsonResponse
             (ErrorData (lit "Failed to complete upload session") None) 500
             (Some origin))
    else
      ret (jsonResponse (CompletedData (lit "Upload completed successfully"))
             200 (Some origin)).

(** What listFilesInFolder returns for each kept item. *)
Record FolderFile := {
  ff_name : jsstring;
  ff_uuid : jsstring;
  ff_link : option jsstring;
  ff_cid : option jsstring
}.

(** [file.CIDv1 || file.CID] *)
Definition cid_of (file : ApillonFile) : option jsstring :=
  if str_truthy (af_CIDv1 file) then af_CIDv1 file else af_CID file.

Definition folder_file (file : ApillonFile) : FolderFile :=
  {| ff_name := af_name file;
     ff_uuid := af_fileUuid file;
     ff_link := af_link file;
     ff_cid := cid_of file |}.

(** The filter callback: [(file.path || '') === `${folder}/`] *)
Definition in_folder (folder : jsstring) (file : ApillonFile) : Prop :=
  opt_str_or (af_path file) [] = folder ++ lit "/".

#[global] Instance in_folder_dec folder file : Decision (in_folder folder file).
Proof. unfold in_folder. apply _. Defined.

(** listFilesInFolder *)
Definition listFilesInFolder (env : Env) (folder : jsstring)
    : M B (list FolderFile) :=
  let* response := perform (fun s => on_list B s) EvList in
  if negb (ok response) then
    throw (lit "Failed to list files: " ++ text response)
  else
    let* items := decode response in
    ret (folder_file <$> filter (in_folder folder) items).

(** moveFile *)
Definition moveFile (env : Env) (_fromPath toPath file : jsstring)
    (fileLink : option jsstring) : M B unit :=
  if negb (str_truthy fileLink) then
    throw (lit "File link is required to download file")
  else
    let link := default [] fileLink in
    let* fileResponse :=
      perform (fun s => on_download B s link) (EvDownload link) in
    if negb (ok fileResponse) then
      throw (lit "Failed to download file: " ++ statusText fileResponse)
    else
      let* fileBlob := decode fileResponse in
      let fileName :=
        str_or (default [] (last (split SLASH toPath))) (lit "unknown") in
      let contentType :=
        opt_str_or (content_type fileResponse)
          (lit "application/octet-stream") in
      let targetFolder := default [] (head (split SLASH toPath)) in
      let* uploadSession :=
        apillonInitiateUpload env (JStr fileName) (JStr contentType)
          targetFolder in
      if negb (str_truthy (upload_session uploadSession))
         || negb (str_truthy (upload_first_url uploadSession)) then
        throw (lit "Failed to initiate upload to new location")
      else
        let uploadUrl := default [] (upload_first_url uploadSession) in
        let* uploadResponse :=
          perform (fun s => on_put B s uploadUrl contentType fileBlob)
                  (EvPut uploadUrl contentType fileBlob) in
        if negb (ok uploadResponse) then
          throw (lit "Failed to upload file: " ++ statusText uploadResponse)
        else
          apillonCompleteUpload env
            (JStr (default [] (upload_session uploadSession)));;
          deleteApillonFile env file.

(** The values of [pendingMap]. *)
Record FileInfo := {
  fi_fileName : jsstring;
  fi_fileUuid : jsstring;
  fi_extension : jsstring;
  fi_link : option jsstring
}.

(** One turn of the loop that fills [pendingMap]. *)
Definition pendingMap_set (pendingMap : gmap jsstring FileInfo)
    (file : FolderFile) : gmap jsstring FileInfo :=
  match name_match (ff_name file) with
  | Some (address, extension) =>
      <[address := {| fi_fileName := ff_name file;
                      fi_fileUuid := ff_uuid file;
                      fi_extension := extension;
                      fi_link := ff_link file |}]> pendingMap
  | None => pendingMap
  end.

Definition pendingMap_of (pendingFiles : list FolderFile)
    : gmap jsstring FileInfo :=
  foldl pendingMap_set ∅ pendingFiles.

(** [pendingMap.get(address)]: the keys are strings, so only a string finds
    one. *)
Definition pendingMap_get (pendingMap : gmap jsstring FileInfo)
    (address : json) : option FileInfo :=
  match address with
  | JStr s => pendingMap !! s
  | _ => None
  end.

Definition push_moved (results : SyncResults) (e : MovedEntry) : SyncResults :=
  {| moved := moved results ++ [e];
     skipped := skipped results;
     errors := errors results |}.

Definition push_skipped (results : SyncResults) (e : SkippedEntry) : SyncResults :=
  {| moved := moved results;
     skipped := skipped results ++ [e];
     errors := errors results |}.

Definition push_error (results : SyncResults) (e : ErrorEntry) : SyncResults :=
  {| moved := moved results;
     skipped := skipped results;
     errors := errors results ++ [e] |}.

(** The body of [for (const address of limitedAddresses)]. *)
Definition sync_one (env : Env) (pendingMap : gmap jsstring FileInfo)
    (results : SyncResults) (address : json) : M B SyncResults :=
  try_catch
    (match pendingMap_get pendingMap address with
     | None =>
         ret (push_skipped results
                {| sk_address := address;
                   sk_reason := lit "No pending image found" |})
     | Some fileInfo =>
         moveFile env (lit "pending/" ++ fi_fileName fileInfo)
           (lit "approved/" ++ fi_fileName fileInfo)
           (fi_fileUuid fileInfo) (fi_link fileInfo);;
         ret (push_moved results
                {| mv_address := address;
                   mv_from := lit "pending/" ++ fi_fileName fileInfo;
                   mv_to := lit "approved/" ++ fi_fileName fileInfo |})
     end)
    (fun message =>
       ret (push_error results
              {| er_address := address; er_error := message |})).

Fixpoint sync_loop (env : Env) (pendingMap : gmap jsstring FileInfo)
    (limitedAddresses : list json) (results : SyncResults)
    : M B SyncResults :=
  match limitedAddresses with
  | [] => ret results
  | address :: rest =>
      let* results' := sync_one env pendingMap results address in
      sync_loop env pendingMap rest results'
  end.

(** [body.addresses || []] *)
Definition addresses_or_empty (field : option json) : json :=
  if truthy field then default JNull field else JArr [].

(** handleSyncApprovedMembers *)
Definition handleSyncApprovedMembers (request : Request) (env : Env)
    (origin : jsstring) : M B Response :=
  if negb (bool_decide (method request = lit "POST")) then
    ret (jsonResponse (ErrorData (lit "Method not allowed") None) 405
           (Some origin))
  else
    try_catch
      (let* body := request_json request in
       let* field := prop body (lit "addresses") in
       match addresses_or_empty field with
       | JArr ((_ :: _) as addresses) =>
           let limitedAddresses := take 50 addresses in
           let* pendingFiles := listFilesInFolder env (lit "pending") in
           let pendingMap := pendingMap_of pendingFiles in
           let* results :=
             sync_loop env pendingMap limitedAddresses
               {| moved := []; skipped := []; errors := [] |} in
           ret (jsonResponse (SyncData results) 200 (Some origin))
       | _ =>
           ret (jsonResponse (ErrorData (lit "Invalid addresses array") None)
                  400 (Some origin))
       end)
      (fun message =>
         ret (jsonResponse (SyncFailedData message) 500 (Some origin))).

(** The exported [fetch].  The handlers are returned, not awaited, inside
    its [try]: a rejection of theirs is the rejection of [fetch], and the
    [catch] of the source never runs. *)
Definition fetch (request : Request) (env : Env) : M B Response :=
  if bool_decide (method request = lit "OPTIONS") then
    ret (handleCORS request env)
  else
    let origin := origin_header request in
    if origin_rejected env origin then
      ret (jsonResponse (ErrorData (lit "Unauthorized origin") None) 403 None)
    else
      let origin := default [] origin in
      if bool_decide (pathname request = lit "/initiate") then
        handleInitiateUpload request env origin
      else if bool_decide (pathname request = lit "/complete") then
        handleCompleteUpload request env origin
      else if bool_decide (pathname request = lit "/sync-approved-members") then
        handleSyncApprovedMembers request env origin
      else
        ret (jsonResponse (ErrorData (lit "Invalid endpoint") None) 404
               (Some origin)).

End Handlers.

(** ** An in-memory bucket

    A small backend with the four Apillon operations, the retrieval links and
    the signed upload URLs, used to run the handlers on concrete requests. *)

Module MemoryBucket.

Record Session := {
  ss_uuid : jsstring;
  ss_url : jsstring;
  ss_name : json;
  ss_folder : jsstring;
  ss_bytes : option Blob
}.

Record Stored := { st_file : ApillonFile; st_bytes : Blob }.

Record Bucket := {
  objects : list Stored;
  sessions : list Session;
  fresh : N
}.

Definition respond {A} (good : bool) (status : string) (p : option A)
    : Fetched A :=
  Responded {| ok := good; statusText := lit status;
               content_type := Some (lit "image/jpeg");
               text := lit status; payload := p |}.

Definition tag (prefix : string) (n : N) : jsstring := lit prefix ++ [(48 + n)%N].

Definition download (b : Bucket) (link : jsstring) : Bucket * Fetched Blob :=
  match filter (fun o => af_link (st_file o) = Some link) (objects b) with
  | o :: _ => (b, respond true "OK" (Some (st_bytes o)))
  | [] => (b, respond false "Not Found" None)
  end.

Definition initiate (b : Bucket) (name contentType : json) (folder : jsstring)
    : Bucket * Fetched ApillonUploadResponse :=
  let s := {| ss_uuid := tag "s-" (fresh b); ss_url := tag "https://upload/" (fresh b);
              ss_name := name; ss_folder := folder; ss_bytes := None |} in
  ({| objects := objects b; sessions := s :: sessions b; fresh := (fresh b + 1)%N |},
   respond true "OK"
     (Some {| upload_data :=
                Some {| sessionUuid := Some (ss_uuid s);
                        files := Some [{| url := Some (ss_url s);
                                          fileUuid := Some (tag "f-" (fresh b)) |}] |} |})).

Definition put (b : Bucket) (target contentType : jsstring) (bytes : Blob)
    : Bucket * Fetched unit :=
  if bool_decide (Exists (fun s => ss_url s = target) (sessions b)) then
    ({| objects := objects b;
        sessions :=
          (fun s => if bool_decide (ss_url s = target)
                    then {| ss_uuid := ss_uuid s; ss_url := ss_url s;
                            ss_name := ss_name s; ss_folder := ss_folder s;
                            ss_bytes := Some bytes |}
                    else s) <$> sessions b;
        fresh := fresh b |},
     respond true "OK" (Some tt))
  else (b, respond false "Forbidden" None).

Definition name_of (v : json) : jsstring :=
  match v with JStr s => s | _ => [] end.

Definition complete (b : Bucket) (session : json)
    : Bucket * Fetched ApillonCompleteResponse :=
  match filter (fun s => ss_uuid s = name_of session /\ is_Some (ss_bytes s))
               (sessions b) with
  | s :: _ =>
      let file := {| af_name := name_of (ss_name s);
                     af_fileUuid := tag "f-" (fresh b);
                     af_path := Some (ss_folder s ++ lit "/");
                     af_link := Some (tag "https://ipfs/" (fresh b));
                     af_CID := None; af_CIDv1 := None |} in
      ({| objects :=
            filter (fun o => ~ (af_name (st_file o) = af_name file
                                /\ af_path (st_file o) = af_path file))
                   (objects b)
            ++ [{| st_file := file; st_bytes := default [] (ss_bytes s) |}];
          sessions := filter (fun s' => ss_uuid s' <> ss_uuid s) (sessions b);
          fresh := (fresh b + 1)%N |},
       respond true "OK" (Some {| complete_data := Some true |}))
  | [] => (b, respond false "Bad Request" None)
  end.

Definition listing (b : Bucket) : Bucket * Fetched (list ApillonFile) :=
  (b, respond true "OK" (Some (st_file <$> objects b))).

Definition delete (b : Bucket) (file : jsstring) : Bucket * Fetched unit :=
  if bool_decide (Exists (fun o => af_fileUuid (st_file o) = file) (objects b)) then
    ({| objects := filter (fun o => af_fileUuid (st_file o) <> file) (objects b);
        sessions := sessions b; fresh := fresh b |},
     respond true "OK" (Some tt))
  else (b, respond false "Not Found" None).

Definition backend : Backend :=
  {| bstate := Bucket;
     on_download := download;
     on_initiate := initiate;
     on_put := put;
     on_complete := complete;
     on_list := listing;
     on_delete := delete |}.

(** An object already in a folder. *)
Definition stored (name folder uuid : string) : Stored :=
  {| st_file := {| af_name := lit name; af_fileUuid := lit uuid;
                   af_path := Some (lit folder ++ lit "/");
                   af_link := Some (lit "https://ipfs/" ++ lit uuid);
                   af_CID := None; af_CIDv1 := None |};
     st_bytes := [255; 216; 255]%N |}.

Definition bucket (objs : list Stored) : World backend :=
  Build_World backend {| objects := objs; sessions := []; fresh := 0 |} [].

End MemoryBucket.

Definition env0 : Env :=
  {| APILLON_API_KEY := lit "key";
     APILLON_API_SECRET := lit "secret";
     APILLON_BUCKET_UUID := lit "bucket";
     ALLOWED_ORIGINS := lit "https://ksmu.example, http://localhost:3000" |}.

Definition origin0 : jsstring := lit "https://ksmu.example".

(** A POST to the sync route with [{addresses: [...]}]. *)
Definition sync_request (addresses : list json) : Request :=
  {| method := lit "POST";
     pathname := lit "/sync-approved-members";
     origin_header := Some origin0;
     body := Json (JObj [(lit "addresses", JArr addresses)]) |}.

Definition addr (s : string) : json := JStr (lit s).

(** * Vocabulary of the properties

    The predicates the statements below use, and the concrete requests and
    buckets they are tried on. *)

(** The step of a transcript entry, and whether the code went on after it. *)
Definition download_succeeded (e : Event) : Prop :=
  match e with
  | EvDownload _ (Responded r) => ok r = true /\ is_Some (payload r)
  | _ => False
  end.

Definition initiate_succeeded (e : Event) : Prop :=
  match e with
  | EvInitiate _ _ _ (Responded r) =>
      ok r = true /\
      exists u, payload r = Some u /\ str_truthy (upload_session u) = true
                /\ str_truthy (upload_first_url u) = true
  | _ => False
  end.

Definition put_succeeded (e : Event) : Prop :=
  match e with
  | EvPut _ _ _ (Responded r) => ok r = true
  | _ => False
  end.

(** The completion call was answered: the HTTP status is good and the body
    is decoded.  This is all [moveFile] waits for; the [data.success] flag of
    the body, which [handleCompleteUpload] checks, is not part of it. *)
Definition complete_answered (e : Event) : Prop :=
  match e with
  | EvComplete _ (Responded r) => ok r = true /\ is_Some (payload r)
  | _ => False
  end.

Definition is_delete (e : Event) : Prop :=
  match e with EvDelete _ _ => True | _ => False end.

(** Every identifier a result records, list by list. *)
Definition recorded (r : SyncResults) : list json :=
  (mv_address <$> moved r) ++ (sk_address <$> skipped r)
  ++ (er_address <$> errors r).

Definition no_results : SyncResults :=
  {| moved := []; skipped := []; errors := [] |}.

Definition skip_entry (address : json) : SkippedEntry :=
  {| sk_address := address; sk_reason := lit "No pending image found" |}.

Definition move_entry (address : json) (info : FileInfo) : MovedEntry :=
  {| mv_address := address;
     mv_from := lit "pending/" ++ fi_fileName info;
     mv_to := lit "approved/" ++ fi_fileName info |}.

(** A [moved] entry made from an entry of the pending map. *)
Definition moved_from_pending (pendingMap : gmap jsstring FileInfo)
    (m : MovedEntry) : Prop :=
  exists info, pendingMap_get pendingMap (mv_address m) = Some info
               /\ m = move_entry (mv_address m) info.

(** A POST whose body parses to a value with an array under [addresses]. *)
Definition posts_addresses (request : Request) (addresses : list json) : Prop :=
  method request = lit "POST" /\
  exists v, body request = Json v
            /\ get_prop v (lit "addresses") = inr (Some (JArr addresses)).

(** The bucket listing answers with [items]. *)
Definition listing_succeeds {B : Backend} (w : World B)
    (items : list ApillonFile) : Prop :=
  exists s r, on_list B (store w) = (s, Responded r) /\ ok r = true
              /\ payload r = Some items.

(** The pending folder as the handler sees it. *)
Definition pending_files (items : list ApillonFile) : list FolderFile :=
  folder_file <$> filter (in_folder (lit "pending")) items.

Definition numbered (n : nat) : json := JStr (lit "ADDR-" ++ [N.of_nat n]).

Definition one_object : list MemoryBucket.Stored :=
  [MemoryBucket.stored "ADDR1.jpg" "pending" "f-a"].

Definition one_pending : World MemoryBucket.backend :=
  MemoryBucket.bucket one_object.

Definition in_moved (a : json) (r : SyncResults) : Prop :=
  a ∈ mv_address <$> moved r.
Definition in_skipped (a : json) (r : SyncResults) : Prop :=
  a ∈ sk_address <$> skipped r.
Definition in_errors (a : json) (r : SyncResults) : Prop :=
  a ∈ er_address <$> errors r.

Definition in_exactly_one (a : json) (r : SyncResults) : Prop :=
  (in_moved a r /\ ~ in_skipped a r /\ ~ in_errors a r)
  \/ (~ in_moved a r /\ in_skipped a r /\ ~ in_errors a r)
  \/ (~ in_moved a r /\ ~ in_skipped a r /\ in_errors a r).

(** A pending object whose link cannot be downloaded: its move fails. *)
Definition dead_link : World MemoryBucket.backend :=
  MemoryBucket.bucket
    [{| MemoryBucket.st_file :=
          {| af_name := lit "ADDR1.jpg"; af_fileUuid := lit "f-a";
             af_path := Some (lit "pending/"); af_link := None;
             af_CID := None; af_CIDv1 := None |};
        MemoryBucket.st_bytes := [] |}].

(** The object's name splits into the identifier and an extension. *)
Definition names_identifier (name : jsstring) (a : json) : Prop :=
  exists s ext, a = JStr s /\ name_match name = Some (s, ext).

(** The world after ADDR1 has been promoted by a first sync. *)
Definition promoted : World MemoryBucket.backend :=
  (handleSyncApprovedMembers (sync_request [addr "ADDR1"]) env0 origin0
     one_pending).2.

(** A field the handler takes for missing: absent, or falsy. *)
Definition missing (field : option json) : Prop := truthy field = false.

Definition initiate_invalid (fileName contentType directoryPath : option json)
    : Prop :=
  missing fileName \/ missing contentType \/ missing directoryPath
  \/ (directoryPath <> Some (JStr (lit "pending"))
      /\ directoryPath <> Some (JStr (lit "approved"))).

Definition initiate_request (folder : string) : Request :=
  {| method := lit "POST"; pathname := lit "/initiate";
     origin_header := Some origin0;
     body := Json (JObj [(lit "fileName", JStr (lit "ADDR1.jpg"));
                         (lit "contentType", JStr (lit "image/jpeg"));
                         (lit "directoryPath", JStr (lit folder))]) |}.

(** The bucket with a completion call that always fails. *)
Definition failing_completion : Backend :=
  {| bstate := MemoryBucket.Bucket;
     on_download := MemoryBucket.download;
     on_initiate := MemoryBucket.initiate;
     on_put := MemoryBucket.put;
     on_complete := fun b _ => (b, MemoryBucket.respond false "Bad Gateway" None);
     on_list := MemoryBucket.listing;
     on_delete := MemoryBucket.delete |}.

Definition three_folders : World MemoryBucket.backend :=
  MemoryBucket.bucket
    [MemoryBucket.stored "ADDR1.jpg" "pending" "f-a";
     MemoryBucket.stored "ADDR2.png" "approved" "f-b";
     MemoryBucket.stored "ADDR3.jpg" "pending/old" "f-c"].

(** * The callers in the web application

    The pure parts of the pages that call the worker: how the submit page
    names a file, how the gallery picks the addresses it asks the worker to
    sync, and how a member's address is abbreviated. *)

(** [str.slice(start, end)]: a negative index counts from the end, and both
    are clamped to the string. *)
Definition js_slice (s : jsstring) (start stop : Z) : jsstring :=
  let len := Z.of_nat (length s) in
  let from := if start <? 0 then Z.max (len + start) 0 else Z.min start len in
  let to := if stop <? 0 then Z.max (len + stop) 0 else Z.min stop len in
  take (Z.to_nat (to - from)) (drop (Z.to_nat from) s).

(** formatHash (components/MemberOffcanvas.tsx) *)
Definition formatHash (str : jsstring) : jsstring :=
  match str with
  | [] => []
  | _ :: _ =>
      let numChars := 6 in
      let sep := lit "..." in
      let strLen := Z.of_nat (length str) in
      let head := js_slice str 0 numChars in
      let tail := js_slice str (strLen - 5) strLen in
      head ++ sep ++ tail
  end.

(** A pattern letter under the [i] flag: a lower-case ASCII letter of the
    pattern matches itself and its upper-case form, and no other code unit
    (a code unit from 128 on is never folded onto an ASCII one). *)
Definition ci_unit (p c : code_unit) : bool :=
  (c =? p)%N || (c =? p - 32)%N.

Fixpoint ci_match (pattern s : jsstring) : bool :=
  match pattern, s with
  | [], [] => true
  | p :: pattern', c :: s' => ci_unit p c && ci_match pattern' s'
  | _, _ => false
  end.

(** Does [\.(jpg|png|heic|webp)$] with the [i] flag match the whole of [s]? *)
Definition is_image_suffix (s : jsstring) : bool :=
  match s with
  | c :: ext =>
      (c =? DOT)%N
      && (ci_match (lit "jpg") ext || ci_match (lit "png") ext
          || ci_match (lit "heic") ext || ci_match (lit "webp") ext)
  | [] => false
  end.

(** [name.replace(/\.(jpg|png|heic|webp)$/i, '')]: the leftmost position from
    which the pattern matches up to the end is cut off. *)
Fixpoint strip_image_extension (name : jsstring) : jsstring :=
  if is_image_suffix name then []
  else match name with
       | [] => []
       | c :: rest => c :: strip_image_extension rest
       end.

(** [s.startsWith(prefix)] *)
Definition startsWith (s prefix : jsstring) : bool :=
  bool_decide (take (length prefix) s = prefix).

(** [file.path === 'pending/' || file.path?.startsWith('pending/')] *)
Definition under_pending (file : ApillonFile) : bool :=
  match af_path file with
  | Some path =>
      bool_decide (path = lit "pending/") || startsWith path (lit "pending/")
  | None => false
  end.

(** pendingAddresses of the gallery's auto-sync (GalleryPage.tsx) *)
Definition pendingAddresses (allFiles : list ApillonFile) : list jsstring :=
  filter (fun addr => addr <> [])
    ((fun file => strip_image_extension (af_name file))
       <$> filter (fun file => under_pending file = true) allFiles).

(** [members.filter((member) => pendingAddresses.includes(member))] *)
Definition toSync (members : list jsstring) (allFiles : list ApillonFile)
    : list jsstring :=
  filter (fun member => member ∈ pendingAddresses allFiles) members.

(** The request of the auto-sync, when it sends one ([toSync.length > 0]). *)
Definition gallery_sync_request (origin : jsstring) (members : list jsstring)
    (allFiles : list ApillonFile) : option Request :=
  match toSync members allFiles with
  | [] => None
  | _ :: _ =>
      let addresses := take 50 (toSync members allFiles) in
      Some {| method := lit "POST";
              pathname := lit "/sync-approved-members";
              origin_header := Some origin;
              body := Json (JObj [(lit "addresses", JArr (JStr <$> addresses))]) |}
  end.

(** The file name of a submission (SubmitPage.tsx): [`${memberHash}.jpg`] *)
Definition submission_fileName (memberHash : jsstring) : jsstring :=
  memberHash ++ lit ".jpg".

(** * The first version of the worker's entry point

    workers/poi-upload-worker/src/index.ts has the same handlers for
    [/initiate] and [/complete], no sync route, and a method check before the
    origin check. *)
Definition fetch_v1 {B : Backend} (request : Request) (env : Env)
    : M B Response :=
  if bool_decide (method request = lit "OPTIONS") then
    ret (handleCORS request env)
  else if negb (bool_decide (method request = lit "POST")) then
    ret (jsonResponse (ErrorData (lit "Method not allowed") None) 405 None)
  else
    let origin := origin_header request in
    if origin_rejected env origin then
      ret (jsonResponse (ErrorData (lit "Unauthorized origin") None) 403 None)
    else
      let origin := default [] origin in
      if bool_decide (pathname request = lit "/initiate") then
        handleInitiateUpload request env origin
      else if bool_decide (pathname request = lit "/complete") then
        handleCompleteUpload request env origin
      else
        ret (jsonResponse (ErrorData (lit "Invalid endpoint") None) 404
               (Some origin)).

(** * Further vocabulary *)

(** [headers[name]] of a response. *)
Fixpoint header_get (name : jsstring) (hs : list (jsstring * jsstring))
    : option jsstring :=
  match hs with
  | [] => None
  | (k, v) :: rest => if decide (k = name) then Some v else header_get name rest
  end.

Definition allow_origin (resp : Response) : option jsstring :=
  header_get (lit "Access-Control-Allow-Origin") (headers resp).

(** [entries.join(',')] *)
Fixpoint join (sep : code_unit) (entries : list jsstring) : jsstring :=
  match entries with
  | [] => []
  | [e] => e
  | e :: rest => e ++ sep :: join sep rest
  end.

(** The delete call for a given backend identifier. *)
Definition deletes (e : Event) (file : jsstring) : Prop :=
  match e with EvDelete f _ => f = file | _ => False end.

(** A call that writes to the bucket: everything but download and listing. *)
Definition is_write (e : Event) : Prop :=
  match e with
  | EvDownload _ _ | EvList _ => False
  | _ => True
  end.

(** The body has the three fields the initiate handler accepts. *)
Definition initiate_accepts (request : Request) : Prop :=
  exists v fileName contentType directoryPath,
    body request = Json v
    /\ get_prop v (lit "fileName") = inr fileName
    /\ get_prop v (lit "contentType") = inr contentType
    /\ get_prop v (lit "directoryPath") = inr directoryPath
    /\ ~ initiate_invalid fileName contentType directoryPath.

(** The body has a session identifier the complete handler accepts. *)
Definition complete_accepts (request : Request) : Prop :=
  exists v session,
    body request = Json v
    /\ get_prop v (lit "sessionUuid") = inr session
    /\ truthy session = true.

(** The body has a non-empty array of addresses, sent by POST. *)
Definition sync_accepts (request : Request) : Prop :=
  exists addresses, posts_addresses request addresses /\ addresses <> [].

(** What a call made while moving [file] to the approved folder may be: no
    listing, no delete of another object, no upload session elsewhere. *)
Definition move_call_allowed (file : jsstring) (e : Event) : Prop :=
  match e with
  | EvList _ => False
  | EvDelete f _ => f = file
  | EvInitiate _ _ directoryPath _ => directoryPath = lit "approved"
  | _ => True
  end.

(** What a call made by the sync loop may be, given the bucket listing. *)
Definition sync_call_allowed (items : list ApillonFile) (e : Event) : Prop :=
  match e with
  | EvList _ => False
  | EvDelete f _ =>
      exists file, file ∈ items /\ af_path file = Some (lit "pending/")
                   /\ af_fileUuid file = f /\ has_extension (af_name file)
  | EvInitiate _ _ directoryPath _ => directoryPath = lit "approved"
  | _ => True
  end.

(** The bucket with a delete call that is always refused. *)
Definition failing_delete : Backend :=
  {| bstate := MemoryBucket.Bucket;
     on_download := MemoryBucket.download;
     on_initiate := MemoryBucket.initiate;
     on_put := MemoryBucket.put;
     on_complete := MemoryBucket.complete;
     on_list := MemoryBucket.listing;
     on_delete := fun b _ => (b, MemoryBucket.respond false "Forbidden" None) |}.

(** A backend that refuses the listing, and does not answer anything else. *)
Definition refusing_listing : Backend :=
  {| bstate := unit;
     on_download := fun _ _ => (tt, NetworkFailure []);
     on_initiate := fun _ _ _ _ => (tt, NetworkFailure []);
     on_put := fun _ _ _ _ => (tt, NetworkFailure []);
     on_complete := fun _ _ => (tt, NetworkFailure []);
     on_list := fun _ => (tt, MemoryBucket.respond false "Unauthorized" None);
     on_delete := fun _ _ => (tt, NetworkFailure []) |}.

Definition refused : World refusing_listing :=
  Build_World refusing_listing tt [].

(** A completion request with an empty session identifier. *)
Definition complete_request0 : Request :=
  {| method := lit "POST"; pathname := lit "/complete";
     origin_header := Some origin0;
     body := Json (JObj [(lit "sessionUuid", JStr [])]) |}.

(** A listing with a pending submission and a file in a sub-folder. *)
Definition gallery_listing : list ApillonFile :=
  MemoryBucket.st_file <$>
    [MemoryBucket.stored "ADDR1.jpg" "pending" "f-a";
     MemoryBucket.stored "ADDR2.PNG" "pending" "f-b";
     MemoryBucket.stored "ADDR9.jpg" "approved" "f-c"].

Definition gallery_members : list jsstring :=
  [lit "ADDR1"; lit "ADDR2"; lit "ADDR3"].

Definition gallery_bucket : World MemoryBucket.backend :=
  MemoryBucket.bucket
    [MemoryBucket.stored "ADDR1.jpg" "pending" "f-a";
     MemoryBucket.stored "ADDR2.PNG" "pending" "f-b";
     MemoryBucket.stored "ADDR9.jpg" "approved" "f-c"].

(** The request the gallery sends for that listing. *)
Definition gallery_request0 : Request :=
  {| method := lit "POST";
     pathname := lit "/sync-approved-members";
     origin_header := Some origin0;
     body := Json (JObj [(lit "addresses",
                          JArr [JStr (lit "ADDR1"); JStr (lit "ADDR2")])]) |}.

(** A delete the backend answered ok. *)
Definition confirmed_delete (e : Event) : bool :=
  match e with
  | EvDelete _ (Responded r) => ok r
  | _ => false
  end.

(** The deletes of a transcript that the backend answered ok. *)
Definition confirmed_deletes (t : list Event) : list Event :=
  filter (fun e => confirmed_delete e = true) t.

(** An entry as it may be written in ALLOWED_ORIGINS: white space, the
    origin, white space. *)
Record PaddedEntry := {
  pad_left : jsstring;
  pad_origin : jsstring;
  pad_right : jsstring
}.

Definition padded_text (p : PaddedEntry) : jsstring :=
  pad_left p ++ pad_origin p ++ pad_right p.

(** The padding is white space, the origin neither starts nor ends with
    white space, and there is no comma inside. *)
Definition well_padded (p : PaddedEntry) : Prop :=
  forallb is_trimmed (pad_left p) = true
  /\ forallb is_trimmed (pad_right p) = true
  /\ (COMMA ∉ padded_text p)
  /\ (forall c, head (pad_origin p) = Some c -> is_trimmed c = false)
  /\ (forall c, last (pad_origin p) = Some c -> is_trimmed c = false).

(** A configuration written with spaces after the commas. *)
Definition spaced_entries : list PaddedEntry :=
  [{| pad_left := []; pad_origin := lit "https://ksmu.example";
      pad_right := [] |};
   {| pad_left := lit " "; pad_origin := lit "http://localhost:3000";
      pad_right := [] |}].

(** The bucket with a completion call that answers 200 with the body
    [{data: {success: false}}] and stores nothing: the session is not
    ended, no object is created. *)
Definition unsuccessful_completion : Backend :=
  {| bstate := MemoryBucket.Bucket;
     on_download := MemoryBucket.download;
     on_initiate := MemoryBucket.initiate;
     on_put := MemoryBucket.put;
     on_complete := fun b _ =>
       (b, MemoryBucket.respond true "OK"
             (Some {| complete_data := Some false |}));
     on_list := MemoryBucket.listing;
     on_delete := MemoryBucket.delete |}.

(** ADDR1.jpg pending in that bucket. *)
Definition unconfirmed : World unsuccessful_completion :=
  Build_World unsuccessful_completion
    {| MemoryBucket.objects := one_object; MemoryBucket.sessions := [];
       MemoryBucket.fresh := 0 |} [].

(** A completion request for the session [session]. *)
Definition complete_request (session : string) : Request :=
  {| method := lit "POST"; pathname := lit "/complete";
     origin_header := Some origin0;
     body := Json (JObj [(lit "sessionUuid", JStr (lit session))]) |}.

(** The body cannot be read as an object: [request.json()] rejects, or it
    gives [null], whose properties cannot be read. *)
Definition body_unreadable (request : Request) : Prop :=
  (exists message, body request = NotJson message) \/ body request = Json JNull.

(** The body is read, and one of its three fields is missing or the folder
    is not one the worker knows. *)
Definition initiate_rejects (request : Request) : Prop :=
  exists v fileName contentType directoryPath,
    body request = Json v
    /\ get_prop v (lit "fileName") = inr fileName
    /\ get_prop v (lit "contentType") = inr contentType
    /\ get_prop v (lit "directoryPath") = inr directoryPath
    /\ initiate_invalid fileName contentType directoryPath.

(** A POST to [path] with the body [b]. *)
Definition post_with (path : string) (b : ParsedBody) : Request :=
  {| method := lit "POST"; pathname := lit path;
     origin_header := Some origin0; body := b |}.

(** [addresses] is missing, is not an array, or is an empty array. *)
Definition addresses_invalid (field : option json) : Prop :=
  field = None \/ (forall l, field <> Some (JArr l)) \/ field = Some (JArr []).

(** The body is read, and its [addresses] is missing, no array, or empty. *)
Definition sync_rejects (request : Request) : Prop :=
  exists v field,
    body request = Json v
    /\ get_prop v (lit "addresses") = inr field
    /\ addresses_invalid field.

(** A sync request whose [addresses] is a string, not an array. *)
Definition text_addresses_request : Request :=
  post_with "/sync-approved-members"
    (Json (JObj [(lit "addresses", JStr (lit "ADDR1"))])).

(** The body is read, and its session identifier is missing or falsy. *)
Definition complete_rejects (request : Request) : Prop :=
  exists v session,
    body request = Json v
    /\ get_prop v (lit "sessionUuid") = inr session
    /\ truthy session = false.

(** What the pattern asks of a name: a last dot with a non-empty identifier
    without line terminators before it and a non-empty extension after
    it. *)
Definition sync_eligible (name a e : jsstring) : Prop :=
  split_last_dot name = Some (a, e)
  /\ a <> [] /\ all_dot_class a = true /\ e <> [].

(** An identifier with a line feed in it, and a pending object named after
    it. *)
Definition two_line_identifier : jsstring := lit "5Grw" ++ [10%N] ++ lit "va".

Definition two_line_name : jsstring := two_line_identifier ++ lit ".jpg".

Definition two_line_pending : World MemoryBucket.backend :=
  MemoryBucket.bucket
    [{| MemoryBucket.st_file :=
          {| af_name := two_line_name; af_fileUuid := lit "f-n";
             af_path := Some (lit "pending/");
             af_link := Some (lit "https://ipfs/f-n");
             af_CID := None; af_CIDv1 := None |};
        MemoryBucket.st_bytes := [255; 216; 255]%N |}].

(** The entry [m] of [moved] and the delete [e]: the entry is made from the
    pending-map entry of its address, and the delete is that of this
    entry's object, answered ok. *)
Definition delete_of (pendingMap : gmap jsstring FileInfo) (m : MovedEntry)
    (e : Event) : Prop :=
  exists info r,
    pendingMap_get pendingMap (mv_address m) = Some info
    /\ m = move_entry (mv_address m) info
    /\ e = EvDelete (fi_fileUuid info) (Responded r)
    /\ ok r = true.

(** * Properties *)

(** ** Parsed bodies *)

(** Only [null] has no properties to read. *)
Lemma get_prop_cases (v : json) :
  v = JNull \/ forall key, exists field, get_prop v key = inr field.
Proof. destruct v; [by left|right; intros key; by eexists..]. Qed.

(** ** The file-name pattern *)

Lemma all_non_dot_spec (s : jsstring) :
  all_non_dot s = true <-> DOT ∉ s.
Proof.
  unfold all_non_dot. induction s as [|c s IH]; simpl.
  - split; [intros _; apply not_elem_of_nil | done].
  - rewrite andb_true_iff, IH, not_elem_of_cons, negb_true_iff, N.eqb_neq.
    split; intros [H1 H2]; split; auto.
Qed.

Lemma match_tail_spec (rest ext : jsstring) :
  match_tail rest = Some ext <->
  rest = DOT :: ext /\ ext <> [] /\ DOT ∉ ext.
Proof.
  unfold match_tail. destruct rest as [|c [|d ext']].
  - split; [done | intros [? _]; done].
  - destruct (N.eqb_spec c DOT);
      (split; [done | intros (H & Hne & _); by inversion H; subst]).
  - destruct (N.eqb_spec c DOT) as [->|Hc].
    + destruct (all_non_dot (d :: ext')) eqn:Hall.
      * apply all_non_dot_spec in Hall. split.
        -- intros [= <-]. done.
        -- intros (H & _ & _). by inversion H.
      * split; [done|]. intros (H & _ & Hd). inversion H; subst.
        apply all_non_dot_spec in Hd. congruence.
    + split; [done|]. intros (H & _). inversion H; congruence.
Qed.

Lemma match_from_spec (name : jsstring) (n : nat) (a e : jsstring) :
  match_from name n = Some (a, e) ->
  name = a ++ DOT :: e /\ a <> [] /\ all_dot_class a = true
  /\ e <> [] /\ DOT ∉ e.
Proof.
  induction n as [|n IH]; simpl; [done|].
  destruct (all_dot_class (take (S n) name)) eqn:Hcls; [|exact IH].
  destruct (match_tail (drop (S n) name)) as [ext|] eqn:Htail; [|exact IH].
  intros [= <- <-]. apply match_tail_spec in Htail as (Hdrop & Hne & Hdot).
  repeat split; try done.
  - by rewrite <- Hdrop, take_drop.
  - destruct name; [done|]. done.
Qed.

(** A dot-free suffix after a dot is what follows the last dot. *)
Lemma split_last_dot_app (a e : jsstring) :
  DOT ∉ e -> split_last_dot (a ++ DOT :: e) = Some (a, e).
Proof.
  intros Hdot.
  assert (Hnone : split_last_dot e = None).
  { induction e as [|c e IH]; simpl; [done|].
    apply not_elem_of_cons in Hdot as [Hc He]. rewrite (IH He).
    destruct (N.eqb_spec c DOT); congruence. }
  induction a as [|c a IH]; simpl.
  - by rewrite Hnone.
  - by rewrite IH.
Qed.

Lemma name_match_last_dot (name a e : jsstring) :
  name_match name = Some (a, e) ->
  split_last_dot name = Some (a, e) /\ a <> [] /\ e <> [].
Proof.
  intros H. apply match_from_spec in H as (-> & Ha & _ & He & Hdot).
  split; [by apply split_last_dot_app | done].
Qed.

Lemma name_match_no_extension (name : jsstring) :
  ~ has_extension name -> name_match name = None.
Proof.
  intros Hno. destruct (name_match name) as [[a e]|] eqn:H; [|done].
  apply name_match_last_dot in H as (H & _ & He).
  exfalso. apply Hno. by exists a, e.
Qed.

(** ** The move engine *)

Ltac step_fetch :=
  match goal with
  | |- context [on_download ?B ?s ?l] =>
      destruct (on_download B s l) as [? [?|[[] ? ? ? [?|]]]]
  | |- context [on_initiate ?B ?s ?a ?b ?c] =>
      destruct (on_initiate B s a b c) as [? [?|[[] ? ? ? [?|]]]]
  | |- context [on_put ?B ?s ?a ?b ?c] =>
      destruct (on_put B s a b c) as [? [?|[[] ? ? ? ?]]]
  | |- context [on_complete ?B ?s ?a] =>
      destruct (on_complete B s a) as [? [?|[[] ? ? ? [?|]]]]
  | |- context [on_delete ?B ?s ?a] =>
      destruct (on_delete B s a) as [? [?|[[] ? ? ? ?]]]
  | |- context [on_list ?B ?s] =>
      destruct (on_list B s) as [? [?|[[] ? ? ? [?|]]]]
  end; simpl.

Ltac close_failed :=
  eexists; split; [rewrite <- ?app_assoc; reflexivity|]; split; [|done];
  left; split; [repeat constructor; simpl; tauto|]; split; [simpl; lia|];
  by eexists.

(** X23: the transcript of a move is either at most the four copy steps
    with no delete in it, and then the move throws, or exactly download,
    initiate, PUT, complete, delete in this order, the first three having
    succeeded and the completion having been answered ok with a body that
    is decoded, whatever [data.success] says; without a retrieval link the
    move throws before any call. *)
Theorem moveFile_transcript_order {B : Backend} (env : Env)
    (fromPath toPath file : jsstring) (link : option jsstring) (w : World B) :
  exists t,
    trace (moveFile env fromPath toPath file link w).2 = trace w ++ t /\
    ((Forall (fun e => ~ is_delete e) t /\ (length t <= 4)%nat /\
      exists message,
        (moveFile env fromPath toPath file link w).1 = Thrown message)
     \/
     (exists e1 e2 e3 e4 r,
        t = [e1; e2; e3; e4; EvDelete file r]
        /\ download_succeeded e1 /\ initiate_succeeded e2
        /\ put_succeeded e3 /\ complete_answered e4))
    /\ (str_truthy link = false ->
        t = [] /\
        moveFile env fromPath toPath file link w =
          (Thrown (lit "File link is required to download file"), w)).
Proof.
  unfold moveFile.
  destruct (str_truthy link) eqn:Hlink; simpl.
  2: { exists []. rewrite app_nil_r. split; [done|]. split; [|done].
       left. split; [constructor|]. split; [simpl; lia|]. by eexists. }
  unfold bind, perform, apillonInitiateUpload, apillonCompleteUpload,
    deleteApillonFile, decode, bind, perform, throw, ret; simpl.
  step_fetch; try close_failed.
  step_fetch; try close_failed.
  destruct (str_truthy (upload_session _)) eqn:Hs; simpl; try close_failed.
  destruct (str_truthy (upload_first_url _)) eqn:Hu; simpl; try close_failed.
  step_fetch; try close_failed.
  step_fetch; try close_failed.
  all: step_fetch;
    (eexists; split; [rewrite <- ?app_assoc; reflexivity|]; split; [|done];
     right; do 5 eexists; split; [reflexivity|]; simpl; eauto 10).
Qed.

(** ** The folder index *)

Lemma listFilesInFolder_ok {B : Backend} (env : Env) (folder : jsstring)
    (w : World B) s r items :
  on_list B (store w) = (s, Responded r) -> ok r = true ->
  payload r = Some items ->
  listFilesInFolder env folder w =
    (Returned (folder_file <$> filter (in_folder folder) items),
     {| store := s; trace := trace w ++ [EvList (Responded r)] |}).
Proof.
  intros Hlist Hok Hitems.
  unfold listFilesInFolder, bind, perform, decode. rewrite Hlist, Hok; simpl.
  by rewrite Hitems.
Qed.

(** Every entry of the pending map comes from a listed file whose name the
    pattern splits. *)
Lemma pendingMap_of_lookup (pendingFiles : list FolderFile) (s : jsstring)
    (info : FileInfo) :
  pendingMap_of pendingFiles !! s = Some info ->
  exists file, file ∈ pendingFiles
    /\ name_match (ff_name file) = Some (s, fi_extension info)
    /\ fi_fileName info = ff_name file
    /\ fi_fileUuid info = ff_uuid file
    /\ fi_link info = ff_link file.
Proof.
  unfold pendingMap_of.
  assert (Hgen : forall (m : gmap jsstring FileInfo),
    foldl pendingMap_set m pendingFiles !! s = Some info ->
    m !! s = Some info \/
    exists file, file ∈ pendingFiles
      /\ name_match (ff_name file) = Some (s, fi_extension info)
      /\ fi_fileName info = ff_name file
      /\ fi_fileUuid info = ff_uuid file
      /\ fi_link info = ff_link file).
  { induction pendingFiles as [|f fs IH]; intros m; simpl; [by left|].
    intros H. destruct (IH _ H) as [Hm | (file & Hin & Hrest)].
    - unfold pendingMap_set in Hm.
      destruct (name_match (ff_name f)) as [[a e]|] eqn:Hmatch; [|by left].
      destruct (decide (a = s)) as [->|Hne].
      + rewrite lookup_insert_eq in Hm. injection Hm as <-. right.
        exists f. split; [by left | done].
      + rewrite lookup_insert_ne in Hm by done. by left.
    - right. exists file. split; [by right | done]. }
  intros H. destruct (Hgen ∅ H) as [Hempty | Hfile]; [|done].
  by rewrite lookup_empty in Hempty.
Qed.

(** ** The batch loop *)

Section Loop.
Context {B : Backend} (env : Env) (pendingMap : gmap jsstring FileInfo).

(** The three ways one turn of the loop ends: each records the address in
    one list, and none throws. *)
Lemma sync_one_cases (results : SyncResults) (address : json) (w : World B) :
  match pendingMap_get pendingMap address with
  | None =>
      sync_one env pendingMap results address w =
        (Returned (push_skipped results (skip_entry address)), w)
  | Some info =>
      match moveFile env (lit "pending/" ++ fi_fileName info)
              (lit "approved/" ++ fi_fileName info) (fi_fileUuid info)
              (fi_link info) w with
      | (Returned _, w') =>
          sync_one env pendingMap results address w =
            (Returned (push_moved results (move_entry address info)), w')
      | (Thrown message, w') =>
          sync_one env pendingMap results address w =
            (Returned (push_error results
                         {| er_address := address; er_error := message |}), w')
      end
  end.
Proof.
  unfold sync_one, try_catch, bind, ret.
  destruct (pendingMap_get pendingMap address) as [info|]; [|done].
  by destruct (moveFile _ _ _ _ _ w) as [[[]|message] w'].
Qed.

Lemma recorded_push_moved (r : SyncResults) (e : MovedEntry) :
  recorded (push_moved r e) ≡ₚ recorded r ++ [mv_address e].
Proof.
  unfold recorded; simpl. rewrite fmap_app; simpl.
  rewrite <- !app_assoc. apply Permutation_app_head. simpl.
  rewrite app_assoc. apply Permutation_cons_append.
Qed.

Lemma recorded_push_skipped (r : SyncResults) (e : SkippedEntry) :
  recorded (push_skipped r e) ≡ₚ recorded r ++ [sk_address e].
Proof.
  unfold recorded; simpl. rewrite fmap_app; simpl.
  rewrite <- !app_assoc. do 2 apply Permutation_app_head.
  apply Permutation_app_comm.
Qed.

Lemma recorded_push_error (r : SyncResults) (e : ErrorEntry) :
  recorded (push_error r e) = recorded r ++ [er_address e].
Proof.
  unfold recorded; simpl. rewrite fmap_app; simpl. by rewrite <- !app_assoc.
Qed.

Lemma sync_one_spec (results : SyncResults) (address : json) (w : World B) :
  exists results' w',
    sync_one env pendingMap results address w = (Returned results', w')
    /\ recorded results' ≡ₚ recorded results ++ [address]
    /\ skipped results' =
         skipped results
         ++ (skip_entry <$>
               filter (fun a => pendingMap_get pendingMap a = None) [address])
    /\ (Forall (moved_from_pending pendingMap) (moved results) ->
         Forall (moved_from_pending pendingMap) (moved results')).
Proof.
  pose proof (sync_one_cases results address w) as Hone.
  rewrite filter_cons, filter_nil.
  destruct (pendingMap_get pendingMap address) as [info|] eqn:Hget.
  - rewrite decide_False by done. simpl. rewrite app_nil_r.
    destruct (moveFile _ _ _ _ _ w) as [[[]|message] w1];
      do 2 eexists; (split; [exact Hone|]); repeat split.
    + apply (recorded_push_moved results (move_entry address info)).
    + intros H. simpl. apply Forall_app. split; [done|].
      constructor; [|constructor]. by exists info.
    + by rewrite recorded_push_error.
    + done.
  - rewrite decide_True by done.
    do 2 eexists. split; [exact Hone|]. repeat split.
    + apply (recorded_push_skipped results (skip_entry address)).
    + done.
Qed.

Lemma sync_loop_spec (addresses : list json) (results : SyncResults)
    (w : World B) :
  exists results' w',
    sync_loop env pendingMap addresses results w = (Returned results', w')
    /\ recorded results' ≡ₚ recorded results ++ addresses
    /\ skipped results' =
         skipped results
         ++ (skip_entry <$>
               filter (fun a => pendingMap_get pendingMap a = None) addresses)
    /\ (Forall (moved_from_pending pendingMap) (moved results) ->
         Forall (moved_from_pending pendingMap) (moved results')).
Proof.
  revert results w. induction addresses as [|a l IH]; intros results w.
  - exists results, w. simpl. rewrite !app_nil_r. done.
  - destruct (sync_one_spec results a w)
      as (r1 & w1 & Hone & Hperm1 & Hskip1 & Hmoved1).
    destruct (IH r1 w1) as (r' & w' & Hloop & Hperm & Hskip & Hmoved).
    exists r', w'. simpl. unfold bind at 1. rewrite Hone.
    split; [done|]. repeat split.
    + rewrite Hperm, Hperm1. by rewrite <- app_assoc.
    + rewrite Hskip, Hskip1, <- app_assoc, <- fmap_app.
      by rewrite <- filter_app.
    + auto.
Qed.

End Loop.

(** ** The batch sync handler *)

Section Sync.
Context {B : Backend} (env : Env) (origin : jsstring).

(** With a non-empty array the handler lists the pending folder and runs the
    loop over the first 50 addresses. *)
Lemma handleSync_runs (request : Request) (addresses : list json)
    (w : World B) :
  posts_addresses request addresses -> addresses <> [] ->
  handleSyncApprovedMembers request env origin w =
    match listFilesInFolder env (lit "pending") w with
    | (Returned pendingFiles, w1) =>
        match sync_loop env (pendingMap_of pendingFiles) (take 50 addresses)
                no_results w1 with
        | (Returned results, w2) =>
            (Returned (jsonResponse (SyncData results) 200 (Some origin)), w2)
        | (Thrown message, w2) =>
            (Returned (jsonResponse (SyncFailedData message) 500 (Some origin)),
             w2)
        end
    | (Thrown message, w1) =>
        (Returned (jsonResponse (SyncFailedData message) 500 (Some origin)), w1)
    end.
Proof.
  intros (Hpost & v & Hbody & Hfield) Hne.
  unfold handleSyncApprovedMembers. rewrite Hpost.
  rewrite bool_decide_eq_true_2 by done. simpl.
  unfold try_catch, bind at 1, request_json. rewrite Hbody.
  unfold ret at 1. unfold bind at 1, prop. rewrite Hfield. unfold ret at 1.
  simpl. destruct addresses as [|a l]; [done|].
  unfold bind at 1.
  destruct (listFilesInFolder env (lit "pending") w) as [[pf|message] w1];
    [|done].
  unfold bind at 1. fold no_results.
  by destruct (sync_loop _ _ _ _ w1) as [[r|message] w2].
Qed.

(** With an empty array the handler answers 400 at once. *)
Lemma handleSync_empty (request : Request) (w : World B) :
  posts_addresses request [] ->
  handleSyncApprovedMembers request env origin w =
    (Returned (jsonResponse (ErrorData (lit "Invalid addresses array") None)
                 400 (Some origin)), w).
Proof.
  intros (Hpost & v & Hbody & Hfield).
  unfold handleSyncApprovedMembers. rewrite Hpost.
  rewrite bool_decide_eq_true_2 by done. simpl.
  unfold try_catch, bind at 1, request_json. rewrite Hbody.
  unfold ret at 1. unfold bind at 1, prop. by rewrite Hfield.
Qed.

(** Whenever a sync result is returned, it is the loop's, over the first 50
    addresses and the map of the listed pending files. *)
Lemma handleSync_inv (request : Request) (addresses : list json)
    (w w' : World B) (resp : Response) (r : SyncResults) :
  posts_addresses request addresses ->
  handleSyncApprovedMembers request env origin w = (Returned resp, w') ->
  data resp = SyncData r ->
  addresses <> [] /\
  exists pendingFiles w1,
    listFilesInFolder env (lit "pending") w = (Returned pendingFiles, w1)
    /\ sync_loop env (pendingMap_of pendingFiles) (take 50 addresses)
         no_results w1 = (Returned r, w').
Proof.
  intros Hreq Hrun Hdata.
  destruct addresses as [|a l].
  { rewrite (handleSync_empty _ _ Hreq) in Hrun.
    injection Hrun as <- _. discriminate Hdata. }
  split; [done|].
  rewrite (handleSync_runs _ _ _ Hreq) in Hrun by done.
  destruct (listFilesInFolder env (lit "pending") w) as [[pf|message] w1].
  - exists pf, w1. split; [done|].
    destruct (sync_loop _ _ _ _ w1) as [[r'|message] w2];
      injection Hrun as <- <-; simpl in Hdata; [|discriminate Hdata].
    by injection Hdata as ->.
  - injection Hrun as <- _. discriminate Hdata.
Qed.

(** With a non-empty array and a listing that answers, a sync result is
    returned with status 200, whatever happens to the single items. *)
Lemma handleSync_returns (request : Request) (addresses : list json)
    (items : list ApillonFile) (w : World B) :
  posts_addresses request addresses -> addresses <> [] ->
  listing_succeeds w items ->
  exists r w',
    handleSyncApprovedMembers request env origin w =
      (Returned (jsonResponse (SyncData r) 200 (Some origin)), w')
    /\ recorded r ≡ₚ take 50 addresses
    /\ skipped r =
         skip_entry <$>
           filter (fun a => pendingMap_get (pendingMap_of (pending_files items)) a
                            = None)
                  (take 50 addresses)
    /\ Forall (moved_from_pending (pendingMap_of (pending_files items)))
              (moved r).
Proof.
  intros Hreq Hne (s & r0 & Hlist & Hok & Hitems).
  rewrite (handleSync_runs _ _ _ Hreq Hne).
  rewrite (listFilesInFolder_ok _ _ _ _ _ _ Hlist Hok Hitems).
  fold (pending_files items).
  destruct (sync_loop_spec env (pendingMap_of (pending_files items))
              (take 50 addresses) no_results
              {| store := s; trace := trace w ++ [EvList (Responded r0)] |})
    as (r & w' & -> & Hperm & Hskip & Hmoved).
  exists r, w'. split; [done|]. split; [done|]. split; [done|].
  apply Hmoved. constructor.
Qed.

End Sync.

(** ** Concrete runs *)

Lemma sync_request_posts (addresses : list json) :
  posts_addresses (sync_request addresses) addresses.
Proof. split; [done|]. by eexists. Defined.

Lemma bucket_listing (objs : list MemoryBucket.Stored) :
  listing_succeeds (MemoryBucket.bucket objs) (MemoryBucket.st_file <$> objs).
Proof. by do 2 eexists. Defined.

(** ** The partition of the submitted identifiers *)

Lemma in_exactly_one_NoDup (a : json) (r : SyncResults) :
  NoDup (recorded r) -> a ∈ recorded r -> in_exactly_one a r.
Proof.
  unfold recorded, in_exactly_one, in_moved, in_skipped, in_errors.
  intros (_ & Hm & Hrest)%NoDup_app.
  apply NoDup_app in Hrest as (_ & Hs & _).
  intros [Hin | [Hin | Hin]%elem_of_app]%elem_of_app.
  - left. specialize (Hm a Hin). rewrite elem_of_app in Hm. tauto.
  - right; left. repeat split; [|done|by apply Hs].
    intros Hin'. specialize (Hm a Hin'). rewrite elem_of_app in Hm. tauto.
  - right; right. repeat split; [| |done].
    + intros Hin'. specialize (Hm a Hin'). rewrite elem_of_app in Hm. tauto.
    + intros Hin'. by apply (Hs a Hin').
Qed.

(** C1, as stated, fails.  Of 51 distinct identifiers sent to a bucket with an
    empty pending folder the last one is in none of the three lists; and an
    identifier sent twice is in [moved] for its first occurrence and in
    [errors] for its second, the pending object being gone by then. *)
Lemma sync_partition_counterexample :
  (exists resp w' r,
     handleSyncApprovedMembers (sync_request (numbered <$> seq 0 51)) env0
       origin0 (MemoryBucket.bucket []) = (Returned resp, w')
     /\ data resp = SyncData r
     /\ numbered 50 ∈ numbered <$> seq 0 51
     /\ ~ in_exactly_one (numbered 50) r)
  /\ (exists resp w' r,
        handleSyncApprovedMembers (sync_request [addr "ADDR1"; addr "ADDR1"])
          env0 origin0 one_pending = (Returned resp, w')
        /\ data resp = SyncData r
        /\ in_moved (addr "ADDR1") r /\ in_errors (addr "ADDR1") r
        /\ ~ in_exactly_one (addr "ADDR1") r).
Proof.
  split.
  - do 3 eexists. split; [vm_compute; reflexivity|]. split; [reflexivity|].
    split.
    + apply list_elem_of_fmap. exists 50%nat. split; [done|].
      apply elem_of_seq. lia.
    + unfold in_exactly_one, in_moved, in_skipped, in_errors. simpl.
      intros [(H & _) | [(_ & H & _) | (_ & _ & H)]];
        try (by apply elem_of_nil in H).
      apply list_elem_of_In in H. vm_compute in H.
      repeat (destruct H as [H|H]; [discriminate H|]). exact H.
  - do 3 eexists. split; [vm_compute; reflexivity|]. split; [reflexivity|].
    assert (Hm : in_moved (addr "ADDR1")
                   {| moved := [move_entry (addr "ADDR1")
                                  {| fi_fileName := lit "ADDR1.jpg";
                                     fi_fileUuid := lit "f-a";
                                     fi_extension := lit "jpg";
                                     fi_link := Some (lit "https://ipfs/f-a") |}];
                      skipped := [];
                      errors := [{| er_address := addr "ADDR1";
                                    er_error :=
                                      lit "Failed to download file: Not Found" |}] |})
      by (unfold in_moved; simpl; left).
    assert (He : in_errors (addr "ADDR1")
                   {| moved := [move_entry (addr "ADDR1")
                                  {| fi_fileName := lit "ADDR1.jpg";
                                     fi_fileUuid := lit "f-a";
                                     fi_extension := lit "jpg";
                                     fi_link := Some (lit "https://ipfs/f-a") |}];
                      skipped := [];
                      errors := [{| er_address := addr "ADDR1";
                                    er_error :=
                                      lit "Failed to download file: Not Found" |}] |})
      by (unfold in_errors; simpl; left).
    split; [exact Hm|]. split; [exact He|].
    unfold in_exactly_one. tauto.
Qed.

(** C1 (amended): when the sync answers, the identifiers recorded in
    [moved], [skipped] and [errors] together are, with multiplicity, exactly
    the first 50 submitted; if those are pairwise distinct, each of them is
    in exactly one of the three lists. *)
Theorem sync_partitions_first_50 {B : Backend} (env : Env) (origin : jsstring)
    (request : Request) (addresses : list json) (items : list ApillonFile)
    (w : World B) :
  posts_addresses request addresses -> addresses <> [] ->
  listing_succeeds w items ->
  exists r w',
    handleSyncApprovedMembers request env origin w =
      (Returned (jsonResponse (SyncData r) 200 (Some origin)), w')
    /\ recorded r ≡ₚ take 50 addresses
    /\ (NoDup (take 50 addresses) ->
        forall a, a ∈ take 50 addresses -> in_exactly_one a r).
Proof.
  intros Hreq Hne Hlist.
  destruct (handleSync_returns env origin _ _ _ _ Hreq Hne Hlist)
    as (r & w' & Hrun & Hperm & _).
  exists r, w'. split; [done|]. split; [done|].
  intros Hnodup a Hin. apply in_exactly_one_NoDup.
  - by rewrite Hperm.
  - by rewrite Hperm.
Qed.

Lemma sync_partitions_first_50_witness :
  exists r w',
    handleSyncApprovedMembers (sync_request [addr "ADDR1"; addr "ADDR2"]) env0
      origin0 one_pending =
      (Returned (jsonResponse (SyncData r) 200 (Some origin0)), w')
    /\ recorded r ≡ₚ take 50 [addr "ADDR1"; addr "ADDR2"]
    /\ (NoDup (take 50 [addr "ADDR1"; addr "ADDR2"]) ->
        forall a, a ∈ take 50 [addr "ADDR1"; addr "ADDR2"] ->
                  in_exactly_one a r).
Proof.
  apply (sync_partitions_first_50 env0 origin0
           (sync_request [addr "ADDR1"; addr "ADDR2"])
           [addr "ADDR1"; addr "ADDR2"]
           (MemoryBucket.st_file <$> one_object) one_pending).
  - apply sync_request_posts.
  - discriminate.
  - apply bucket_listing.
Defined.

(** ** The limit of 50 *)

(** C3: a request is answered exactly as the request with only its first 50
    addresses would be, backend calls included; what the result records are
    at most 50 identifiers, all among the first 50. *)
Theorem sync_ignores_addresses_past_50 {B : Backend} (env : Env)
    (origin : jsstring) (request request' : Request)
    (addresses : list json) (w : World B) :
  posts_addresses request addresses ->
  posts_addresses request' (take 50 addresses) ->
  handleSyncApprovedMembers request env origin w =
    handleSyncApprovedMembers request' env origin w
  /\ forall resp w' r,
       handleSyncApprovedMembers request env origin w = (Returned resp, w') ->
       data resp = SyncData r ->
       (length (recorded r) <= 50)%nat
       /\ forall a, a ∈ recorded r -> a ∈ take 50 addresses.
Proof.
  intros Hreq Hreq'. split.
  - destruct addresses as [|a l].
    + by rewrite (handleSync_empty _ _ _ _ Hreq), (handleSync_empty _ _ _ _ Hreq').
    + rewrite (handleSync_runs _ _ _ _ _ Hreq) by done.
      rewrite (handleSync_runs _ _ _ _ _ Hreq') by done.
      by rewrite take_take.
  - intros resp w' r Hrun Hdata.
    destruct (handleSync_inv _ _ _ _ _ _ _ _ Hreq Hrun Hdata)
      as (_ & pf & w1 & _ & Hloop).
    destruct (sync_loop_spec env (pendingMap_of pf) (take 50 addresses)
                no_results w1) as (r' & w'' & Hloop' & Hperm & _).
    rewrite Hloop in Hloop'. injection Hloop' as <- <-.
    simpl in Hperm. split.
    + rewrite Hperm, length_take. lia.
    + intros a Ha. by rewrite <- Hperm.
Qed.

Lemma sync_ignores_addresses_past_50_witness :
  handleSyncApprovedMembers (sync_request (numbered <$> seq 0 60)) env0
    origin0 one_pending =
    handleSyncApprovedMembers
      (sync_request (take 50 (numbered <$> seq 0 60))) env0 origin0 one_pending
  /\ forall resp w' r,
       handleSyncApprovedMembers (sync_request (numbered <$> seq 0 60)) env0
         origin0 one_pending = (Returned resp, w') ->
       data resp = SyncData r ->
       (length (recorded r) <= 50)%nat
       /\ forall a, a ∈ recorded r -> a ∈ take 50 (numbered <$> seq 0 60).
Proof.
  apply (sync_ignores_addresses_past_50 env0 origin0
           (sync_request (numbered <$> seq 0 60))
           (sync_request (take 50 (numbered <$> seq 0 60)))
           (numbered <$> seq 0 60) one_pending).
  - apply sync_request_posts.
  - apply sync_request_posts.
Defined.

(** A POST whose body is read and has no [addresses], or has one that is
    not an array, or an empty array, is answered 400 at once. *)
Lemma handleSync_invalid {B : Backend} (env : Env) (origin : jsstring)
    (request : Request) (v : json) (field : option json) (w : World B) :
  method request = lit "POST" ->
  body request = Json v ->
  get_prop v (lit "addresses") = inr field ->
  addresses_invalid field ->
  handleSyncApprovedMembers request env origin w =
    (Returned (jsonResponse (ErrorData (lit "Invalid addresses array") None)
                 400 (Some origin)), w).
Proof.
  intros Hpost Hbody Hfield Hbad.
  unfold handleSyncApprovedMembers. rewrite Hpost.
  rewrite bool_decide_eq_true_2 by done. simpl.
  unfold try_catch, bind at 1, request_json. rewrite Hbody.
  unfold ret at 1. unfold bind at 1, prop. rewrite Hfield. unfold ret at 1.
  destruct field as [[|[]|n|[|c s]|[|a l]|fields]|]; simpl; try done.
  - by destruct n.
  - exfalso. destruct Hbad as [H | [H | H]]; try discriminate H.
    by apply (H (a :: l)).
Qed.

(** A POST whose body cannot be read is answered 500 by the outer [catch],
    and nothing is asked of the backend. *)
Lemma handleSync_unreadable {B : Backend} (env : Env) (origin : jsstring)
    (request : Request) (w : World B) :
  method request = lit "POST" ->
  body_unreadable request ->
  exists message,
    handleSyncApprovedMembers request env origin w =
      (Returned (jsonResponse (SyncFailedData message) 500 (Some origin)), w).
Proof.
  intros Hpost Hbody.
  unfold handleSyncApprovedMembers. rewrite Hpost.
  rewrite bool_decide_eq_true_2 by done. simpl.
  unfold try_catch, bind at 1, request_json.
  destruct Hbody as [(message & ->) | ->]; by eexists.
Qed.

(** ** Failures of single items *)

(** C5, as stated, fails: an empty list of addresses is answered with 400. *)
Lemma sync_status_counterexample :
  exists resp w',
    handleSyncApprovedMembers (sync_request []) env0 origin0 one_pending =
      (Returned resp, w')
    /\ status resp = 400 /\ status resp <> 200.
Proof. do 2 eexists. split; [vm_compute; reflexivity|]. done. Qed.

(** C5 (amended): for a non-empty list of addresses and a pending-folder
    listing that answers, the sync returns (it does not throw) status 200
    with a result that has one entry for each of the first 50 addresses,
    whatever fails for the single items; an item whose move throws is
    recorded in [errors] with the message and the loop goes on with the
    rest.  A POST whose body is read and has no [addresses], or one that is
    not an array or is empty, is answered 400. *)
Theorem sync_isolates_item_failures {B : Backend} (env : Env)
    (origin : jsstring) (request : Request) (addresses : list json)
    (items : list ApillonFile) (w : World B) :
  posts_addresses request addresses -> addresses <> [] ->
  listing_succeeds w items ->
  (exists r w',
     handleSyncApprovedMembers request env origin w =
       (Returned (jsonResponse (SyncData r) 200 (Some origin)), w')
     /\ length (recorded r) = Nat.min 50 (length addresses)
     /\ recorded r ≡ₚ take 50 addresses)
  /\ (forall pendingMap results a rest info (w1 w2 : World B) message,
       pendingMap_get pendingMap a = Some info ->
       moveFile env (lit "pending/" ++ fi_fileName info)
         (lit "approved/" ++ fi_fileName info) (fi_fileUuid info)
         (fi_link info) w1 = (Thrown message, w2) ->
       sync_loop env pendingMap (a :: rest) results w1 =
         sync_loop env pendingMap rest
           (push_error results {| er_address := a; er_error := message |}) w2)
  /\ (forall other v field (w0 : World B),
        method other = lit "POST" ->
        body other = Json v ->
        get_prop v (lit "addresses") = inr field ->
        addresses_invalid field ->
        handleSyncApprovedMembers other env origin w0 =
          (Returned (jsonResponse
                       (ErrorData (lit "Invalid addresses array") None)
                       400 (Some origin)), w0)).
Proof.
  intros Hreq Hne Hlist. split; [|split].
  3: { intros other v field w0. apply handleSync_invalid. }
  - destruct (handleSync_returns env origin _ _ _ _ Hreq Hne Hlist)
      as (r & w' & Hrun & Hperm & _).
    exists r, w'. split; [done|]. split; [|done].
    by rewrite Hperm, length_take.
  - intros pendingMap results a rest info w1 w2 message Hget Hmove.
    pose proof (sync_one_cases env pendingMap results a w1) as Hone.
    rewrite Hget, Hmove in Hone. simpl. unfold bind at 1. by rewrite Hone.
Qed.

Lemma memory_listing (w : World MemoryBucket.backend) :
  listing_succeeds w (MemoryBucket.st_file <$> MemoryBucket.objects (store w)).
Proof. by do 2 eexists. Defined.

Lemma sync_isolates_item_failures_witness :
  exists r w',
    handleSyncApprovedMembers (sync_request [addr "ADDR1"; addr "ADDR2"])
      env0 origin0 dead_link =
      (Returned (jsonResponse (SyncData r) 200 (Some origin0)), w')
    /\ length (recorded r) = Nat.min 50 2
    /\ recorded r ≡ₚ take 50 [addr "ADDR1"; addr "ADDR2"].
Proof.
  apply (sync_isolates_item_failures env0 origin0
           (sync_request [addr "ADDR1"; addr "ADDR2"])
           [addr "ADDR1"; addr "ADDR2"]
           (MemoryBucket.st_file <$> MemoryBucket.objects (store dead_link))
           dead_link).
  - apply sync_request_posts.
  - discriminate.
  - apply memory_listing.
Defined.

Example dead_link_is_recorded :
  (handleSyncApprovedMembers (sync_request [addr "ADDR1"; addr "ADDR2"])
     env0 origin0 dead_link).1 =
  Returned
    (jsonResponse
       (SyncData
          {| moved := [];
             skipped := [skip_entry (addr "ADDR2")];
             errors := [{| er_address := addr "ADDR1";
                           er_error :=
                             lit "File link is required to download file" |}] |})
       200 (Some origin0)).
Proof. vm_compute. reflexivity. Qed.

(** ** Identifiers without a pending object *)

Lemma pendingMap_get_None (items : list ApillonFile) (a : json) :
  (forall file, file ∈ items -> in_folder (lit "pending") file ->
                ~ names_identifier (af_name file) a) ->
  pendingMap_get (pendingMap_of (pending_files items)) a = None.
Proof.
  intros Hno.
  destruct (pendingMap_get _ a) as [info|] eqn:Hget; [|done].
  destruct a as [| | |s| |]; try discriminate Hget. simpl in Hget.
  apply pendingMap_of_lookup in Hget as (file & Hin & Hmatch & _).
  apply list_elem_of_fmap in Hin as (f & -> & Hf).
  apply list_elem_of_filter in Hf as [Hfolder Hf].
  exfalso. apply (Hno f Hf Hfolder). by exists s, (fi_extension info).
Qed.

(** C7, as stated, fails.  Of 51 identifiers without a pending object the
    last one is not recorded in [skipped] at all; and the reason recorded
    for an identifier that is skipped is another text. *)
Lemma sync_skipped_counterexample :
  (exists resp w' r,
     handleSyncApprovedMembers (sync_request (numbered <$> seq 0 51)) env0
       origin0 (MemoryBucket.bucket []) = (Returned resp, w')
     /\ data resp = SyncData r
     /\ numbered 50 ∈ numbered <$> seq 0 51
     /\ ~ in_skipped (numbered 50) r)
  /\ (exists resp w' r,
        handleSyncApprovedMembers (sync_request [addr "ADDR2"]) env0 origin0
          one_pending = (Returned resp, w')
        /\ data resp = SyncData r
        /\ (forall file, file ∈ MemoryBucket.st_file <$> one_object ->
              in_folder (lit "pending") file ->
              ~ names_identifier (af_name file) (addr "ADDR2"))
        /\ skipped r = [{| sk_address := addr "ADDR2";
                           sk_reason := lit "No pending image found" |}]
        /\ ~ exists e, e ∈ skipped r /\ sk_address e = addr "ADDR2"
                       /\ sk_reason e = lit "no pending object").
Proof.
  split.
  - do 3 eexists. split; [vm_compute; reflexivity|]. split; [reflexivity|].
    split.
    + apply list_elem_of_fmap. exists 50%nat. split; [done|].
      apply elem_of_seq. lia.
    + unfold in_skipped. simpl. intros H.
      apply list_elem_of_In in H. vm_compute in H.
      repeat (destruct H as [H|H]; [discriminate H|]). exact H.
  - do 3 eexists. split; [vm_compute; reflexivity|]. split; [reflexivity|].
    split; [|split; [reflexivity|]].
    + intros file Hin _ (s & ext & Ha & Hmatch).
      apply list_elem_of_fmap in Hin as (o & -> & Ho).
      apply list_elem_of_singleton in Ho as ->.
      vm_compute in Hmatch. injection Hmatch as <- _. discriminate Ha.
    + intros (e & He & _ & Hreason).
      apply list_elem_of_singleton in He as ->. discriminate Hreason.
Qed.

(** C7 (amended): each of the first 50 submitted identifiers for which the
    pending folder lists no object named identifier-dot-extension is
    recorded in [skipped], with the reason "No pending image found". *)
Theorem sync_skips_without_pending_object {B : Backend} (env : Env)
    (origin : jsstring) (request : Request) (addresses : list json)
    (items : list ApillonFile) (w : World B) :
  posts_addresses request addresses -> addresses <> [] ->
  listing_succeeds w items ->
  exists r w',
    handleSyncApprovedMembers request env origin w =
      (Returned (jsonResponse (SyncData r) 200 (Some origin)), w')
    /\ forall a,
         a ∈ take 50 addresses ->
         (forall file, file ∈ items -> in_folder (lit "pending") file ->
                       ~ names_identifier (af_name file) a) ->
         {| sk_address := a; sk_reason := lit "No pending image found" |}
           ∈ skipped r.
Proof.
  intros Hreq Hne Hlist.
  destruct (handleSync_returns env origin _ _ _ _ Hreq Hne Hlist)
    as (r & w' & Hrun & _ & Hskip & _).
  exists r, w'. split; [done|]. intros a Ha Hno.
  rewrite Hskip. apply (list_elem_of_fmap_2 skip_entry).
  apply list_elem_of_filter. split; [|done]. by apply pendingMap_get_None.
Qed.

Lemma sync_skips_without_pending_object_witness :
  exists r w',
    handleSyncApprovedMembers (sync_request [addr "ADDR1"]) env0 origin0
      promoted =
      (Returned (jsonResponse (SyncData r) 200 (Some origin0)), w')
    /\ {| sk_address := addr "ADDR1";
          sk_reason := lit "No pending image found" |} ∈ skipped r.
Proof.
  destruct (sync_skips_without_pending_object env0 origin0
              (sync_request [addr "ADDR1"]) [addr "ADDR1"]
              (MemoryBucket.st_file <$> MemoryBucket.objects (store promoted))
              promoted
              (sync_request_posts _) ltac:(discriminate)
              (memory_listing promoted)) as (r & w' & Hrun & Hskip).
  exists r, w'. split; [exact Hrun|]. apply Hskip.
  - vm_compute. left.
  - intros file Hin Hfolder _. vm_compute in Hin.
    apply list_elem_of_singleton in Hin. subst file.
    vm_compute in Hfolder. discriminate Hfolder.
Defined.

(** ** Validation of the addresses *)

(** C10, as stated, fails: in a [null] body, and in a body that is not
    JSON, no [addresses] can be read, and the answer is 500 "Sync failed"
    from the outer [catch], not 400. *)
Lemma sync_unreadable_body_counterexample :
  (forall field, get_prop JNull (lit "addresses") <> inr field)
  /\ handleSyncApprovedMembers (post_with "/sync-approved-members" (Json JNull))
       env0 origin0 one_pending =
       (Returned (jsonResponse
                    (SyncFailedData (lit "Cannot read properties of null"))
                    500 (Some origin0)), one_pending)
  /\ handleSyncApprovedMembers
       (post_with "/sync-approved-members" (NotJson (lit "Unexpected token")))
       env0 origin0 one_pending =
       (Returned (jsonResponse (SyncFailedData (lit "Unexpected token"))
                    500 (Some origin0)), one_pending).
Proof.
  split; [intros field H; discriminate H|].
  split; vm_compute; reflexivity.
Qed.

(** C10 (amended): a POST whose body is read as a value other than [null]
    and has no [addresses], or has one that is not an array, or an empty
    array, is answered 400 "Invalid addresses array", and nothing is asked
    of the backend; the handler answers 400 in no other case.  A POST whose
    body is not JSON, or is [null], is answered 500 by the outer [catch],
    and nothing is asked of the backend either.  Every POST is of one of
    these two kinds or carries a non-empty array of addresses. *)
Theorem sync_rejects_invalid_addresses {B : Backend} (env : Env)
    (origin : jsstring) (request : Request) (w : World B) :
  method request = lit "POST" ->
  (sync_rejects request ->
   handleSyncApprovedMembers request env origin w =
     (Returned (jsonResponse (ErrorData (lit "Invalid addresses array") None)
                  400 (Some origin)), w))
  /\ ((exists resp w',
         handleSyncApprovedMembers request env origin w = (Returned resp, w')
         /\ status resp = 400)
      <-> sync_rejects request)
  /\ (body_unreadable request ->
      exists message,
        handleSyncApprovedMembers request env origin w =
          (Returned (jsonResponse (SyncFailedData message) 500 (Some origin)),
           w))
  /\ (sync_rejects request \/ body_unreadable request ->
      forall resp w',
        handleSyncApprovedMembers request env origin w = (Returned resp, w') ->
        status resp <> 200 /\ forall r, data resp <> SyncData r)
  /\ (sync_rejects request \/ body_unreadable request \/ sync_accepts request).
Proof.
  intros Hpost.
  assert (Hrej : sync_rejects request ->
    handleSyncApprovedMembers request env origin w =
      (Returned (jsonResponse (ErrorData (lit "Invalid addresses array") None)
                   400 (Some origin)), w)).
  { intros (v & field & Hbody & Hfield & Hbad).
    by apply (handleSync_invalid env origin request v field). }
  assert (Hcases : sync_rejects request \/ body_unreadable request
                   \/ sync_accepts request).
  { destruct (body request) as [message | v] eqn:Hbody.
    { right; left. left. by eexists. }
    destruct (get_prop_cases v) as [-> | Hfields].
    { right; left. by right. }
    destruct (Hfields (lit "addresses")) as (field & Hfield).
    assert (Hfield' : addresses_invalid field
                      \/ exists a l, field = Some (JArr (a :: l))).
    { destruct field as [[| | | |[|a l]|]|];
        first [ by right; eexists _, _
              | left; first [ by left | by right; right | by right; left ] ]. }
    destruct Hfield' as [Hbad | (a & l & ->)].
    - left. by exists v, field.
    - right; right. exists (a :: l). split; [|done].
      split; [done|]. by exists v. }
  split; [exact Hrej|]. split; [|split; [|split; [|exact Hcases]]].
  - split.
    + intros (resp & w' & Hrun & Hst).
      destruct Hcases as [H | [H | (addresses & Hreq & Hne)]]; [done| |].
      * destruct (handleSync_unreadable env origin request w Hpost H)
          as (message & Hm).
        rewrite Hm in Hrun. injection Hrun as <- _. discriminate Hst.
      * rewrite (handleSync_runs env origin _ _ _ Hreq Hne) in Hrun.
        destruct (listFilesInFolder env (lit "pending") w)
          as [[pf|message] w1];
          [destruct (sync_loop _ _ _ _ w1) as [[r|message] w2]|];
          injection Hrun as <- _; discriminate Hst.
    + intros H. rewrite (Hrej H). by do 2 eexists.
  - by apply handleSync_unreadable.
  - intros [H | H] resp w' Hrun.
    + rewrite (Hrej H) in Hrun. injection Hrun as <- _. by split.
    + destruct (handleSync_unreadable env origin request w Hpost H)
        as (message & Hm).
      rewrite Hm in Hrun. injection Hrun as <- _. by split.
Qed.

Lemma sync_rejects_invalid_addresses_witness :
  (sync_rejects text_addresses_request ->
   handleSyncApprovedMembers text_addresses_request env0 origin0 one_pending =
     (Returned (jsonResponse (ErrorData (lit "Invalid addresses array") None)
                  400 (Some origin0)), one_pending))
  /\ ((exists resp w',
         handleSyncApprovedMembers text_addresses_request env0 origin0
           one_pending = (Returned resp, w')
         /\ status resp = 400)
      <-> sync_rejects text_addresses_request)
  /\ (body_unreadable text_addresses_request ->
      exists message,
        handleSyncApprovedMembers text_addresses_request env0 origin0
          one_pending =
          (Returned (jsonResponse (SyncFailedData message) 500 (Some origin0)),
           one_pending))
  /\ (sync_rejects text_addresses_request
      \/ body_unreadable text_addresses_request ->
      forall resp w',
        handleSyncApprovedMembers text_addresses_request env0 origin0
          one_pending = (Returned resp, w') ->
        status resp <> 200 /\ forall r, data resp <> SyncData r)
  /\ (sync_rejects text_addresses_request
      \/ body_unreadable text_addresses_request
      \/ sync_accepts text_addresses_request).
Proof.
  apply (sync_rejects_invalid_addresses env0 origin0 text_addresses_request
           one_pending).
  reflexivity.
Defined.

(** ** The origin guard *)

(** C4: a request without an origin, or with one outside the allow-list, is
    answered 403 whatever its method and path, preflight included, and the
    backend is not touched. *)
Theorem unlisted_origin_is_refused {B : Backend} (env : Env)
    (request : Request) (w : World B) :
  (origin_header request = None
   \/ exists o, origin_header request = Some o /\ o ∉ allowedOrigins env) ->
  exists resp,
    fetch request env w = (Returned resp, w) /\ status resp = 403.
Proof.
  intros Horigin.
  assert (Hrej : origin_rejected env (origin_header request) = true).
  { unfold origin_rejected.
    destruct Horigin as [-> | (o & -> & Hout)]; [done|].
    apply orb_true_iff. right. simpl.
    by rewrite bool_decide_eq_false_2. }
  unfold fetch, handleCORS. rewrite Hrej.
  destruct (bool_decide (method request = lit "OPTIONS"));
    eexists; split; reflexivity.
Qed.

Lemma unlisted_origin_is_refused_witness :
  exists resp,
    fetch {| method := lit "OPTIONS"; pathname := lit "/initiate";
             origin_header := Some (lit "https://evil.example");
             body := NotJson [] |} env0 one_pending
      = (Returned resp, one_pending)
    /\ status resp = 403.
Proof.
  apply (unlisted_origin_is_refused env0 _ one_pending).
  right. eexists. split; [reflexivity|].
  vm_compute. intros H.
  repeat (apply elem_of_cons in H as [H|H]; [discriminate H|]).
  by apply elem_of_nil in H.
Defined.

(** ** Validation of an upload request *)

(** C6, as stated, fails: [rejected] is refused although all three fields
    are there; and a [null] body, in which all three fields are missing, is
    not answered 400: the handler throws. *)
Lemma initiate_rejected_folder_counterexample :
  truthy (Some (JStr (lit "ADDR1.jpg"))) = true
  /\ truthy (Some (JStr (lit "image/jpeg"))) = true
  /\ handleInitiateUpload (initiate_request "rejected") env0 origin0
       one_pending =
       (Returned (jsonResponse (ErrorData (lit "Invalid directoryPath") None)
                    400 (Some origin0)), one_pending)
  /\ handleInitiateUpload (post_with "/initiate" (Json JNull)) env0 origin0
       one_pending =
       (Thrown (lit "Cannot read properties of null"), one_pending).
Proof. repeat split; vm_compute; reflexivity. Qed.

(** Once the body is read and its three fields are taken, the initiate
    handler answers 400 exactly when one of them is missing (absent or
    falsy), or [directoryPath] is neither the string "pending" nor
    "approved"; it then has asked nothing of the backend. *)
Lemma handleInitiate_parsed {B : Backend} (env : Env) (origin : jsstring)
    (request : Request) (v : json)
    (fileName contentType directoryPath : option json) (w : World B) :
  body request = Json v ->
  get_prop v (lit "fileName") = inr fileName ->
  get_prop v (lit "contentType") = inr contentType ->
  get_prop v (lit "directoryPath") = inr directoryPath ->
  ((exists resp w',
      handleInitiateUpload request env origin w = (Returned resp, w')
      /\ status resp = 400)
   <-> initiate_invalid fileName contentType directoryPath)
  /\ (initiate_invalid fileName contentType directoryPath ->
      exists error,
        handleInitiateUpload request env origin w =
          (Returned (jsonResponse (ErrorData error None) 400 (Some origin)), w)).
Proof.
  intros Hbody Hname Htype Hdir.
  assert (Hrun : handleInitiateUpload request env origin w =
    (if negb (truthy fileName) || negb (truthy contentType)
        || negb (truthy directoryPath) then
       ret (jsonResponse (ErrorData (lit "Missing required fields") None) 400
              (Some origin))
     else if negb (is_string directoryPath (lit "pending"))
             && negb (is_string directoryPath (lit "approved")) then
       ret (jsonResponse (ErrorData (lit "Invalid directoryPath") None) 400
              (Some origin))
     else
       let* initiateResponse :=
         apillonInitiateUpload env (default JNull fileName)
           (default JNull contentType)
           (match directoryPath with Some (JStr s) => s | _ => [] end) in
       if negb (str_truthy (upload_session initiateResponse))
          || negb (str_truthy (upload_first_url initiateResponse)) then
         ret (jsonResponse
                (ErrorData (lit "Failed to initiate upload session") None) 500
                (Some origin))
       else
         ret (jsonResponse
                (InitiatedData (default [] (upload_session initiateResponse))
                   (default [] (upload_first_url initiateResponse))
                   (f ← upload_first_file initiateResponse; fileUuid f))
                200 (Some origin))) w).
  { unfold handleInitiateUpload, bind at 1, request_json. rewrite Hbody.
    unfold ret at 1. unfold bind at 1, prop. rewrite Hname. unfold ret at 1.
    unfold bind at 1. rewrite Htype. unfold ret at 1.
    unfold bind at 1. by rewrite Hdir. }
  assert (Hstr : forall s, is_string directoryPath s = true
                           <-> directoryPath = Some (JStr s)).
  { intros s. destruct directoryPath as [[| | |s'| |]|]; simpl;
      try (split; intros H; discriminate H).
    rewrite bool_decide_eq_true. split; [by intros ->|by intros [= ->]]. }
  assert (Hinv : initiate_invalid fileName contentType directoryPath ->
    exists error,
      handleInitiateUpload request env origin w =
        (Returned (jsonResponse (ErrorData error None) 400 (Some origin)), w)).
  { intros Hbad. rewrite Hrun. unfold initiate_invalid, missing in Hbad.
    destruct (truthy fileName); [|by eexists].
    destruct (truthy contentType); [|by eexists].
    destruct (truthy directoryPath); [|by eexists]. simpl.
    destruct Hbad as [H | [H | [H | [Hp Ha]]]]; try discriminate H.
    destruct (is_string directoryPath (lit "pending")) eqn:Ep.
    { by apply Hstr in Ep. }
    destruct (is_string directoryPath (lit "approved")) eqn:Ea.
    { by apply Hstr in Ea. }
    by eexists. }
  split; [|exact Hinv]. split.
  - intros (resp & w' & Hresp & Hstatus). rewrite Hrun in Hresp.
    unfold initiate_invalid, missing.
    destruct (truthy fileName); [|by left].
    destruct (truthy contentType); [|by right; left].
    destruct (truthy directoryPath); [|by right; right; left].
    right; right; right. simpl in Hresp.
    destruct (is_string directoryPath (lit "pending")) eqn:Ep;
      [|destruct (is_string directoryPath (lit "approved")) eqn:Ea]; simpl in Hresp.
    3: { split; intros H; apply Hstr in H; congruence. }
    all: exfalso; revert Hresp;
      unfold bind, apillonInitiateUpload, bind, perform, decode, throw, ret;
      step_fetch; try discriminate;
      match goal with
      | |- context [str_truthy (upload_session ?a)] =>
          destruct (str_truthy (upload_session a));
          destruct (str_truthy (upload_first_url a))
      end; simpl; intros [= <- _]; discriminate Hstatus.
  - intros Hbad. destruct (Hinv Hbad) as (error & ->).
    by do 2 eexists.
Qed.

Lemma initiate_invalid_cases (f c d : option json) :
  initiate_invalid f c d \/ ~ initiate_invalid f c d.
Proof.
  unfold initiate_invalid, missing.
  destruct (truthy f); [|by left; left].
  destruct (truthy c); [|by left; right; left].
  destruct (truthy d); [|by left; right; right; left].
  destruct (is_string d (lit "pending")) eqn:Hp.
  { destruct d as [[| | |s| |]|]; try discriminate Hp.
    apply bool_decide_eq_true in Hp as ->.
    right. by intros [H | [H | [H | [H _]]]]. }
  destruct (is_string d (lit "approved")) eqn:Ha.
  { destruct d as [[| | |s| |]|]; try discriminate Ha.
    apply bool_decide_eq_true in Ha as ->.
    right. by intros [H | [H | [H | [_ H]]]]. }
  left. right; right; right.
  split; intros ->; [vm_compute in Hp | vm_compute in Ha]; discriminate.
Qed.

(** C6 (amended): for every request, the initiate handler answers 400
    exactly when the body is read as a value other than [null] in which
    [fileName], [contentType] or [directoryPath] is missing (absent or
    falsy), or [directoryPath] is neither the string "pending" nor
    "approved"; it then has asked nothing of the backend.  With the three
    fields present and the folder "pending" or "approved" no 400 is
    answered.  A body that is not JSON, or is [null], is answered by no
    response at all: the handler throws, and has asked nothing of the
    backend.  Every request is of one of the three kinds. *)
Theorem initiate_validation {B : Backend} (env : Env) (origin : jsstring)
    (request : Request) (w : World B) :
  ((exists resp w',
      handleInitiateUpload request env origin w = (Returned resp, w')
      /\ status resp = 400)
   <-> initiate_rejects request)
  /\ (initiate_rejects request ->
      exists error,
        handleInitiateUpload request env origin w =
          (Returned (jsonResponse (ErrorData error None) 400 (Some origin)), w))
  /\ (initiate_accepts request ->
      forall resp w',
        handleInitiateUpload request env origin w = (Returned resp, w') ->
        status resp <> 400)
  /\ (body_unreadable request ->
      exists message,
        handleInitiateUpload request env origin w = (Thrown message, w))
  /\ (initiate_rejects request \/ initiate_accepts request
      \/ body_unreadable request).
Proof.
  assert (Hthrows : body_unreadable request ->
    exists message,
      handleInitiateUpload request env origin w = (Thrown message, w)).
  { intros [(message & Hbody) | Hbody];
      unfold handleInitiateUpload, bind at 1, request_json; rewrite Hbody;
      by eexists. }
  assert (Hiff : (exists resp w',
      handleInitiateUpload request env origin w = (Returned resp, w')
      /\ status resp = 400) <-> initiate_rejects request).
  { destruct (body request) as [message | v] eqn:Hbody.
    { split.
      - intros (resp & w' & Hrun & _).
        destruct Hthrows as (m & Hm); [left; by eexists|]. congruence.
      - intros (v & _ & _ & _ & H & _). congruence. }
    destruct (get_prop_cases v) as [-> | Hfields].
    { split.
      - intros (resp & w' & Hrun & _).
        destruct Hthrows as (m & Hm); [by right|]. congruence.
      - intros (v & f & _ & _ & Hv & H & _).
        rewrite Hbody in Hv. injection Hv as <-. discriminate H. }
    destruct (Hfields (lit "fileName")) as (f & Hf).
    destruct (Hfields (lit "contentType")) as (c & Hc).
    destruct (Hfields (lit "directoryPath")) as (d & Hd).
    destruct (handleInitiate_parsed env origin request v f c d w
                Hbody Hf Hc Hd) as [Hparsed _].
    rewrite Hparsed. split.
    - intros Hbad. by exists v, f, c, d.
    - intros (v' & f' & c' & d' & Hv' & Hf' & Hc' & Hd' & Hbad).
      rewrite Hbody in Hv'. injection Hv' as <-. congruence. }
  split; [exact Hiff|]. split; [|split; [|split; [exact Hthrows|]]].
  - intros (v & f & c & d & Hbody & Hf & Hc & Hd & Hbad).
    by apply (handleInitiate_parsed env origin request v f c d w).
  - intros (v & f & c & d & Hbody & Hf & Hc & Hd & Hgood) resp w' Hrun Hst.
    destruct (proj1 Hiff) as (v' & f' & c' & d' & Hbody' & Hf' & Hc' & Hd' & Hbad).
    { by exists resp, w'. }
    apply Hgood. congruence.
  - destruct (body request) as [message | v] eqn:Hbody.
    { right; right. left. by eexists. }
    destruct (get_prop_cases v) as [-> | Hfields].
    { right; right. by right. }
    destruct (Hfields (lit "fileName")) as (f & Hf).
    destruct (Hfields (lit "contentType")) as (c & Hc).
    destruct (Hfields (lit "directoryPath")) as (d & Hd).
    destruct (initiate_invalid_cases f c d) as [Hbad | Hgood].
    + left. by exists v, f, c, d.
    + right; left. by exists v, f, c, d.
Qed.

Lemma initiate_validation_witness :
  ((exists resp w',
      handleInitiateUpload (initiate_request "rejected") env0 origin0
        one_pending = (Returned resp, w')
      /\ status resp = 400)
   <-> initiate_rejects (initiate_request "rejected"))
  /\ (initiate_rejects (initiate_request "rejected") ->
      exists error,
        handleInitiateUpload (initiate_request "rejected") env0 origin0
          one_pending =
          (Returned (jsonResponse (ErrorData error None) 400 (Some origin0)),
           one_pending))
  /\ (initiate_accepts (initiate_request "rejected") ->
      forall resp w',
        handleInitiateUpload (initiate_request "rejected") env0 origin0
          one_pending = (Returned resp, w') ->
        status resp <> 400)
  /\ (body_unreadable (initiate_request "rejected") ->
      exists message,
        handleInitiateUpload (initiate_request "rejected") env0 origin0
          one_pending = (Thrown message, one_pending))
  /\ (initiate_rejects (initiate_request "rejected")
      \/ initiate_accepts (initiate_request "rejected")
      \/ body_unreadable (initiate_request "rejected")).
Proof.
  apply (initiate_validation env0 origin0 (initiate_request "rejected")
           one_pending).
Defined.

Example initiate_pending_is_accepted :
  (handleInitiateUpload (initiate_request "pending") env0 origin0
     one_pending).1 =
  Returned (jsonResponse
              (InitiatedData (lit "s-" ++ [48%N]) (lit "https://upload/" ++ [48%N])
                 (Some (lit "f-" ++ [48%N])))
              200 (Some origin0)).
Proof. vm_compute. reflexivity. Qed.

(** ** The move engine on the in-memory bucket *)

(** Fault injection after the copy: the move throws and the source object is
    still in the pending folder. *)
Example failed_completion_keeps_source :
  let w := Build_World failing_completion
             {| MemoryBucket.objects := one_object;
                MemoryBucket.sessions := []; MemoryBucket.fresh := 0 |} [] in
  let run := moveFile env0 (lit "pending/ADDR1.jpg") (lit "approved/ADDR1.jpg")
               (lit "f-a") (Some (lit "https://ipfs/f-a")) w in
  run.1 = Thrown (lit "Apillon complete upload failed: Bad Gateway")
  /\ MemoryBucket.objects (store run.2) = one_object
  /\ length (trace run.2) = 4%nat.
Proof. vm_compute. done. Qed.

(** A healthy move ends with the delete of the source. *)
Example healthy_move_deletes_source :
  let run := moveFile env0 (lit "pending/ADDR1.jpg") (lit "approved/ADDR1.jpg")
               (lit "f-a") (Some (lit "https://ipfs/f-a")) one_pending in
  run.1 = Returned tt
  /\ (af_path ∘ MemoryBucket.st_file <$> MemoryBucket.objects (store run.2))
     = [Some (lit "approved/")]
  /\ length (trace run.2) = 5%nat.
Proof. vm_compute. done. Qed.

(** C2: the completion of the upload session is answered 200 with
    [{data: {success: false}}], which [handleCompleteUpload] reports as a
    failed completion (500); [moveFile] drops the body of the answer, goes
    on to the delete and returns: the source object is gone and the bucket
    holds no copy of it. *)
Theorem moveFile_deletes_after_unsuccessful_completion :
  let run := moveFile env0 (lit "pending/ADDR1.jpg") (lit "approved/ADDR1.jpg")
               (lit "f-a") (Some (lit "https://ipfs/f-a")) unconfirmed in
  run.1 = Returned tt
  /\ (exists e1 e2 e3 r4 r5,
        trace run.2 =
          [e1; e2; e3; EvComplete (JStr (lit "s-0")) (Responded r4);
           EvDelete (lit "f-a") (Responded r5)]
        /\ download_succeeded e1 /\ initiate_succeeded e2 /\ put_succeeded e3
        /\ ok r4 = true
        /\ payload r4 = Some {| complete_data := Some false |}
        /\ ok r5 = true)
  /\ MemoryBucket.objects (store unconfirmed) = one_object
  /\ MemoryBucket.objects (store run.2) = []
  /\ handleCompleteUpload (complete_request "s-0") env0 origin0 unconfirmed =
       (Returned (jsonResponse
                    (ErrorData (lit "Failed to complete upload session") None)
                    500 (Some origin0)),
        Build_World unsuccessful_completion (store unconfirmed)
          [EvComplete (JStr (lit "s-0"))
             (MemoryBucket.respond true "OK"
                (Some {| complete_data := Some false |}))]).
Proof.
  split; [vm_compute; reflexivity|]. split.
  { do 5 eexists. split; [vm_compute; reflexivity|].
    simpl. split; [by split; [|eexists]|]. split; [|by repeat split].
    split; [reflexivity|]. eexists. by repeat split. }
  split; [reflexivity|]. split; vm_compute; reflexivity.
Qed.

(** ** The folder index, exactly *)

(** C8: when the bucket listing answers, the folder index returns one entry
    for each listed object whose path is exactly the folder name followed by
    a slash, in the order of the listing, and no other entry; the entry
    carries the object's name, its identifier, its link, and its CIDv1 or
    else its CID.  An object without a path, or with a path that is no
    folder prefix, is not among the objects returned. *)
Theorem listFilesInFolder_exact {B : Backend} (env : Env) (folder : jsstring)
    (items : list ApillonFile) (w : World B) :
  listing_succeeds w items ->
  exists listed kept w',
    listFilesInFolder env folder w = (Returned listed, w')
    /\ kept = filter (fun f => af_path f = Some (folder ++ lit "/")) items
    /\ listed =
         (fun f => {| ff_name := af_name f;
                      ff_uuid := af_fileUuid f;
                      ff_link := af_link f;
                      ff_cid := if str_truthy (af_CIDv1 f) then af_CIDv1 f
                                else af_CID f |}) <$> kept
    /\ ff_name <$> listed = af_name <$> kept
    /\ ff_uuid <$> listed = af_fileUuid <$> kept
    /\ ff_link <$> listed = af_link <$> kept
    /\ (forall f, f ∈ kept <->
                  f ∈ items /\ af_path f = Some (folder ++ lit "/"))
    /\ (forall f, af_path f = None -> f ∉ kept)
    /\ (forall f, (forall known, af_path f <> Some (known ++ lit "/")) ->
                  f ∉ kept).
Proof.
  intros (s & r & Hlist & Hok & Hitems).
  assert (Hiff : forall f, in_folder folder f
                           <-> af_path f = Some (folder ++ lit "/")).
  { assert (Hne : [] <> folder ++ lit "/").
    { intros H. symmetry in H. apply app_eq_nil in H as [_ H].
      vm_compute in H. discriminate H. }
    intros f. unfold in_folder.
    destruct (af_path f) as [[|c p]|]; simpl.
    - split; [done | by intros [= H]].
    - split; [by intros ->|by intros [= ->]].
    - split; [done | intros H; discriminate H]. }
  eexists _, _, _. split.
  { rewrite (listFilesInFolder_ok _ _ _ _ _ _ Hlist Hok Hitems).
    by rewrite (list_filter_iff _ _ items Hiff). }
  split; [done|]. split; [done|].
  split; [by rewrite <- list_fmap_compose|].
  split; [by rewrite <- list_fmap_compose|].
  split; [by rewrite <- list_fmap_compose|].
  split; [|split].
  - intros f. rewrite list_elem_of_filter. tauto.
  - intros f Hnone [Hpath _]%list_elem_of_filter. congruence.
  - intros f Hno [Hpath _]%list_elem_of_filter. by apply (Hno folder).
Qed.

Lemma listFilesInFolder_exact_witness :
  exists listed kept w',
    listFilesInFolder env0 (lit "pending") three_folders = (Returned listed, w')
    /\ kept =
         filter (fun f => af_path f = Some (lit "pending" ++ lit "/"))
           (MemoryBucket.st_file <$> MemoryBucket.objects (store three_folders))
    /\ listed =
         (fun f => {| ff_name := af_name f;
                      ff_uuid := af_fileUuid f;
                      ff_link := af_link f;
                      ff_cid := if str_truthy (af_CIDv1 f) then af_CIDv1 f
                                else af_CID f |}) <$> kept
    /\ ff_name <$> listed = af_name <$> kept
    /\ ff_uuid <$> listed = af_fileUuid <$> kept
    /\ ff_link <$> listed = af_link <$> kept
    /\ (forall f, f ∈ kept <->
           f ∈ MemoryBucket.st_file <$> MemoryBucket.objects (store three_folders)
           /\ af_path f = Some (lit "pending" ++ lit "/"))
    /\ (forall f, af_path f = None -> f ∉ kept)
    /\ (forall f, (forall known, af_path f <> Some (known ++ lit "/")) ->
                  f ∉ kept).
Proof.
  apply (listFilesInFolder_exact env0 (lit "pending")
           (MemoryBucket.st_file <$> MemoryBucket.objects (store three_folders))
           three_folders).
  apply memory_listing.
Defined.

Example pending_folder_listing :
  (ff_name <$>
     match (listFilesInFolder env0 (lit "pending") three_folders).1 with
     | Returned listed => listed
     | Thrown _ => []
     end) = [lit "ADDR1.jpg"].
Proof. vm_compute. reflexivity. Qed.

(** ** Identifiers and extensions *)

Example names_without_extension :
  name_match (lit "ADDR1") = None /\ name_match (lit "ADDR1.") = None
  /\ name_match (lit "ADDR1.jpg") = Some (lit "ADDR1", lit "jpg").
Proof. vm_compute. done. Qed.

(** ** The scenarios of the design document *)

(** Only ADDR1.jpg is pending: ADDR1 is moved, ADDR2 is skipped. *)
Example scenario_moved_and_skipped :
  (handleSyncApprovedMembers (sync_request [addr "ADDR1"; addr "ADDR2"]) env0
     origin0 one_pending).1 =
  Returned
    (jsonResponse
       (SyncData
          {| moved := [{| mv_address := addr "ADDR1";
                          mv_from := lit "pending/ADDR1.jpg";
                          mv_to := lit "approved/ADDR1.jpg" |}];
             skipped := [skip_entry (addr "ADDR2")];
             errors := [] |})
       200 (Some origin0)).
Proof. vm_compute. reflexivity. Qed.

(** The same identifier synced twice in a row: moved, then skipped. *)
Example scenario_second_sync_skips :
  (handleSyncApprovedMembers (sync_request [addr "ADDR1"]) env0 origin0
     promoted).1 =
  Returned
    (jsonResponse
       (SyncData {| moved := []; skipped := [skip_entry (addr "ADDR1")];
                    errors := [] |})
       200 (Some origin0)).
Proof. vm_compute. reflexivity. Qed.

(** An upload request from an origin outside the allow-list. *)
Example scenario_unauthorized_origin :
  fetch {| method := lit "POST"; pathname := lit "/initiate";
           origin_header := Some (lit "https://evil.example");
           body := body (initiate_request "pending") |} env0 one_pending =
  (Returned (jsonResponse (ErrorData (lit "Unauthorized origin") None) 403 None),
   one_pending).
Proof. vm_compute. reflexivity. Qed.

(** Sixty identifiers: fifty entries. *)
Example scenario_sixty_identifiers :
  match (handleSyncApprovedMembers (sync_request (numbered <$> seq 0 60)) env0
           origin0 one_pending).1 with
  | Returned {| data := SyncData r |} =>
      recorded r = numbered <$> seq 0 50
  | _ => False
  end.
Proof. vm_compute. reflexivity. Qed.

(** * Further properties of the worker *)

(** ** Splitting and joining *)

Lemma split_nonempty (sep : code_unit) (s : jsstring) : split sep s <> [].
Proof.
  destruct s as [|c s]; simpl; [done|].
  destruct (c =? sep)%N; [done|]. by destruct (split sep s).
Qed.

Lemma split_no_sep (sep : code_unit) (s : jsstring) :
  sep ∉ s -> split sep s = [s].
Proof.
  induction s as [|c s IH]; simpl; [done|].
  intros [Hc Hs]%not_elem_of_cons.
  destruct (N.eqb_spec c sep) as [->|_]; [done|]. by rewrite (IH Hs).
Qed.

Lemma split_app_sep (sep : code_unit) (a b : jsstring) :
  sep ∉ a -> split sep (a ++ sep :: b) = a :: split sep b.
Proof.
  induction a as [|c a IH]; simpl.
  - intros _. by rewrite N.eqb_refl.
  - intros [Hc Ha]%not_elem_of_cons.
    destruct (N.eqb_spec c sep) as [->|_]; [done|]. by rewrite (IH Ha).
Qed.

(** [split] undoes [join] on entries free of the separator, and [join]
    always undoes [split]. *)
Theorem split_join_round_trip (sep : code_unit) :
  (forall entries,
     entries <> [] -> Forall (fun e => sep ∉ e) entries ->
     split sep (join sep entries) = entries)
  /\ (forall s, join sep (split sep s) = s)
  /\ (forall s, Forall (fun e => sep ∉ e) (split sep s)).
Proof.
  split; [|split].
  - intros entries Hne Hall. induction Hall as [|e rest He Hrest IH]; [done|].
    destruct rest as [|e' rest'].
    + simpl. by apply split_no_sep.
    + change (join sep (e :: e' :: rest'))
        with (e ++ sep :: join sep (e' :: rest')).
      rewrite split_app_sep by done. by rewrite IH.
  - induction s as [|c s IH]; simpl; [done|].
    destruct (N.eqb_spec c sep) as [->|Hc].
    + pose proof (split_nonempty sep s) as Hne.
      destruct (split sep s) as [|p ps] eqn:Hsplit; [done|].
      change (join sep ([] :: p :: ps)) with (sep :: join sep (p :: ps)).
      by rewrite IH.
    + pose proof (split_nonempty sep s) as Hne.
      destruct (split sep s) as [|p ps] eqn:Hsplit; [done|].
      rewrite <- IH. by destruct ps.
  - induction s as [|c s IH]; simpl.
    + constructor; [apply not_elem_of_nil | constructor].
    + destruct (N.eqb_spec c sep) as [->|Hc].
      * constructor; [apply not_elem_of_nil | done].
      * pose proof (split_nonempty sep s) as Hne.
        destruct (split sep s) as [|p ps]; [done|].
        inversion IH; subst. constructor; [|done].
        apply not_elem_of_cons. split; [congruence | done].
Qed.

Lemma split_join_round_trip_witness :
  split COMMA (join COMMA [lit "https://a.example"; lit " http://b.example"])
  = [lit "https://a.example"; lit " http://b.example"].
Proof.
  apply (proj1 (split_join_round_trip COMMA)).
  - discriminate.
  - repeat constructor; vm_compute; intros H;
      repeat (apply elem_of_cons in H as [H|H]; [discriminate H|]);
      by apply elem_of_nil in H.
Defined.

(** ** Trimming *)

Lemma trim_start_blank (l s : jsstring) :
  forallb is_trimmed l = true -> trim_start (l ++ s) = trim_start s.
Proof.
  induction l as [|c l IH]; simpl; [done|].
  intros [Hc Hl]%andb_true_iff. rewrite Hc. by apply IH.
Qed.

Lemma trim_start_kept (c : code_unit) (s : jsstring) :
  is_trimmed c = false -> trim_start (c :: s) = c :: s.
Proof. intros H. simpl. by rewrite H. Qed.

Lemma forallb_reverse (f : N -> bool) (l : list N) :
  forallb f (reverse l) = forallb f l.
Proof.
  induction l as [|c l IH]; [done|].
  rewrite reverse_cons, forallb_app. simpl. rewrite IH.
  rewrite andb_true_r. apply andb_comm.
Qed.

(** [trim] removes exactly the white space around a core that neither
    starts nor ends with white space; a blank string trims to the empty
    string. *)
Theorem trim_spec (l r : jsstring) :
  forallb is_trimmed l = true -> forallb is_trimmed r = true ->
  trim (l ++ r) = []
  /\ forall a core z,
       is_trimmed a = false -> is_trimmed z = false ->
       trim (l ++ [a] ++ r) = [a]
       /\ trim (l ++ a :: core ++ z :: r) = a :: core ++ [z].
Proof.
  intros Hl Hr.
  assert (Hblank : forall b, forallb is_trimmed b = true -> trim_start b = []).
  { intros b Hb. pose proof (trim_start_blank b [] Hb) as H.
    by rewrite app_nil_r in H. }
  split.
  - unfold trim. rewrite (trim_start_blank l r Hl), (Hblank r Hr). done.
  - intros a core z Ha Hz.
    assert (Hrev : forall b, forallb is_trimmed (reverse b) = true
                             <-> forallb is_trimmed b = true)
      by (intros b; by rewrite forallb_reverse).
    split.
    + unfold trim. rewrite (trim_start_blank l _ Hl).
      change ([a] ++ r) with (a :: r). rewrite trim_start_kept by done.
      rewrite reverse_cons, trim_start_blank by (by apply Hrev).
      by rewrite trim_start_kept.
    + unfold trim. rewrite (trim_start_blank l _ Hl).
      rewrite trim_start_kept by done.
      change (a :: core ++ z :: r) with ((a :: core) ++ z :: r).
      rewrite reverse_app, reverse_cons, <- app_assoc.
      rewrite trim_start_blank by (by apply Hrev).
      change ([z] ++ reverse (a :: core)) with (z :: reverse (a :: core)).
      rewrite trim_start_kept by done.
      by rewrite reverse_cons, reverse_involutive.
Qed.

Lemma trim_spec_witness :
  trim (lit "  " ++ lit "	") = []
  /\ forall a core z,
       is_trimmed a = false -> is_trimmed z = false ->
       trim (lit "  " ++ [a] ++ lit "	") = [a]
       /\ trim (lit "  " ++ a :: core ++ z :: lit "	") = a :: core ++ [z].
Proof.
  apply (trim_spec (lit "  ") (lit "	")); vm_compute; reflexivity.
Defined.

(** ** The file-name pattern, completely *)

Lemma match_tail_dot_free (m : nat) (e : jsstring) :
  DOT ∉ e -> match_tail (drop m e) = None.
Proof.
  intros Hdot. destruct (match_tail (drop m e)) as [ext|] eqn:H; [|done].
  apply match_tail_spec in H as (Hdrop & _). exfalso. apply Hdot.
  rewrite <- (take_drop m e). apply elem_of_app. right.
  rewrite Hdrop. by left.
Qed.

Lemma match_from_complete (a e : jsstring) (n : nat) :
  a <> [] -> all_dot_class a = true -> e <> [] -> DOT ∉ e ->
  (length a <= n)%nat ->
  match_from (a ++ DOT :: e) n = Some (a, e).
Proof.
  intros Ha Hcls He Hdot. induction n as [|n IH]; intros Hlen.
  { destruct a; [done | simpl in Hlen; lia]. }
  assert (Hhere : length a = S n ->
            match_from (a ++ DOT :: e) (S n) = Some (a, e)).
  { intros Hn. simpl. rewrite <- Hn.
    rewrite take_app_length, drop_app_length, Hcls.
    assert (Htail : match_tail (DOT :: e) = Some e)
      by (by apply match_tail_spec).
    by rewrite Htail. }
  destruct (decide (length a = S n)) as [Hn|Hn]; [by apply Hhere|].
  assert (Hle : (length a <= n)%nat) by lia.
  change (match_from (a ++ DOT :: e) (S n)) with
    (if all_dot_class (take (S n) (a ++ DOT :: e)) then
       match match_tail (drop (S n) (a ++ DOT :: e)) with
       | Some ext => Some (take (S n) (a ++ DOT :: e), ext)
       | None => match_from (a ++ DOT :: e) n
       end
     else match_from (a ++ DOT :: e) n).
  destruct (all_dot_class (take (S n) (a ++ DOT :: e))); [|by apply IH].
  replace (drop (S n) (a ++ DOT :: e)) with (drop (n - length a) e).
  - rewrite match_tail_dot_free by done. by apply IH.
  - rewrite drop_app_ge by lia.
    replace (S n - length a)%nat with (S (n - length a)) by lia. done.
Qed.

(** X13: the pattern matches a name exactly when the name is a non-empty
    identifier without line terminators, a dot, and a non-empty extension
    without dots; the two captures are the identifier and the extension. *)
Theorem name_match_iff (name a e : jsstring) :
  name_match name = Some (a, e) <->
  name = a ++ DOT :: e /\ a <> [] /\ all_dot_class a = true
  /\ e <> [] /\ DOT ∉ e.
Proof.
  split.
  - apply match_from_spec.
  - intros (-> & Ha & Hcls & He & Hdot). unfold name_match.
    apply match_from_complete; try done. rewrite length_app. lia.
Qed.

Lemma name_match_complete (a e : jsstring) :
  a <> [] -> all_dot_class a = true -> e <> [] -> DOT ∉ e ->
  name_match (a ++ DOT :: e) = Some (a, e).
Proof.
  intros Ha Hcls He Hdot. unfold name_match.
  apply match_from_complete; try done. rewrite length_app. lia.
Qed.

(** ** The pending map, completely *)

Lemma pendingMap_set_other (m : gmap jsstring FileInfo) (f : FolderFile)
    (s : jsstring) :
  (forall e, name_match (ff_name f) <> Some (s, e)) ->
  pendingMap_set m f !! s = m !! s.
Proof.
  intros Hno. unfold pendingMap_set.
  destruct (name_match (ff_name f)) as [[a e]|] eqn:Hmatch; [|done].
  apply lookup_insert_ne. intros ->. by apply (Hno e).
Qed.

Lemma pendingMap_fold_other (fs : list FolderFile)
    (m : gmap jsstring FileInfo) (s : jsstring) :
  (forall f e, f ∈ fs -> name_match (ff_name f) <> Some (s, e)) ->
  foldl pendingMap_set m fs !! s = m !! s.
Proof.
  revert m. induction fs as [|f fs IH]; intros m Hno; simpl; [done|].
  rewrite IH.
  - apply pendingMap_set_other. intros e. apply Hno. by left.
  - intros f' e Hin. apply Hno. by right.
Qed.

(** Some file with the identifier gives an entry. *)
Lemma pendingMap_of_is_Some (pendingFiles : list FolderFile)
    (file : FolderFile) (s ext : jsstring) :
  file ∈ pendingFiles -> name_match (ff_name file) = Some (s, ext) ->
  is_Some (pendingMap_of pendingFiles !! s).
Proof.
  intros Hin Hmatch. unfold pendingMap_of.
  assert (Hgen : forall fs (m : gmap jsstring FileInfo),
            is_Some (m !! s) \/ file ∈ fs ->
            is_Some (foldl pendingMap_set m fs !! s)).
  { induction fs as [|f fs IH]; intros m [Hm|Hf]; simpl.
    - done.
    - by apply elem_of_nil in Hf.
    - apply IH. left. unfold pendingMap_set.
      destruct (name_match (ff_name f)) as [[a e]|]; [|done].
      destruct (decide (a = s)) as [->|Hne].
      + rewrite lookup_insert_eq. by eexists.
      + by rewrite lookup_insert_ne.
    - apply elem_of_cons in Hf as [<-|Hf].
      + apply IH. left. unfold pendingMap_set. rewrite Hmatch.
        rewrite lookup_insert_eq. by eexists.
      + apply IH. by right. }
  apply Hgen. by right.
Qed.

(** X14: when several pending files give the same identifier, the entry of
    the pending map is that of the file listed last, and so the turn of the
    loop for this identifier moves that file: it is recorded in [moved]
    with that file's name when the move returns, and in [errors] when the
    move throws. *)
Theorem pendingMap_last_file_wins {B : Backend} (env : Env)
    (before after : list FolderFile) (file : FolderFile) (s ext : jsstring) :
  name_match (ff_name file) = Some (s, ext) ->
  (forall f e, f ∈ after -> name_match (ff_name f) <> Some (s, e)) ->
  pendingMap_get (pendingMap_of (before ++ file :: after)) (JStr s) =
    Some {| fi_fileName := ff_name file;
            fi_fileUuid := ff_uuid file;
            fi_extension := ext;
            fi_link := ff_link file |}
  /\ forall results (w : World B),
       sync_one env (pendingMap_of (before ++ file :: after)) results
         (JStr s) w =
       match moveFile env (lit "pending/" ++ ff_name file)
               (lit "approved/" ++ ff_name file) (ff_uuid file)
               (ff_link file) w with
       | (Returned _, w') =>
           (Returned
              (push_moved results
                 {| mv_address := JStr s;
                    mv_from := lit "pending/" ++ ff_name file;
                    mv_to := lit "approved/" ++ ff_name file |}), w')
       | (Thrown message, w') =>
           (Returned
              (push_error results
                 {| er_address := JStr s; er_error := message |}), w')
       end.
Proof.
  intros Hmatch Hafter.
  assert (Hget :
    pendingMap_get (pendingMap_of (before ++ file :: after)) (JStr s) =
      Some {| fi_fileName := ff_name file;
              fi_fileUuid := ff_uuid file;
              fi_extension := ext;
              fi_link := ff_link file |}).
  { simpl. unfold pendingMap_of.
    rewrite foldl_app. simpl. rewrite pendingMap_fold_other by done.
    unfold pendingMap_set at 1. rewrite Hmatch. apply lookup_insert_eq. }
  split; [exact Hget|]. intros results w.
  pose proof (sync_one_cases env (pendingMap_of (before ++ file :: after))
                results (JStr s) w) as Hone.
  rewrite Hget in Hone. simpl in Hone.
  by destruct (moveFile _ _ _ _ _ w) as [[[]|message] w'].
Qed.

Lemma pendingMap_last_file_wins_witness :
  pendingMap_get
    (pendingMap_of
       ([{| ff_name := lit "ADDR1.jpg"; ff_uuid := lit "f-a";
            ff_link := None; ff_cid := None |}]
        ++ {| ff_name := lit "ADDR1.png"; ff_uuid := lit "f-b";
              ff_link := None; ff_cid := None |}
        :: [{| ff_name := lit "ADDR2.jpg"; ff_uuid := lit "f-c";
               ff_link := None; ff_cid := None |}]))
    (JStr (lit "ADDR1")) =
  Some {| fi_fileName := lit "ADDR1.png"; fi_fileUuid := lit "f-b";
          fi_extension := lit "png"; fi_link := None |}.
Proof.
  apply (fun Hmatch Hafter =>
           proj1 (pendingMap_last_file_wins (B := MemoryBucket.backend) env0
           [{| ff_name := lit "ADDR1.jpg"; ff_uuid := lit "f-a";
               ff_link := None; ff_cid := None |}]
           [{| ff_name := lit "ADDR2.jpg"; ff_uuid := lit "f-c";
               ff_link := None; ff_cid := None |}]
           {| ff_name := lit "ADDR1.png"; ff_uuid := lit "f-b";
              ff_link := None; ff_cid := None |}
           (lit "ADDR1") (lit "png") Hmatch Hafter)).
  - vm_compute. reflexivity.
  - intros f e Hin Hmatch. apply list_elem_of_singleton in Hin. subst f.
    vm_compute in Hmatch. discriminate Hmatch.
Defined.

(** ** Identifiers and extensions, as the pattern has them *)

Lemma split_last_dot_None (s : jsstring) :
  split_last_dot s = None -> DOT ∉ s.
Proof.
  induction s as [|c s IH]; simpl; [intros _; apply not_elem_of_nil|].
  destruct (split_last_dot s) as [[b a]|]; [done|].
  destruct (N.eqb_spec c DOT) as [->|Hc]; [done|]. intros _.
  apply not_elem_of_cons. split; [done | by apply IH].
Qed.

Lemma split_last_dot_spec (name a e : jsstring) :
  split_last_dot name = Some (a, e) -> name = a ++ DOT :: e /\ (DOT ∉ e).
Proof.
  revert a. induction name as [|c name IH]; intros a; simpl; [done|].
  destruct (split_last_dot name) as [[b after]|] eqn:Hsplit.
  - intros [= <- <-]. destruct (IH b eq_refl) as [-> Hdot]. done.
  - destruct (N.eqb_spec c DOT) as [->|Hc]; [|done].
    intros [= <- <-]. split; [done | by apply split_last_dot_None].
Qed.

Lemma name_match_eligible (name a e : jsstring) :
  name_match name = Some (a, e) <-> sync_eligible name a e.
Proof.
  unfold sync_eligible. split.
  - intros H. apply match_from_spec in H as (-> & Ha & Hcls & He & Hdot).
    split; [by apply split_last_dot_app | done].
  - intros (Hsplit & Ha & Hcls & He).
    apply split_last_dot_spec in Hsplit as [-> Hdot].
    by apply name_match_complete.
Qed.

(** C9, as stated, fails: a name whose last dot has nothing before it, or
    has a line terminator before it, has an extension, and yet yields no
    identifier; its object is not entered into the pending map, and a sync
    of the identifier before the last dot skips it. *)
Lemma identifier_counterexample :
  (split_last_dot (lit ".jpg") = Some ([], lit "jpg")
   /\ has_extension (lit ".jpg")
   /\ name_match (lit ".jpg") = None)
  /\ (split_last_dot two_line_name = Some (two_line_identifier, lit "jpg")
      /\ has_extension two_line_name
      /\ name_match two_line_name = None)
  /\ pending_files
       (MemoryBucket.st_file <$> MemoryBucket.objects (store two_line_pending))
     = [{| ff_name := two_line_name; ff_uuid := lit "f-n";
           ff_link := Some (lit "https://ipfs/f-n"); ff_cid := None |}]
  /\ pendingMap_get
       (pendingMap_of
          (pending_files
             (MemoryBucket.st_file <$>
                MemoryBucket.objects (store two_line_pending))))
       (JStr two_line_identifier) = None
  /\ (handleSyncApprovedMembers (sync_request [JStr two_line_identifier])
        env0 origin0 two_line_pending).1 =
     Returned
       (jsonResponse
          (SyncData {| moved := [];
                       skipped := [skip_entry (JStr two_line_identifier)];
                       errors := [] |})
          200 (Some origin0)).
Proof.
  split; [|split; [|split; [|split]]].
  - split; [reflexivity|]. split; [|reflexivity].
    exists [], (lit "jpg"). by split.
  - split; [vm_compute; reflexivity|]. split; [|vm_compute; reflexivity].
    exists two_line_identifier, (lit "jpg"). split; [|done].
    vm_compute. reflexivity.
  - vm_compute. reflexivity.
  - vm_compute. reflexivity.
  - vm_compute. reflexivity.
Qed.

(** C9 (amended): the pattern matches a name exactly when the name has a
    last dot with a non-empty identifier without line terminators before it
    and a non-empty extension after it; the identifier is then the portion
    before the last dot and the extension the suffix after it, and the
    object is entered into the pending map under that identifier.  Every
    other name, and so every name without an extension, is not matched and
    adds nothing to the pending map; every entry of the map and every entry
    of [moved] comes from a listed pending file whose name is matched. *)
Theorem identifier_is_name_before_last_dot {B : Backend} (env : Env)
    (origin : jsstring) :
  (forall name a e,
     name_match name = Some (a, e) <-> sync_eligible name a e)
  /\ (forall name a e,
        name_match name = Some (a, e) ->
        split_last_dot name = Some (a, e) /\ e <> [])
  /\ (forall pendingMap file a e,
        sync_eligible (ff_name file) a e ->
        pendingMap_set pendingMap file =
          <[a := {| fi_fileName := ff_name file;
                    fi_fileUuid := ff_uuid file;
                    fi_extension := e;
                    fi_link := ff_link file |}]> pendingMap)
  /\ (forall pendingFiles file a e,
        file ∈ pendingFiles ->
        sync_eligible (ff_name file) a e ->
        is_Some (pendingMap_of pendingFiles !! a))
  /\ (forall name,
        (forall a e, ~ sync_eligible name a e) -> name_match name = None)
  /\ (forall pendingMap file,
        (forall a e, ~ sync_eligible (ff_name file) a e) ->
        pendingMap_set pendingMap file = pendingMap)
  /\ (forall name, ~ has_extension name -> name_match name = None)
  /\ (forall pendingMap file,
        ~ has_extension (ff_name file) ->
        pendingMap_set pendingMap file = pendingMap)
  /\ (forall pendingFiles s info,
        pendingMap_of pendingFiles !! s = Some info ->
        exists file, file ∈ pendingFiles
          /\ fi_fileName info = ff_name file
          /\ sync_eligible (ff_name file) s (fi_extension info)
          /\ split_last_dot (ff_name file) = Some (s, fi_extension info)
          /\ has_extension (ff_name file))
  /\ (forall request addresses (w w' : World B) resp r,
        posts_addresses request addresses ->
        handleSyncApprovedMembers request env origin w = (Returned resp, w') ->
        data resp = SyncData r ->
        exists pendingFiles w1,
          listFilesInFolder env (lit "pending") w = (Returned pendingFiles, w1)
          /\ forall m, m ∈ moved r ->
               exists file a e, file ∈ pendingFiles
                 /\ sync_eligible (ff_name file) a e
                 /\ mv_address m = JStr a
                 /\ has_extension (ff_name file)
                 /\ mv_from m = lit "pending/" ++ ff_name file).
Proof.
  assert (Hnone : forall name,
    (forall a e, ~ sync_eligible name a e) -> name_match name = None).
  { intros name Hno. destruct (name_match name) as [[a e]|] eqn:H; [|done].
    apply name_match_eligible in H. by destruct (Hno a e). }
  assert (Hmap : forall pendingFiles s info,
    pendingMap_of pendingFiles !! s = Some info ->
    exists file, file ∈ pendingFiles
      /\ fi_fileName info = ff_name file
      /\ sync_eligible (ff_name file) s (fi_extension info)
      /\ split_last_dot (ff_name file) = Some (s, fi_extension info)
      /\ has_extension (ff_name file)).
  { intros pf s info Hget.
    apply pendingMap_of_lookup in Hget as (file & Hin & Hmatch & Hname & _).
    pose proof (proj1 (name_match_eligible _ _ _) Hmatch) as Hel.
    apply name_match_last_dot in Hmatch as (Hsplit & _ & Hext).
    exists file. repeat split; try done; try apply Hel.
    by exists s, (fi_extension info). }
  split; [exact name_match_eligible|].
  split; [intros name a e H; apply name_match_last_dot in H; tauto|].
  split; [|split; [|split; [exact Hnone|split; [|split; [|split; [|split]]]]]].
  - intros pendingMap file a e Hel. unfold pendingMap_set.
    by rewrite (proj2 (name_match_eligible _ _ _) Hel).
  - intros pendingFiles file a e Hin Hel.
    apply (pendingMap_of_is_Some pendingFiles file a e Hin).
    by apply name_match_eligible.
  - intros pendingMap file Hno. unfold pendingMap_set.
    by rewrite (Hnone _ Hno).
  - apply name_match_no_extension.
  - intros pendingMap file Hno. unfold pendingMap_set.
    by rewrite (name_match_no_extension _ Hno).
  - exact Hmap.
  - intros request addresses w w' resp r Hreq Hrun Hdata.
    destruct (handleSync_inv env origin _ _ _ _ _ _ Hreq Hrun Hdata)
      as (_ & pf & w1 & Hlist & Hloop).
    exists pf, w1. split; [done|].
    destruct (sync_loop_spec env (pendingMap_of pf) (take 50 addresses)
                no_results w1) as (r' & w'' & Hloop' & _ & _ & Hmoved).
    rewrite Hloop in Hloop'. injection Hloop' as <- <-.
    specialize (Hmoved (Forall_nil_2 _)).
    intros m Hm. rewrite Forall_forall in Hmoved.
    destruct (Hmoved m Hm) as (info & Hget & Hentry).
    destruct (mv_address m) as [| | |s| |] eqn:Haddr; try discriminate Hget.
    simpl in Hget.
    destruct (Hmap _ _ _ Hget) as (file & Hin & Hname & Hel & _ & Hext).
    exists file, s, (fi_extension info). repeat split; try done;
      try apply Hel.
    rewrite Hentry. simpl. by rewrite Hname.
Qed.

Lemma identifier_is_name_before_last_dot_witness :
  name_match (lit "5Grwva.v2.jpg") = Some (lit "5Grwva.v2", lit "jpg").
Proof.
  apply (proj1 (identifier_is_name_before_last_dot
                  (B := MemoryBucket.backend) env0 origin0)
           (lit "5Grwva.v2.jpg")).
  split; [vm_compute; reflexivity|]. split; [discriminate|].
  split; [vm_compute; reflexivity | discriminate].
Defined.

(** ** Which identifiers are skipped *)

Lemma skipped_addresses (pendingMap : gmap jsstring FileInfo)
    (l : list json) :
  sk_address <$>
    (skip_entry <$> filter (fun a => pendingMap_get pendingMap a = None) l)
  = filter (fun a => pendingMap_get pendingMap a = None) l.
Proof. rewrite <- list_fmap_compose. apply list_fmap_id. Qed.

Lemma pendingMap_get_pending (items : list ApillonFile) (s : jsstring) :
  pendingMap_get (pendingMap_of (pending_files items)) (JStr s) = None <->
  ~ exists file ext, file ∈ items /\ in_folder (lit "pending") file
                     /\ name_match (af_name file) = Some (s, ext).
Proof.
  split.
  - intros Hnone (file & ext & Hin & Hfolder & Hmatch).
    assert (Hsome : is_Some (pendingMap_of (pending_files items) !! s)).
    { apply (pendingMap_of_is_Some _ (folder_file file) s ext); [|done].
      apply list_elem_of_fmap_2. by apply list_elem_of_filter. }
    simpl in Hnone. rewrite Hnone in Hsome. by destruct Hsome.
  - intros Hno. apply pendingMap_get_None.
    intros file Hin Hfolder (s' & ext & [= <-] & Hmatch).
    apply Hno. by exists file, ext.
Qed.

(** X9: of the first 50 identifiers, a string is skipped exactly when the
    pending folder lists no file whose name the pattern splits to it; a value
    that is not a string is always skipped. *)
Theorem sync_skips_exactly_the_unmatched {B : Backend} (env : Env)
    (origin : jsstring) (request : Request) (addresses : list json)
    (items : list ApillonFile) (w : World B) :
  posts_addresses request addresses -> addresses <> [] ->
  listing_succeeds w items ->
  exists r w',
    handleSyncApprovedMembers request env origin w =
      (Returned (jsonResponse (SyncData r) 200 (Some origin)), w')
    /\ (forall s,
          JStr s ∈ take 50 addresses ->
          (in_skipped (JStr s) r <->
           ~ exists file ext,
               file ∈ items /\ in_folder (lit "pending") file
               /\ name_match (af_name file) = Some (s, ext)))
    /\ (forall a,
          a ∈ take 50 addresses -> (forall s, a <> JStr s) ->
          in_skipped a r).
Proof.
  intros Hreq Hne Hlist.
  destruct (handleSync_returns env origin _ _ _ _ Hreq Hne Hlist)
    as (r & w' & Hrun & _ & Hskip & _).
  exists r, w'. split; [done|].
  unfold in_skipped. rewrite Hskip, skipped_addresses. split.
  - intros s Hin. rewrite list_elem_of_filter, pendingMap_get_pending. tauto.
  - intros a Hin Hstr. apply list_elem_of_filter. split; [|done].
    destruct a; try done. by destruct (Hstr s).
Qed.

Lemma sync_skips_exactly_the_unmatched_witness :
  exists r w',
    handleSyncApprovedMembers
      (sync_request [addr "ADDR1"; JNum 7; addr "ADDR2"]) env0 origin0
      one_pending =
      (Returned (jsonResponse (SyncData r) 200 (Some origin0)), w')
    /\ (forall s,
          JStr s ∈ take 50 [addr "ADDR1"; JNum 7; addr "ADDR2"] ->
          (in_skipped (JStr s) r <->
           ~ exists file ext,
               file ∈ MemoryBucket.st_file <$> one_object
               /\ in_folder (lit "pending") file
               /\ name_match (af_name file) = Some (s, ext)))
    /\ (forall a,
          a ∈ take 50 [addr "ADDR1"; JNum 7; addr "ADDR2"] ->
          (forall s, a <> JStr s) -> in_skipped a r).
Proof.
  apply (sync_skips_exactly_the_unmatched env0 origin0
           (sync_request [addr "ADDR1"; JNum 7; addr "ADDR2"])
           [addr "ADDR1"; JNum 7; addr "ADDR2"]
           (MemoryBucket.st_file <$> one_object) one_pending).
  - apply sync_request_posts.
  - discriminate.
  - apply bucket_listing.
Defined.

(** ** A sync with nothing to move *)

Lemma sync_loop_all_skipped {B : Backend} (env : Env)
    (pendingMap : gmap jsstring FileInfo) (l : list json)
    (results : SyncResults) (w : World B) :
  Forall (fun a => pendingMap_get pendingMap a = None) l ->
  sync_loop env pendingMap l results w =
    (Returned {| moved := moved results;
                 skipped := skipped results ++ (skip_entry <$> l);
                 errors := errors results |}, w).
Proof.
  intros Hall. revert results.
  induction Hall as [|a l Ha Hl IH]; intros results.
  - simpl. rewrite app_nil_r. by destruct results.
  - simpl. unfold bind at 1.
    pose proof (sync_one_cases env pendingMap results a w) as Hone.
    rewrite Ha in Hone. rewrite Hone, IH. simpl.
    by rewrite <- app_assoc.
Qed.

(** X10: when none of the first 50 identifiers has a pending file, the sync
    asks the backend for the listing and nothing else, and answers 200 with
    every one of them skipped, in order. *)
Theorem sync_without_matches_only_lists {B : Backend} (env : Env)
    (origin : jsstring) (request : Request) (addresses : list json)
    (items : list ApillonFile) (w : World B) s r0 :
  posts_addresses request addresses -> addresses <> [] ->
  on_list B (store w) = (s, Responded r0) -> ok r0 = true ->
  payload r0 = Some items ->
  (forall a file, a ∈ take 50 addresses -> file ∈ items ->
                  in_folder (lit "pending") file ->
                  ~ names_identifier (af_name file) a) ->
  handleSyncApprovedMembers request env origin w =
    (Returned
       (jsonResponse
          (SyncData {| moved := [];
                       skipped := skip_entry <$> take 50 addresses;
                       errors := [] |})
          200 (Some origin)),
     {| store := s; trace := trace w ++ [EvList (Responded r0)] |}).
Proof.
  intros Hreq Hne Hlist Hok Hitems Hno.
  rewrite (handleSync_runs _ _ _ _ _ Hreq Hne).
  rewrite (listFilesInFolder_ok _ _ _ _ _ _ Hlist Hok Hitems).
  fold (pending_files items).
  rewrite sync_loop_all_skipped; [done|].
  apply Forall_forall. intros a Ha. apply pendingMap_get_None.
  intros file Hin Hfolder. by apply (Hno a file).
Qed.

Lemma sync_without_matches_only_lists_witness :
  handleSyncApprovedMembers (sync_request [addr "ADDR2"; addr "ADDR3"]) env0
    origin0 one_pending =
    (Returned
       (jsonResponse
          (SyncData {| moved := [];
                       skipped := skip_entry <$>
                                    take 50 [addr "ADDR2"; addr "ADDR3"];
                       errors := [] |})
          200 (Some origin0)),
     {| store := store one_pending;
        trace := trace one_pending
                 ++ [EvList (MemoryBucket.respond true "OK"
                               (Some (MemoryBucket.st_file <$> one_object)))] |}).
Proof.
  apply (sync_without_matches_only_lists env0 origin0
           (sync_request [addr "ADDR2"; addr "ADDR3"])
           [addr "ADDR2"; addr "ADDR3"]
           (MemoryBucket.st_file <$> one_object) one_pending).
  - apply sync_request_posts.
  - discriminate.
  - reflexivity.
  - reflexivity.
  - reflexivity.
  - intros a file Ha Hin _ (s & ext & Hs & Hmatch).
    apply list_elem_of_singleton in Hin. subst file.
    vm_compute in Hmatch. injection Hmatch as <- _.
    apply elem_of_cons in Ha as [Ha|Ha]; [subst a; discriminate Hs|].
    apply list_elem_of_singleton in Ha. subst a. discriminate Hs.
Defined.

(** ** The move engine, step by step *)

Ltac close_short :=
  eexists; split; [rewrite <- ?app_assoc; reflexivity|];
  left; split; [repeat constructor; simpl; done | by eexists].

(** Every run of [moveFile]: it either throws within the copy steps, and has
    made neither a listing nor a delete, or it has made the five calls, each
    fed by the one before, and ends as the delete ends. *)
Lemma moveFile_cases {B : Backend} (env : Env)
    (fromPath toPath file : jsstring) (link : option jsstring) (w : World B) :
  exists t,
    trace (moveFile env fromPath toPath file link w).2 = trace w ++ t /\
    ((Forall (fun e =>
                match e with
                | EvList _ | EvDelete _ _ => False
                | EvInitiate _ _ d _ => d = default [] (head (split SLASH toPath))
                | _ => True
                end) t
      /\ exists message,
           (moveFile env fromPath toPath file link w).1 = Thrown message)
     \/
     (exists source r1 blob r2 u target session r3 r4 r5,
        link = Some source
        /\ t = [EvDownload source (Responded r1);
                EvInitiate
                  (JStr (str_or (default [] (last (split SLASH toPath)))
                           (lit "unknown")))
                  (JStr (opt_str_or (content_type r1)
                           (lit "application/octet-stream")))
                  (default [] (head (split SLASH toPath))) (Responded r2);
                EvPut target
                  (opt_str_or (content_type r1) (lit "application/octet-stream"))
                  blob (Responded r3);
                EvComplete (JStr session) (Responded r4);
                EvDelete file r5]
        /\ payload r1 = Some blob /\ payload r2 = Some u
        /\ upload_first_url u = Some target /\ upload_session u = Some session
        /\ (moveFile env fromPath toPath file link w).1 =
             match r5 with
             | NetworkFailure message => Thrown message
             | Responded r =>
                 if ok r then Returned tt
                 else Thrown (lit "Failed to delete file: " ++ text r)
             end)).
Proof.
  unfold moveFile.
  destruct link as [[|c source]|]; simpl.
  1, 3: exists []; rewrite app_nil_r; split; [done|]; left;
        split; [constructor | by eexists].
  unfold bind, perform, apillonInitiateUpload, apillonCompleteUpload,
    deleteApillonFile, decode, bind, perform, throw, ret; simpl.
  step_fetch; try close_short.
  step_fetch; try close_short.
  destruct (upload_session _) as [[|c1 session]|] eqn:Hs; simpl;
    try close_short.
  destruct (upload_first_url _) as [[|c2 target]|] eqn:Hu; simpl;
    try close_short.
  step_fetch; try close_short.
  step_fetch; try close_short.
  all: step_fetch;
    (eexists; split; [rewrite <- ?app_assoc; reflexivity|]; right;
     do 10 eexists; split; [reflexivity|];
     split; [simpl; repeat f_equal|];
     simpl; rewrite ?Hs, ?Hu; by repeat split).
Qed.

Ltac not_in_literal :=
  vm_compute; let H := fresh in
  intros H; repeat (apply elem_of_cons in H as [H|H]; [discriminate H|]);
  by apply elem_of_nil in H.

Lemma split_path (folder name : jsstring) :
  SLASH ∉ folder -> SLASH ∉ name ->
  split SLASH (folder ++ SLASH :: name) = [folder; name].
Proof.
  intros Hfolder Hname. rewrite split_app_sep by done.
  by rewrite split_no_sep.
Qed.

(** X15: a move that returns has made exactly five calls: it downloaded the
    bytes from the link, opened a session for the same file name in the
    target folder with the content type of the download (or the default one),
    PUT the downloaded bytes to the session's URL, completed that session,
    and deleted the source, which the backend confirmed. *)
Theorem moveFile_copies_the_download {B : Backend} (env : Env)
    (fromPath toFolder name file : jsstring) (link : option jsstring)
    (w w' : World B) :
  SLASH ∉ toFolder -> SLASH ∉ name -> name <> [] ->
  moveFile env fromPath (toFolder ++ SLASH :: name) file link w =
    (Returned tt, w') ->
  exists source r1 blob r2 u target session r3 r4 r5,
    link = Some source
    /\ trace w' =
         trace w ++
         [EvDownload source (Responded r1);
          EvInitiate (JStr name)
            (JStr (opt_str_or (content_type r1)
                     (lit "application/octet-stream")))
            toFolder (Responded r2);
          EvPut target
            (opt_str_or (content_type r1) (lit "application/octet-stream"))
            blob (Responded r3);
          EvComplete (JStr session) (Responded r4);
          EvDelete file (Responded r5)]
    /\ payload r1 = Some blob /\ payload r2 = Some u
    /\ upload_first_url u = Some target /\ upload_session u = Some session
    /\ ok r5 = true.
Proof.
  intros Hfolder Hname Hne Hrun.
  destruct (moveFile_cases env fromPath (toFolder ++ SLASH :: name) file link w)
    as (t & Htrace & Hcases).
  rewrite Hrun in Htrace, Hcases. simpl in Htrace, Hcases.
  destruct Hcases as [(_ & message & Hthrown) | Hfive]; [discriminate Hthrown|].
  destruct Hfive as (source & r1 & blob & r2 & u & target & session & r3 & r4
                     & r5 & Hlink & Ht & Hblob & Hu & Htarget & Hsession & Hout).
  rewrite (split_path _ _ Hfolder Hname) in Ht. simpl in Ht.
  assert (Hname' : str_or name (lit "unknown") = name) by (by destruct name).
  rewrite Hname' in Ht.
  destruct r5 as [message|r5]; [discriminate Hout|].
  destruct (ok r5) eqn:Hok; [|discriminate Hout].
  exists source, r1, blob, r2, u, target, session, r3, r4, r5.
  rewrite Htrace, Ht. by repeat split.
Qed.

Lemma moveFile_copies_the_download_witness :
  exists source r1 blob r2 u target session r3 r4 r5,
    Some (lit "https://ipfs/f-a") = Some source
    /\ trace (moveFile env0 (lit "pending/ADDR1.jpg")
                (lit "approved" ++ SLASH :: lit "ADDR1.jpg") (lit "f-a")
                (Some (lit "https://ipfs/f-a")) one_pending).2 =
         trace one_pending ++
         [EvDownload source (Responded r1);
          EvInitiate (JStr (lit "ADDR1.jpg"))
            (JStr (opt_str_or (content_type r1)
                     (lit "application/octet-stream")))
            (lit "approved") (Responded r2);
          EvPut target
            (opt_str_or (content_type r1) (lit "application/octet-stream"))
            blob (Responded r3);
          EvComplete (JStr session) (Responded r4);
          EvDelete (lit "f-a") (Responded r5)]
    /\ payload r1 = Some blob /\ payload r2 = Some u
    /\ upload_first_url u = Some target /\ upload_session u = Some session
    /\ ok r5 = true.
Proof.
  apply (moveFile_copies_the_download env0 (lit "pending/ADDR1.jpg")
           (lit "approved") (lit "ADDR1.jpg") (lit "f-a")
           (Some (lit "https://ipfs/f-a")) one_pending).
  - not_in_literal.
  - not_in_literal.
  - discriminate.
  - vm_compute. reflexivity.
Defined.

(** X16: a move that reaches the delete ends as the delete ends: it returns
    when the backend confirms it (and only then), and throws "Failed to
    delete file: " with the backend's text when the backend refuses,
    although the four calls of the copy, the completion of the session
    last, have been made and answered by then. *)
Theorem moveFile_ends_as_delete_ends {B : Backend} (env : Env)
    (fromPath toPath file : jsstring) (link : option jsstring) (w : World B) :
  ((moveFile env fromPath toPath file link w).1 = Returned tt <->
   exists t r,
     trace (moveFile env fromPath toPath file link w).2 =
       trace w ++ t ++ [EvDelete file (Responded r)]
     /\ ok r = true)
  /\ (forall t r,
        trace (moveFile env fromPath toPath file link w).2 =
          trace w ++ t ++ [EvDelete file (Responded r)] ->
        ok r = false ->
        (moveFile env fromPath toPath file link w).1 =
          Thrown (lit "Failed to delete file: " ++ text r)
        /\ exists e1 e2 e3 session r4,
             t = [e1; e2; e3; EvComplete (JStr session) (Responded r4)]).
Proof.
  destruct (moveFile_cases env fromPath toPath file link w)
    as (t & Htrace & Hcases).
  assert (Hinv : forall t' r,
    trace (moveFile env fromPath toPath file link w).2 =
      trace w ++ t' ++ [EvDelete file (Responded r)] ->
    (moveFile env fromPath toPath file link w).1 =
      (if ok r then Returned tt
       else Thrown (lit "Failed to delete file: " ++ text r))
    /\ exists e1 e2 e3 session r4,
         t' = [e1; e2; e3; EvComplete (JStr session) (Responded r4)]).
  { intros t' r Ht'. rewrite Htrace in Ht'. apply app_inv_head in Ht'.
    destruct Hcases as [(Hall & _) | Hfive].
    - exfalso. rewrite Ht', Forall_app in Hall. destruct Hall as [_ Hlast].
      by inversion Hlast.
    - destruct Hfive as (source & r1 & blob & r2 & u & target & session & r3
                         & r4 & r5 & _ & Ht & _ & _ & _ & _ & Hout).
      rewrite Ht in Ht'.
      change [EvDownload source (Responded r1);
              EvInitiate
                (JStr (str_or (default [] (last (split SLASH toPath)))
                         (lit "unknown")))
                (JStr (opt_str_or (content_type r1)
                         (lit "application/octet-stream")))
                (default [] (head (split SLASH toPath))) (Responded r2);
              EvPut target
                (opt_str_or (content_type r1) (lit "application/octet-stream"))
                blob (Responded r3);
              EvComplete (JStr session) (Responded r4); EvDelete file r5]
        with ([EvDownload source (Responded r1);
               EvInitiate
                 (JStr (str_or (default [] (last (split SLASH toPath)))
                          (lit "unknown")))
                 (JStr (opt_str_or (content_type r1)
                          (lit "application/octet-stream")))
                 (default [] (head (split SLASH toPath))) (Responded r2);
               EvPut target
                 (opt_str_or (content_type r1) (lit "application/octet-stream"))
                 blob (Responded r3);
               EvComplete (JStr session) (Responded r4)] ++ [EvDelete file r5])
        in Ht'.
      apply app_inj_tail in Ht' as [Hfour Hlast]. injection Hlast as ->.
      split; [exact Hout|]. rewrite <- Hfour. by eexists _, _, _, _, _. }
  split; [split|].
  - intros Hret. destruct Hcases as [(_ & message & Hthrown) | Hfive];
      [congruence|].
    destruct Hfive as (source & r1 & blob & r2 & u & target & session & r3
                       & r4 & r5 & _ & Ht & _ & _ & _ & _ & Hout).
    rewrite Hret in Hout.
    destruct r5 as [message|r5]; [discriminate Hout|].
    destruct (ok r5) eqn:Hok; [|discriminate Hout].
    eexists [_; _; _; _], r5. split; [|done]. by rewrite Htrace, Ht.
  - intros (t' & r & Ht' & Hok). rewrite (proj1 (Hinv t' r Ht')).
    by rewrite Hok.
  - intros t' r Ht' Hok. destruct (Hinv t' r Ht') as [Hout Hfour].
    split; [|exact Hfour]. rewrite Hout. by rewrite Hok.
Qed.

Lemma moveFile_ends_as_delete_ends_witness :
  (moveFile env0 (lit "pending/ADDR1.jpg") (lit "approved/ADDR1.jpg")
     (lit "f-a") (Some (lit "https://ipfs/f-a")) one_pending).1 = Returned tt.
Proof.
  apply (proj1 (moveFile_ends_as_delete_ends env0 (lit "pending/ADDR1.jpg")
                  (lit "approved/ADDR1.jpg") (lit "f-a")
                  (Some (lit "https://ipfs/f-a")) one_pending)).
  eexists [_; _; _; _], _. split; [vm_compute; reflexivity | reflexivity].
Defined.

(** A refused delete: the sync reports the identifier in [errors], and the
    object is now in both folders. *)
Example refused_delete_leaves_a_duplicate :
  let w := Build_World failing_delete
             {| MemoryBucket.objects := one_object;
                MemoryBucket.sessions := []; MemoryBucket.fresh := 0 |} [] in
  let run := handleSyncApprovedMembers (sync_request [addr "ADDR1"]) env0
               origin0 w in
  run.1 =
    Returned
      (jsonResponse
         (SyncData {| moved := []; skipped := [];
                      errors := [{| er_address := addr "ADDR1";
                                    er_error :=
                                      lit "Failed to delete file: Forbidden" |}] |})
         200 (Some origin0))
  /\ (af_path ∘ MemoryBucket.st_file <$> MemoryBucket.objects (store run.2))
     = [Some (lit "pending/"); Some (lit "approved/")].
Proof. vm_compute. done. Qed.

(** ** What a sync may call *)

Lemma in_folder_path (folder : jsstring) (f : ApillonFile) :
  in_folder folder f <-> af_path f = Some (folder ++ lit "/").
Proof.
  assert (Hne : [] <> folder ++ lit "/").
  { intros H. symmetry in H. apply app_eq_nil in H as [_ H].
    vm_compute in H. discriminate H. }
  unfold in_folder. destruct (af_path f) as [[|c p]|]; simpl.
  - split; [done | by intros [= H]].
  - split; [by intros ->|by intros [= ->]].
  - split; [done | intros H; discriminate H].
Qed.

Lemma approved_target (name : jsstring) :
  default [] (head (split SLASH (lit "approved/" ++ name))) = lit "approved".
Proof.
  change (lit "approved/" ++ name) with (lit "approved" ++ SLASH :: name).
  rewrite split_app_sep; [done | not_in_literal].
Qed.

(** An entry of the pending map is the file of the pending folder it was
    made from. *)
Lemma pendingMap_get_listed (items : list ApillonFile) (a : json)
    (info : FileInfo) :
  pendingMap_get (pendingMap_of (pending_files items)) a = Some info ->
  exists file, file ∈ items /\ af_path file = Some (lit "pending/")
               /\ af_fileUuid file = fi_fileUuid info
               /\ af_name file = fi_fileName info
               /\ has_extension (af_name file).
Proof.
  intros Hget. destruct a as [| | |s| |]; try discriminate Hget.
  simpl in Hget.
  apply pendingMap_of_lookup in Hget as (ff & Hin & Hmatch & Hname & Huuid & _).
  apply list_elem_of_fmap in Hin as (f & -> & Hf).
  apply list_elem_of_filter in Hf as [Hfolder Hf].
  apply in_folder_path in Hfolder.
  apply name_match_last_dot in Hmatch as (Hsplit & _ & Hext).
  exists f. repeat split; try done. by exists s, (fi_extension info).
Qed.

Lemma sync_one_calls {B : Backend} (env : Env) (items : list ApillonFile)
    (results : SyncResults) (a : json) (w : World B) :
  exists t,
    trace (sync_one env (pendingMap_of (pending_files items)) results a w).2 =
      trace w ++ t
    /\ Forall (sync_call_allowed items) t.
Proof.
  pose proof (sync_one_cases env (pendingMap_of (pending_files items))
                results a w) as Hone.
  destruct (pendingMap_get _ a) as [info|] eqn:Hget.
  - destruct (moveFile_cases env (lit "pending/" ++ fi_fileName info)
                (lit "approved/" ++ fi_fileName info) (fi_fileUuid info)
                (fi_link info) w) as (t & Htrace & Hcases).
    exists t. split.
    + destruct (moveFile _ _ _ _ _ w) as [[[]|message] w1];
        by rewrite Hone.
    + rewrite approved_target in Hcases.
      destruct Hcases as [(Hall & _) | Hfive].
      * eapply Forall_impl; [exact Hall|].
        intros e He. by destruct e.
      * destruct Hfive as (source & r1 & blob & r2 & u & target & session
                           & r3 & r4 & r5 & _ & -> & _).
        repeat constructor; simpl; try done.
        destruct (pendingMap_get_listed _ _ _ Hget)
          as (file & Hin & Hpath & Huuid & _ & Hext).
        by exists file.
  - exists []. rewrite Hone. simpl. rewrite app_nil_r. split; [done|constructor].
Qed.

Lemma sync_loop_calls {B : Backend} (env : Env) (items : list ApillonFile)
    (l : list json) (results : SyncResults) (w : World B) :
  exists t,
    trace (sync_loop env (pendingMap_of (pending_files items)) l results w).2 =
      trace w ++ t
    /\ Forall (sync_call_allowed items) t.
Proof.
  revert results w. induction l as [|a l IH]; intros results w.
  - exists []. simpl. rewrite app_nil_r. split; [done|constructor].
  - destruct (sync_one_calls env items results a w) as (t1 & Ht1 & Hall1).
    destruct (sync_one_spec env (pendingMap_of (pending_files items))
                results a w) as (r1 & w1 & Hone & _).
    destruct (IH r1 w1) as (t2 & Ht2 & Hall2).
    exists (t1 ++ t2). simpl. unfold bind at 1. rewrite Hone.
    rewrite Hone in Ht1. simpl in Ht1.
    split; [by rewrite Ht2, Ht1, app_assoc | by apply Forall_app].
Qed.

(** X11: a sync lists the bucket once, first; after that it opens upload
    sessions only in the approved folder, and deletes only objects the listing
    showed in the pending folder under a name with an extension. *)
Theorem sync_calls_are_confined {B : Backend} (env : Env) (origin : jsstring)
    (request : Request) (addresses : list json) (items : list ApillonFile)
    (w : World B) s r0 :
  posts_addresses request addresses -> addresses <> [] ->
  on_list B (store w) = (s, Responded r0) -> ok r0 = true ->
  payload r0 = Some items ->
  exists t,
    trace (handleSyncApprovedMembers request env origin w).2 =
      trace w ++ EvList (Responded r0) :: t
    /\ Forall (sync_call_allowed items) t.
Proof.
  intros Hreq Hne Hlist Hok Hitems.
  rewrite (handleSync_runs _ _ _ _ _ Hreq Hne).
  rewrite (listFilesInFolder_ok _ _ _ _ _ _ Hlist Hok Hitems).
  fold (pending_files items).
  destruct (sync_loop_calls env items (take 50 addresses) no_results
              {| store := s; trace := trace w ++ [EvList (Responded r0)] |})
    as (t & Ht & Hall).
  exists t. split; [|done].
  destruct (sync_loop _ _ _ _ _) as [[r|message] w2]; simpl in *;
    by rewrite Ht, <- app_assoc.
Qed.

Lemma sync_calls_are_confined_witness :
  exists t,
    trace (handleSyncApprovedMembers
             (sync_request [addr "ADDR1"; addr "ADDR2"]) env0 origin0
             one_pending).2 =
      trace one_pending
      ++ EvList (MemoryBucket.respond true "OK"
                   (Some (MemoryBucket.st_file <$> one_object))) :: t
    /\ Forall (sync_call_allowed (MemoryBucket.st_file <$> one_object)) t.
Proof.
  apply (sync_calls_are_confined env0 origin0
           (sync_request [addr "ADDR1"; addr "ADDR2"])
           [addr "ADDR1"; addr "ADDR2"]
           (MemoryBucket.st_file <$> one_object) one_pending
           (store one_pending)).
  - apply sync_request_posts.
  - discriminate.
  - reflexivity.
  - reflexivity.
  - reflexivity.
Defined.

(** ** The sync handler always answers *)

Lemma handleSync_answers {B : Backend} (env : Env) (origin : jsstring)
    (request : Request) (w : World B) :
  exists d st w',
    handleSyncApprovedMembers request env origin w =
      (Returned (jsonResponse d st (Some origin)), w')
    /\ (st = 200 \/ st = 400 \/ st = 405 \/ st = 500)
    /\ (st = 405 <-> method request <> lit "POST").
Proof.
  unfold handleSyncApprovedMembers.
  destruct (decide (method request = lit "POST")) as [Hpost|Hpost].
  2: { rewrite bool_decide_eq_false_2 by done. simpl.
       do 3 eexists. split; [reflexivity|]. split; [tauto|]. done. }
  rewrite bool_decide_eq_true_2 by done. simpl.
  assert (Hst : forall st : Z,
            st = 200 \/ st = 400 \/ st = 500 ->
            (st = 200 \/ st = 400 \/ st = 405 \/ st = 500)
            /\ (st = 405 <-> method request <> lit "POST")).
  { intros st Hst. split; [tauto|]. split; [lia | done]. }
  unfold try_catch, bind at 1, request_json.
  destruct (body request) as [message|v].
  { do 3 eexists. split; [reflexivity|]. apply Hst. tauto. }
  unfold ret at 1. unfold bind at 1, prop.
  destruct (get_prop v (lit "addresses")) as [message|field].
  { do 3 eexists. split; [reflexivity|]. apply Hst. tauto. }
  unfold ret at 1.
  destruct (addresses_or_empty field) as [| | | |[|a l]|];
    try (do 3 eexists; split; [reflexivity|]; apply Hst; tauto).
  unfold bind at 1.
  destruct (listFilesInFolder env (lit "pending") w) as [[pf|message] w1].
  2: { do 3 eexists. split; [reflexivity|]. apply Hst. tauto. }
  unfold bind at 1.
  destruct (sync_loop_spec env (pendingMap_of pf) (take 50 (a :: l))
              {| moved := []; skipped := []; errors := [] |} w1)
    as (r & w2 & -> & _).
  do 3 eexists. split; [reflexivity|]. apply Hst. tauto.
Qed.

(** X7: the sync handler never throws: whatever the request and whatever
    the backend does, it returns a response, with status 200, 400, 405 or
    500, and the status is 405 exactly when the method is not POST. *)
Theorem sync_always_answers {B : Backend} (env : Env) (origin : jsstring)
    (request : Request) (w : World B) :
  exists resp w',
    handleSyncApprovedMembers request env origin w = (Returned resp, w')
    /\ (status resp = 200 \/ status resp = 400 \/ status resp = 405
        \/ status resp = 500)
    /\ (status resp = 405 <-> method request <> lit "POST").
Proof.
  destruct (handleSync_answers env origin request w)
    as (d & st & w' & Hrun & Hst & Hmethod).
  by exists (jsonResponse d st (Some origin)), w'.
Qed.

(** X8: when the backend refuses the listing, the sync answers 500 "Sync
    failed" with the detail "Failed to list files: " and the backend's text,
    having made that one call only. *)
Theorem sync_reports_refused_listing {B : Backend} (env : Env)
    (origin : jsstring) (request : Request) (addresses : list json)
    (w : World B) s r0 :
  posts_addresses request addresses -> addresses <> [] ->
  on_list B (store w) = (s, Responded r0) -> ok r0 = false ->
  handleSyncApprovedMembers request env origin w =
    (Returned
       (jsonResponse (SyncFailedData (lit "Failed to list files: " ++ text r0))
          500 (Some origin)),
     {| store := s; trace := trace w ++ [EvList (Responded r0)] |}).
Proof.
  intros Hreq Hne Hlist Hok.
  rewrite (handleSync_runs _ _ _ _ _ Hreq Hne).
  unfold listFilesInFolder, bind, perform. by rewrite Hlist, Hok.
Qed.

Lemma sync_reports_refused_listing_witness :
  handleSyncApprovedMembers (sync_request [addr "ADDR1"]) env0 origin0 refused =
    (Returned
       (jsonResponse
          (SyncFailedData (lit "Failed to list files: " ++ lit "Unauthorized"))
          500 (Some origin0)),
     Build_World refusing_listing tt
       (trace refused
        ++ [EvList (MemoryBucket.respond false "Unauthorized" None)])).
Proof.
  apply (sync_reports_refused_listing env0 origin0
           (sync_request [addr "ADDR1"]) [addr "ADDR1"] refused tt
           {| ok := false; statusText := lit "Unauthorized";
              content_type := Some (lit "image/jpeg");
              text := lit "Unauthorized"; payload := None |}).
  - apply sync_request_posts.
  - discriminate.
  - reflexivity.
  - reflexivity.
Defined.

(** ** The complete handler *)

Lemma is_string_spec (v : option json) (s : jsstring) :
  is_string v s = true <-> v = Some (JStr s).
Proof.
  destruct v as [[| | |s'| |]|]; simpl; try (split; intros H; discriminate H).
  rewrite bool_decide_eq_true. split; [by intros ->|by intros [= ->]].
Qed.

Lemma handleComplete_runs {B : Backend} (env : Env) (origin : jsstring)
    (request : Request) (v : json) (session : option json) (w : World B) :
  body request = Json v ->
  get_prop v (lit "sessionUuid") = inr session ->
  handleCompleteUpload request env origin w =
    (if negb (truthy session) then
       ret (jsonResponse (ErrorData (lit "Missing sessionUuid") None) 400
              (Some origin))
     else
       let* completeResponse :=
         apillonCompleteUpload env (default JNull session) in
       if negb (default false (complete_data completeResponse)) then
         ret (jsonResponse
                (ErrorData (lit "Failed to complete upload session") None) 500
                (Some origin))
       else
         ret (jsonResponse (CompletedData (lit "Upload completed successfully"))
                200 (Some origin))) w.
Proof.
  intros Hbody Hsession.
  unfold handleCompleteUpload, bind at 1, request_json. rewrite Hbody.
  unfold ret at 1. unfold bind at 1, prop. by rewrite Hsession.
Qed.

(** Once the body is read and its session identifier is taken, the complete
    handler answers 400 exactly when the identifier is missing or falsy, and
    then asks nothing of the backend; it answers 200 only after one
    completion call for that session which the backend answered ok with
    [data.success] true. *)
Lemma handleComplete_parsed {B : Backend} (env : Env) (origin : jsstring)
    (request : Request) (v : json) (session : option json) (w : World B) :
  body request = Json v ->
  get_prop v (lit "sessionUuid") = inr session ->
  ((exists resp w',
      handleCompleteUpload request env origin w = (Returned resp, w')
      /\ status resp = 400)
   <-> truthy session = false)
  /\ (truthy session = false ->
      handleCompleteUpload request env origin w =
        (Returned (jsonResponse (ErrorData (lit "Missing sessionUuid") None)
                     400 (Some origin)), w))
  /\ (forall resp w',
        handleCompleteUpload request env origin w = (Returned resp, w') ->
        status resp = 200 ->
        exists s r,
          on_complete B (store w) (default JNull session) = (s, Responded r)
          /\ ok r = true
          /\ payload r = Some {| complete_data := Some true |}
          /\ w' = {| store := s;
                     trace := trace w
                              ++ [EvComplete (default JNull session)
                                    (Responded r)] |}).
Proof.
  intros Hbody Hsession.
  rewrite (handleComplete_runs env origin request v session w Hbody Hsession).
  destruct (truthy session); simpl.
  - split; [|split].
    + split; [|done]. intros (resp & w' & Hrun & Hstatus). exfalso.
      revert Hrun.
      unfold bind, apillonCompleteUpload, bind, perform, decode, throw, ret.
      step_fetch; try discriminate.
      destruct (default false (complete_data _)); simpl;
        intros [= <- _]; discriminate Hstatus.
    + done.
    + intros resp w'.
      unfold bind, apillonCompleteUpload, bind, perform, decode, throw, ret.
      destruct (on_complete B (store w) (default JNull session))
        as [s [message|[[] st ct tx [[[[]|]]|]]]]; simpl;
        try discriminate;
        intros [= <- <-] Hstatus; try discriminate Hstatus.
      by exists s, {| ok := true; statusText := st; content_type := ct;
                     text := tx;
                     payload := Some {| complete_data := Some true |} |}.
  - split; [|split].
    + split; [done|]. intros _. by do 2 eexists.
    + done.
    + intros resp w' [= <- _] Hstatus. discriminate Hstatus.
Qed.

(** X6: for every request, the complete handler answers 400 exactly when
    the body is read as a value other than [null] in which [sessionUuid] is
    missing or falsy, and then asks nothing of the backend; a body that is
    not JSON, or is [null], is answered by no response: the handler throws,
    and has asked nothing of the backend.  The handler answers 200 only
    after one completion call for the session of the body which the backend
    answered ok with [data.success] true.  Every request is of one of the
    three kinds. *)
Theorem complete_validation {B : Backend} (env : Env) (origin : jsstring)
    (request : Request) (w : World B) :
  ((exists resp w',
      handleCompleteUpload request env origin w = (Returned resp, w')
      /\ status resp = 400)
   <-> complete_rejects request)
  /\ (complete_rejects request ->
      handleCompleteUpload request env origin w =
        (Returned (jsonResponse (ErrorData (lit "Missing sessionUuid") None)
                     400 (Some origin)), w))
  /\ (body_unreadable request ->
      exists message,
        handleCompleteUpload request env origin w = (Thrown message, w))
  /\ (forall resp w',
        handleCompleteUpload request env origin w = (Returned resp, w') ->
        status resp = 200 ->
        exists v session s r,
          body request = Json v
          /\ get_prop v (lit "sessionUuid") = inr session
          /\ truthy session = true
          /\ on_complete B (store w) (default JNull session) = (s, Responded r)
          /\ ok r = true
          /\ payload r = Some {| complete_data := Some true |}
          /\ w' = {| store := s;
                     trace := trace w
                              ++ [EvComplete (default JNull session)
                                    (Responded r)] |})
  /\ (complete_rejects request \/ complete_accepts request
      \/ body_unreadable request).
Proof.
  assert (Hthrows : body_unreadable request ->
    exists message,
      handleCompleteUpload request env origin w = (Thrown message, w)).
  { intros [(message & Hbody) | Hbody];
      unfold handleCompleteUpload, bind at 1, request_json; rewrite Hbody;
      by eexists. }
  assert (Hcases : complete_rejects request \/ complete_accepts request
                   \/ body_unreadable request).
  { destruct (body request) as [message | v] eqn:Hbody.
    { right; right. left. by eexists. }
    destruct (get_prop_cases v) as [-> | Hfields].
    { right; right. by right. }
    destruct (Hfields (lit "sessionUuid")) as (session & Hsession).
    destruct (truthy session) eqn:Htruthy.
    - right; left. by exists v, session.
    - left. by exists v, session. }
  assert (Hrej : complete_rejects request ->
    handleCompleteUpload request env origin w =
      (Returned (jsonResponse (ErrorData (lit "Missing sessionUuid") None)
                   400 (Some origin)), w)).
  { intros (v & session & Hbody & Hsession & Hfalsy).
    by apply (handleComplete_parsed env origin request v session w). }
  split; [|split; [exact Hrej|split; [exact Hthrows|split; [|exact Hcases]]]].
  - split; [|intros H; rewrite (Hrej H); by do 2 eexists].
    intros (resp & w' & Hrun & Hst).
    destruct Hcases as [H | [(v & session & Hbody & Hsession & Htruthy) | H]];
      [done| |].
    + destruct (handleComplete_parsed env origin request v session w
                  Hbody Hsession) as [Hiff _].
      exists v, session. repeat split; try done.
      apply Hiff. by exists resp, w'.
    + destruct (Hthrows H) as (message & Hm). congruence.
  - intros resp w' Hrun Hst.
    destruct Hcases as [H | [(v & session & Hbody & Hsession & Htruthy) | H]].
    + rewrite (Hrej H) in Hrun. injection Hrun as <- _. discriminate Hst.
    + destruct (handleComplete_parsed env origin request v session w
                  Hbody Hsession) as (_ & _ & Hok).
      destruct (Hok resp w' Hrun Hst) as (s & r & Hcall & Hr & Hpayload & Hw).
      by exists v, session, s, r.
    + destruct (Hthrows H) as (message & Hm). congruence.
Qed.

Lemma complete_validation_witness :
  handleCompleteUpload complete_request0 env0 origin0 one_pending =
    (Returned (jsonResponse (ErrorData (lit "Missing sessionUuid") None)
                 400 (Some origin0)), one_pending).
Proof.
  apply (proj1 (proj2 (complete_validation env0 origin0 complete_request0
                         one_pending))).
  exists (JObj [(lit "sessionUuid", JStr [])]), (Some (JStr [])).
  split; [reflexivity|]. split; [vm_compute; reflexivity | reflexivity].
Defined.

(** ** The initiate handler *)

Lemma handleInitiate_runs {B : Backend} (env : Env) (origin : jsstring)
    (request : Request) (v : json)
    (fileName contentType directoryPath : option json) (w : World B) :
  body request = Json v ->
  get_prop v (lit "fileName") = inr fileName ->
  get_prop v (lit "contentType") = inr contentType ->
  get_prop v (lit "directoryPath") = inr directoryPath ->
  handleInitiateUpload request env origin w =
    (if negb (truthy fileName) || negb (truthy contentType)
        || negb (truthy directoryPath) then
       ret (jsonResponse (ErrorData (lit "Missing required fields") None) 400
              (Some origin))
     else if negb (is_string directoryPath (lit "pending"))
             && negb (is_string directoryPath (lit "approved")) then
       ret (jsonResponse (ErrorData (lit "Invalid directoryPath") None) 400
              (Some origin))
     else
       let* initiateResponse :=
         apillonInitiateUpload env (default JNull fileName)
           (default JNull contentType)
           (match directoryPath with Some (JStr s) => s | _ => [] end) in
       if negb (str_truthy (upload_session initiateResponse))
          || negb (str_truthy (upload_first_url initiateResponse)) then
         ret (jsonResponse
                (ErrorData (lit "Failed to initiate upload session") None) 500
                (Some origin))
       else
         ret (jsonResponse
                (InitiatedData (default [] (upload_session initiateResponse))
                   (default [] (upload_first_url initiateResponse))
                   (f ← upload_first_file initiateResponse; fileUuid f))
                200 (Some origin))) w.
Proof.
  intros Hbody Hname Htype Hdir.
  unfold handleInitiateUpload, bind at 1, request_json. rewrite Hbody.
  unfold ret at 1. unfold bind at 1, prop. rewrite Hname. unfold ret at 1.
  unfold bind at 1. rewrite Htype. unfold ret at 1.
  unfold bind at 1. by rewrite Hdir.
Qed.

(** The folder an accepted request names. *)
Lemma accepted_folder (directoryPath : option json) :
  (negb (is_string directoryPath (lit "pending"))
   && negb (is_string directoryPath (lit "approved"))) = false ->
  exists dir, directoryPath = Some (JStr dir)
              /\ (dir = lit "pending" \/ dir = lit "approved").
Proof.
  intros H. apply andb_false_iff in H as [H|H];
    apply negb_false_iff, is_string_spec in H; eauto.
Qed.

(** X5: a 200 answer of the initiate handler carries the session and the
    upload URL the backend issued, both non-empty, in one call, for exactly
    the file name, content type and folder of the request, the folder being
    "pending" or "approved". *)
Theorem initiate_answer_is_the_backends {B : Backend} (env : Env)
    (origin : jsstring) (request : Request) (v : json)
    (fileName contentType directoryPath : option json) (w w' : World B)
    (resp : Response) :
  body request = Json v ->
  get_prop v (lit "fileName") = inr fileName ->
  get_prop v (lit "contentType") = inr contentType ->
  get_prop v (lit "directoryPath") = inr directoryPath ->
  handleInitiateUpload request env origin w = (Returned resp, w') ->
  status resp = 200 ->
  exists dir s r u session target,
    directoryPath = Some (JStr dir)
    /\ (dir = lit "pending" \/ dir = lit "approved")
    /\ on_initiate B (store w) (default JNull fileName)
         (default JNull contentType) dir = (s, Responded r)
    /\ ok r = true /\ payload r = Some u
    /\ upload_session u = Some session /\ upload_first_url u = Some target
    /\ session <> [] /\ target <> []
    /\ data resp =
         InitiatedData session target (f ← upload_first_file u; fileUuid f)
    /\ w' = {| store := s;
               trace := trace w
                        ++ [EvInitiate (default JNull fileName)
                              (default JNull contentType) dir (Responded r)] |}.
Proof.
  intros Hbody Hname Htype Hdir.
  rewrite (handleInitiate_runs env origin request v _ _ _ w Hbody Hname Htype
             Hdir).
  destruct (negb (truthy fileName) || negb (truthy contentType)
            || negb (truthy directoryPath)).
  { intros [= <- _] Hstatus. discriminate Hstatus. }
  destruct (negb (is_string directoryPath (lit "pending"))
            && negb (is_string directoryPath (lit "approved"))) eqn:Hfolder.
  { intros [= <- _] Hstatus. discriminate Hstatus. }
  destruct (accepted_folder _ Hfolder) as (dir & -> & Hdir').
  unfold bind, apillonInitiateUpload, bind, perform, decode, throw, ret.
  destruct (on_initiate B (store w) (default JNull fileName)
              (default JNull contentType) dir)
    as [s [message|[[] st ct tx [u|]]]] eqn:Hcall; simpl; try discriminate.
  destruct (upload_session u) as [[|c1 session]|] eqn:Hs; simpl;
    try (intros [= <- _] Hstatus; discriminate Hstatus).
  destruct (upload_first_url u) as [[|c2 target]|] eqn:Hu; simpl;
    try (intros [= <- _] Hstatus; discriminate Hstatus).
  intros [= <- <-] _.
  exists dir, s, {| ok := true; statusText := st; content_type := ct;
                    text := tx; payload := Some u |}, u, (c1 :: session),
    (c2 :: target).
  simpl. rewrite Hs, Hu. by repeat split.
Qed.

Lemma initiate_answer_is_the_backends_witness :
  exists dir s r u session target,
    Some (JStr (lit "pending")) = Some (JStr dir)
    /\ (dir = lit "pending" \/ dir = lit "approved")
    /\ on_initiate MemoryBucket.backend (store one_pending)
         (default JNull (Some (JStr (lit "ADDR1.jpg"))))
         (default JNull (Some (JStr (lit "image/jpeg")))) dir
       = (s, Responded r)
    /\ ok r = true /\ payload r = Some u
    /\ upload_session u = Some session /\ upload_first_url u = Some target
    /\ session <> [] /\ target <> []
    /\ data (jsonResponse
               (InitiatedData (lit "s-" ++ [48%N]) (lit "https://upload/" ++ [48%N])
                  (Some (lit "f-" ++ [48%N])))
               200 (Some origin0)) =
         InitiatedData session target (f ← upload_first_file u; fileUuid f)
    /\ (handleInitiateUpload (initiate_request "pending") env0 origin0
          one_pending).2 =
       {| store := s;
          trace := trace one_pending
                   ++ [EvInitiate (default JNull (Some (JStr (lit "ADDR1.jpg"))))
                         (default JNull (Some (JStr (lit "image/jpeg")))) dir
                         (Responded r)] |}.
Proof.
  apply (initiate_answer_is_the_backends env0 origin0
           (initiate_request "pending")
           (JObj [(lit "fileName", JStr (lit "ADDR1.jpg"));
                  (lit "contentType", JStr (lit "image/jpeg"));
                  (lit "directoryPath", JStr (lit "pending"))])
           (Some (JStr (lit "ADDR1.jpg"))) (Some (JStr (lit "image/jpeg")))
           (Some (JStr (lit "pending"))) one_pending).
  - reflexivity.
  - vm_compute. reflexivity.
  - vm_compute. reflexivity.
  - vm_compute. reflexivity.
  - vm_compute. reflexivity.
  - reflexivity.
Defined.

(** ** The origin in the answers *)

Lemma handleInitiate_form {B : Backend} (env : Env) (origin : jsstring)
    (request : Request) (w w' : World B) (resp : Response) :
  handleInitiateUpload request env origin w = (Returned resp, w') ->
  exists d st, resp = jsonResponse d st (Some origin).
Proof.
  unfold handleInitiateUpload, bind at 1, request_json.
  destruct (body request) as [message|v]; [discriminate|].
  unfold ret at 1. unfold bind at 1, prop.
  destruct (get_prop v (lit "fileName")) as [m|fileName]; [discriminate|].
  unfold ret at 1. unfold bind at 1.
  destruct (get_prop v (lit "contentType")) as [m|contentType];
    [discriminate|].
  unfold ret at 1. unfold bind at 1.
  destruct (get_prop v (lit "directoryPath")) as [m|directoryPath];
    [discriminate|].
  unfold ret at 1.
  destruct (negb (truthy fileName) || negb (truthy contentType)
            || negb (truthy directoryPath)).
  { intros [= <- _]. by do 2 eexists. }
  destruct (negb (is_string directoryPath (lit "pending"))
            && negb (is_string directoryPath (lit "approved"))).
  { intros [= <- _]. by do 2 eexists. }
  unfold bind, apillonInitiateUpload, bind, perform, decode, throw, ret.
  step_fetch; try discriminate.
  match goal with
  | |- context [str_truthy (upload_session ?a)] =>
      destruct (str_truthy (upload_session a));
      destruct (str_truthy (upload_first_url a))
  end; simpl; intros [= <- _]; by do 2 eexists.
Qed.

Lemma handleComplete_form {B : Backend} (env : Env) (origin : jsstring)
    (request : Request) (w w' : World B) (resp : Response) :
  handleCompleteUpload request env origin w = (Returned resp, w') ->
  exists d st, resp = jsonResponse d st (Some origin).
Proof.
  unfold handleCompleteUpload, bind at 1, request_json.
  destruct (body request) as [message|v]; [discriminate|].
  unfold ret at 1. unfold bind at 1, prop.
  destruct (get_prop v (lit "sessionUuid")) as [m|session]; [discriminate|].
  unfold ret at 1.
  destruct (negb (truthy session)).
  { intros [= <- _]. by do 2 eexists. }
  unfold bind, apillonCompleteUpload, bind, perform, decode, throw, ret.
  step_fetch; try discriminate.
  destruct (negb (default false (complete_data _))); simpl;
    intros [= <- _]; by do 2 eexists.
Qed.

Lemma allow_origin_json (d : ResponseData) (st : Z) (c : code_unit)
    (o : jsstring) :
  allow_origin (jsonResponse d st (Some (c :: o))) = Some (c :: o).
Proof. reflexivity. Qed.

Lemma origin_accepted (env : Env) (origin : option jsstring) :
  origin_rejected env origin = false ->
  exists c o, origin = Some (c :: o) /\ (c :: o) ∈ allowedOrigins env.
Proof.
  unfold origin_rejected. intros [Htruthy Hin]%orb_false_iff.
  destruct origin as [[|c o]|]; try discriminate Htruthy.
  exists c, o. split; [done|].
  apply negb_false_iff, bool_decide_eq_true in Hin. exact Hin.
Qed.

(** X3: every response to a request whose origin passed the guard carries
    that origin in Access-Control-Allow-Origin, whatever the route and the
    outcome; a response to a refused origin is a 403 without that header. *)
Theorem answers_echo_the_origin {B : Backend} (env : Env) (request : Request)
    (w w' : World B) (resp : Response) :
  fetch request env w = (Returned resp, w') ->
  if origin_rejected env (origin_header request)
  then status resp = 403 /\ allow_origin resp = None
  else allow_origin resp = origin_header request.
Proof.
  unfold fetch, handleCORS.
  destruct (origin_rejected env (origin_header request)) eqn:Hrej.
  - destruct (bool_decide (method request = lit "OPTIONS"));
      intros [= <- _]; by split.
  - destruct (origin_accepted _ _ Hrej) as (c & o & Horigin & _).
    rewrite Horigin. simpl.
    destruct (bool_decide (method request = lit "OPTIONS")).
    { by intros [= <- _]. }
    destruct (bool_decide (pathname request = lit "/initiate")).
    { intros (d & st & ->)%handleInitiate_form. apply allow_origin_json. }
    destruct (bool_decide (pathname request = lit "/complete")).
    { intros (d & st & ->)%handleComplete_form. apply allow_origin_json. }
    destruct (bool_decide (pathname request = lit "/sync-approved-members")).
    { destruct (handleSync_answers env (c :: o) request w)
        as (d & st & w1 & -> & _).
      intros [= <- _]. apply allow_origin_json. }
    by intros [= <- _].
Qed.

Lemma answers_echo_the_origin_witness :
  if origin_rejected env0 (origin_header (initiate_request "rejected"))
  then status (jsonResponse (ErrorData (lit "Invalid directoryPath") None)
                 400 (Some origin0)) = 403
       /\ allow_origin (jsonResponse (ErrorData (lit "Invalid directoryPath") None)
                          400 (Some origin0)) = None
  else allow_origin (jsonResponse (ErrorData (lit "Invalid directoryPath") None)
                       400 (Some origin0))
       = origin_header (initiate_request "rejected").
Proof.
  apply (answers_echo_the_origin env0 (initiate_request "rejected")
           one_pending one_pending).
  vm_compute. reflexivity.
Defined.

(** ** Validation comes before the backend *)

Lemma handleInitiate_touches {B : Backend} (env : Env) (origin : jsstring)
    (request : Request) (w w' : World B) (out : Outcome Response) :
  handleInitiateUpload request env origin w = (out, w') -> w' <> w ->
  initiate_accepts request.
Proof.
  unfold handleInitiateUpload, bind at 1, request_json.
  destruct (body request) as [message|v] eqn:Hbody;
    [by intros [= _ <-] | ].
  unfold ret at 1. unfold bind at 1, prop.
  destruct (get_prop v (lit "fileName")) as [m|fileName] eqn:Hname;
    [by intros [= _ <-] | ].
  unfold ret at 1. unfold bind at 1.
  destruct (get_prop v (lit "contentType")) as [m|contentType] eqn:Htype;
    [by intros [= _ <-] | ].
  unfold ret at 1. unfold bind at 1.
  destruct (get_prop v (lit "directoryPath")) as [m|directoryPath] eqn:Hdir;
    [by intros [= _ <-] | ].
  unfold ret at 1.
  destruct (negb (truthy fileName) || negb (truthy contentType)
            || negb (truthy directoryPath)) eqn:Hmissing;
    [by intros [= _ <-] | ].
  destruct (negb (is_string directoryPath (lit "pending"))
            && negb (is_string directoryPath (lit "approved"))) eqn:Hfolder;
    [by intros [= _ <-] | ].
  intros _ _. exists v, fileName, contentType, directoryPath.
  repeat split; try done.
  apply orb_false_iff in Hmissing as [[Hf Hc]%orb_false_iff Hd].
  apply negb_false_iff in Hf, Hc, Hd.
  destruct (accepted_folder _ Hfolder) as (dir & Hdir' & Hcase).
  unfold initiate_invalid, missing.
  intros [H | [H | [H | [Hp Ha]]]]; try congruence.
  destruct Hcase as [-> | ->]; congruence.
Qed.

Lemma handleComplete_touches {B : Backend} (env : Env) (origin : jsstring)
    (request : Request) (w w' : World B) (out : Outcome Response) :
  handleCompleteUpload request env origin w = (out, w') -> w' <> w ->
  complete_accepts request.
Proof.
  unfold handleCompleteUpload, bind at 1, request_json.
  destruct (body request) as [message|v] eqn:Hbody;
    [by intros [= _ <-] | ].
  unfold ret at 1. unfold bind at 1, prop.
  destruct (get_prop v (lit "sessionUuid")) as [m|session] eqn:Hsession;
    [by intros [= _ <-] | ].
  unfold ret at 1.
  destruct (truthy session) eqn:Htruthy; simpl; [|by intros [= _ <-]].
  intros _ _. by exists v, session.
Qed.

Lemma addresses_or_empty_array (field : option json) (a : json)
    (l : list json) :
  addresses_or_empty field = JArr (a :: l) -> field = Some (JArr (a :: l)).
Proof.
  unfold addresses_or_empty. destruct (truthy field); [|discriminate].
  destruct field as [v|]; simpl; [by intros ->|discriminate].
Qed.

Lemma handleSync_touches {B : Backend} (env : Env) (origin : jsstring)
    (request : Request) (w w' : World B) (out : Outcome Response) :
  handleSyncApprovedMembers request env origin w = (out, w') -> w' <> w ->
  sync_accepts request.
Proof.
  unfold handleSyncApprovedMembers.
  destruct (decide (method request = lit "POST")) as [Hpost|Hpost].
  2: { rewrite bool_decide_eq_false_2 by done. by intros [= _ <-]. }
  rewrite bool_decide_eq_true_2 by done. simpl.
  unfold try_catch, bind at 1, request_json.
  destruct (body request) as [message|v] eqn:Hbody;
    [by intros [= _ <-] | ].
  unfold ret at 1. unfold bind at 1, prop.
  destruct (get_prop v (lit "addresses")) as [message|field] eqn:Hfield;
    [by intros [= _ <-] | ].
  unfold ret at 1.
  destruct (addresses_or_empty field) as [| | | |[|a l]|] eqn:Harr;
    try (by intros [= _ <-]).
  intros _ _. apply addresses_or_empty_array in Harr. subst field.
  exists (a :: l). split; [|done]. split; [done|]. by exists v.
Qed.

(** X4: the worker asks something of the backend only for a request from
    an allowed origin that is not a preflight, on one of the three routes,
    and that passed the validation of its route. *)
Theorem backend_only_after_validation {B : Backend} (env : Env)
    (request : Request) (w w' : World B) (out : Outcome Response) :
  fetch request env w = (out, w') -> w' <> w ->
  origin_rejected env (origin_header request) = false
  /\ method request <> lit "OPTIONS"
  /\ ((pathname request = lit "/initiate" /\ initiate_accepts request)
      \/ (pathname request = lit "/complete" /\ complete_accepts request)
      \/ (pathname request = lit "/sync-approved-members"
          /\ sync_accepts request)).
Proof.
  unfold fetch.
  destruct (decide (method request = lit "OPTIONS")) as [Hopt|Hopt].
  { rewrite bool_decide_eq_true_2 by done. by intros [= _ <-]. }
  rewrite bool_decide_eq_false_2 by done.
  destruct (origin_rejected env (origin_header request));
    [by intros [= _ <-] | ].
  destruct (decide (pathname request = lit "/initiate")) as [Hi|Hi].
  { rewrite bool_decide_eq_true_2 by done. intros Hrun Hw.
    repeat split; try done. left. split; [done|].
    by apply (handleInitiate_touches _ _ _ _ _ _ Hrun). }
  rewrite bool_decide_eq_false_2 by done.
  destruct (decide (pathname request = lit "/complete")) as [Hc|Hc].
  { rewrite bool_decide_eq_true_2 by done. intros Hrun Hw.
    repeat split; try done. right; left. split; [done|].
    by apply (handleComplete_touches _ _ _ _ _ _ Hrun). }
  rewrite bool_decide_eq_false_2 by done.
  destruct (decide (pathname request = lit "/sync-approved-members"))
    as [Hs|Hs].
  { rewrite bool_decide_eq_true_2 by done. intros Hrun Hw.
    repeat split; try done. right; right. split; [done|].
    by apply (handleSync_touches _ _ _ _ _ _ Hrun). }
  rewrite bool_decide_eq_false_2 by done. by intros [= _ <-].
Qed.

Lemma backend_only_after_validation_witness :
  origin_rejected env0 (origin_header (sync_request [addr "ADDR1"])) = false
  /\ method (sync_request [addr "ADDR1"]) <> lit "OPTIONS"
  /\ ((pathname (sync_request [addr "ADDR1"]) = lit "/initiate"
       /\ initiate_accepts (sync_request [addr "ADDR1"]))
      \/ (pathname (sync_request [addr "ADDR1"]) = lit "/complete"
          /\ complete_accepts (sync_request [addr "ADDR1"]))
      \/ (pathname (sync_request [addr "ADDR1"]) = lit "/sync-approved-members"
          /\ sync_accepts (sync_request [addr "ADDR1"]))).
Proof.
  apply (backend_only_after_validation env0 (sync_request [addr "ADDR1"])
           one_pending
           (fetch (sync_request [addr "ADDR1"]) env0 one_pending).2
           (fetch (sync_request [addr "ADDR1"]) env0 one_pending).1).
  - vm_compute. reflexivity.
  - intros H. apply (f_equal (fun x => length (trace x))) in H.
    vm_compute in H. discriminate H.
Defined.

(** ** A blank allow-list *)

Lemma trim_blank (s : jsstring) : forallb is_trimmed s = true -> trim s = [].
Proof.
  intros Hs. unfold trim.
  assert (Hstart : trim_start s = []).
  { pose proof (trim_start_blank s [] Hs) as H. by rewrite app_nil_r in H. }
  by rewrite Hstart.
Qed.

(** X2: when every comma-separated entry of ALLOWED_ORIGINS is blank (the
    empty configuration among them), every request is refused with 403 and
    the backend is not touched: an empty Origin header never matches an
    empty entry. *)
Theorem blank_allow_list_refuses_all {B : Backend} (env : Env)
    (request : Request) (w : World B) :
  Forall (fun e => forallb is_trimmed e = true)
    (split COMMA (ALLOWED_ORIGINS env)) ->
  exists resp,
    fetch request env w = (Returned resp, w) /\ status resp = 403.
Proof.
  intros Hblank.
  assert (Hrej : origin_rejected env (origin_header request) = true).
  { unfold origin_rejected.
    destruct (origin_header request) as [[|c o]|]; try done. simpl.
    rewrite bool_decide_eq_false_2; [done|].
    unfold allowedOrigins. intros (e & Heq & Hin)%list_elem_of_fmap.
    rewrite Forall_forall in Hblank.
    by rewrite (trim_blank e (Hblank e Hin)) in Heq. }
  unfold fetch, handleCORS. rewrite Hrej.
  destruct (bool_decide (method request = lit "OPTIONS"));
    eexists; split; reflexivity.
Qed.

Lemma blank_allow_list_refuses_all_witness :
  exists resp,
    fetch (sync_request [addr "ADDR1"])
      {| APILLON_API_KEY := lit "key"; APILLON_API_SECRET := lit "secret";
         APILLON_BUCKET_UUID := lit "bucket"; ALLOWED_ORIGINS := lit " , " |}
      one_pending = (Returned resp, one_pending)
    /\ status resp = 403.
Proof.
  apply (blank_allow_list_refuses_all
           {| APILLON_API_KEY := lit "key"; APILLON_API_SECRET := lit "secret";
              APILLON_BUCKET_UUID := lit "bucket";
              ALLOWED_ORIGINS := lit " , " |}
           (sync_request [addr "ADDR1"]) one_pending).
  vm_compute. repeat constructor.
Defined.

(** ** The two versions of the entry point *)

(** X17: for every preflight, and for every POST to a route other than the
    sync route, the entry point with the sync route answers exactly as the
    first version does. *)
Theorem entry_points_agree {B : Backend} (env : Env) (request : Request)
    (w : World B) :
  method request = lit "OPTIONS"
  \/ (method request = lit "POST"
      /\ pathname request <> lit "/sync-approved-members") ->
  fetch request env w = fetch_v1 request env w.
Proof.
  unfold fetch, fetch_v1. intros [Hopt | [Hpost Hpath]].
  - by rewrite !bool_decide_eq_true_2.
  - rewrite Hpost. simpl.
    rewrite (bool_decide_eq_false_2 (pathname request = _) Hpath).
    destruct (origin_rejected _ _); [done|].
    by repeat destruct (bool_decide _).
Qed.

Lemma entry_points_agree_witness :
  fetch (initiate_request "pending") env0 one_pending =
  fetch_v1 (initiate_request "pending") env0 one_pending.
Proof.
  apply (entry_points_agree env0 (initiate_request "pending") one_pending).
  right. split; [reflexivity|]. vm_compute. discriminate.
Defined.

(** * Properties of the callers *)

(** ** The image extensions of the gallery *)

Lemma ci_match_letters (pattern ext : jsstring) :
  Forall (fun p => p <> DOT /\ (p - 32)%N <> DOT) pattern ->
  ci_match pattern ext = true ->
  (DOT ∉ ext) /\ length ext = length pattern.
Proof.
  intros Hletters. revert ext.
  induction Hletters as [|p pattern [Hp Hp'] _ IH]; intros [|c ext]; simpl;
    try discriminate.
  - intros _. split; [apply not_elem_of_nil | done].
  - intros [Hc Hrest]%andb_true_iff.
    destruct (IH ext Hrest) as [Hdot Hlen]. split; [|by rewrite Hlen].
    apply not_elem_of_cons. split; [|done].
    unfold ci_unit in Hc. apply orb_true_iff in Hc as [Hc|Hc];
      apply N.eqb_eq in Hc; congruence.
Qed.

Lemma is_image_suffix_shape (s : jsstring) :
  is_image_suffix s = true ->
  exists ext, s = DOT :: ext /\ ext <> [] /\ DOT ∉ ext.
Proof.
  destruct s as [|c ext]; [discriminate|].
  change (is_image_suffix (c :: ext))
    with ((c =? DOT)%N
          && (ci_match (lit "jpg") ext || ci_match (lit "png") ext
              || ci_match (lit "heic") ext || ci_match (lit "webp") ext)).
  intros [Hc Hext]%andb_true_iff. apply N.eqb_eq in Hc. subst c.
  exists ext. split; [done|].
  assert (Hletters : forall pattern : string,
    Forall (fun p => p <> DOT /\ (p - 32)%N <> DOT) (lit pattern) ->
    ci_match (lit pattern) ext = true ->
    length (lit pattern) <> 0%nat -> ext <> [] /\ DOT ∉ ext).
  { intros pattern Hall Hmatch Hlen.
    destruct (ci_match_letters _ _ Hall Hmatch) as [Hdot Hl].
    split; [|done]. intros ->. simpl in Hl. congruence. }
  repeat (apply orb_true_iff in Hext as [Hext|Hext]);
    (eapply Hletters; [|exact Hext|vm_compute; discriminate]);
    vm_compute; repeat constructor; discriminate.
Qed.

Lemma is_image_suffix_inner (x suf : jsstring) :
  x <> [] -> is_image_suffix suf = true -> is_image_suffix (x ++ suf) = false.
Proof.
  intros Hx Hsuf. destruct (is_image_suffix (x ++ suf)) eqn:Hwhole; [|done].
  apply is_image_suffix_shape in Hsuf as (ext & -> & _ & _).
  apply is_image_suffix_shape in Hwhole as (ext' & Heq & _ & Hdot).
  destruct x as [|c x]; [done|]. injection Heq as -> <-.
  exfalso. apply Hdot. apply elem_of_app. right. by left.
Qed.

Lemma strip_image_suffix (a suf : jsstring) :
  is_image_suffix suf = true -> strip_image_extension (a ++ suf) = a.
Proof.
  intros Hsuf. induction a as [|c a IH].
  - simpl. destruct suf; [discriminate Hsuf|].
    change (strip_image_extension (n :: suf))
      with (if is_image_suffix (n :: suf) then []
            else n :: strip_image_extension suf).
    by rewrite Hsuf.
  - change (strip_image_extension ((c :: a) ++ suf))
      with (if is_image_suffix ((c :: a) ++ suf) then []
            else c :: strip_image_extension (a ++ suf)).
    rewrite is_image_suffix_inner by done. by rewrite IH.
Qed.

(** Either nothing is cut off, or an image suffix is. *)
Lemma strip_image_cases (name : jsstring) :
  strip_image_extension name = name
  \/ exists suf, name = strip_image_extension name ++ suf
                 /\ is_image_suffix suf = true.
Proof.
  induction name as [|c name IH].
  - left. done.
  - change (strip_image_extension (c :: name))
      with (if is_image_suffix (c :: name) then []
            else c :: strip_image_extension name).
    destruct (is_image_suffix (c :: name)) eqn:Hhere.
    + right. by exists (c :: name).
    + destruct IH as [-> | (suf & Heq & Hsuf)]; [by left|].
      right. exists suf. split; [|done]. simpl. by rewrite <- Heq.
Qed.

(** X18: the file name the submit page builds from an address is split back
    to that address both by the worker's pattern and by the gallery's
    replacement, for every non-empty address without line terminators. *)
Theorem submission_name_round_trip (memberHash : jsstring) :
  memberHash <> [] -> all_dot_class memberHash = true ->
  name_match (submission_fileName memberHash) = Some (memberHash, lit "jpg")
  /\ strip_image_extension (submission_fileName memberHash) = memberHash.
Proof.
  intros Hne Hcls. unfold submission_fileName. split.
  - change (lit ".jpg") with (DOT :: lit "jpg").
    apply name_match_complete; try done. not_in_literal.
  - by apply strip_image_suffix.
Qed.

Lemma submission_name_round_trip_witness :
  name_match (submission_fileName (lit "5Grwva.EF5"))
    = Some (lit "5Grwva.EF5", lit "jpg")
  /\ strip_image_extension (submission_fileName (lit "5Grwva.EF5"))
     = lit "5Grwva.EF5".
Proof.
  apply (submission_name_round_trip (lit "5Grwva.EF5")).
  - discriminate.
  - vm_compute. reflexivity.
Defined.

(** ** The gallery's sync request *)

Lemma gallery_request_posts (origin : jsstring) (members : list jsstring)
    (allFiles : list ApillonFile) (request : Request) :
  gallery_sync_request origin members allFiles = Some request ->
  posts_addresses request (JStr <$> take 50 (toSync members allFiles))
  /\ JStr <$> take 50 (toSync members allFiles) <> [].
Proof.
  unfold gallery_sync_request.
  destruct (toSync members allFiles) as [|m ms] eqn:Hsync; [discriminate|].
  intros [= <-]. split; [|done]. split; [done|]. by eexists.
Qed.

(** X20: the request the gallery sends is one the worker serves in full: it
    is answered 200, nothing is cut off by the limit of 50, and the
    identifiers recorded are exactly the addresses sent, each of them a
    member. *)
Theorem gallery_request_is_served {B : Backend} (env : Env)
    (origin allowed : jsstring) (members : list jsstring)
    (allFiles items : list ApillonFile) (request : Request) (w : World B) :
  gallery_sync_request origin members allFiles = Some request ->
  listing_succeeds w items ->
  exists r w',
    handleSyncApprovedMembers request env allowed w =
      (Returned (jsonResponse (SyncData r) 200 (Some allowed)), w')
    /\ recorded r ≡ₚ JStr <$> take 50 (toSync members allFiles)
    /\ (length (recorded r) <= 50)%nat
    /\ forall a, a ∈ recorded r -> exists m, a = JStr m /\ m ∈ members.
Proof.
  intros Hreq Hlist.
  destruct (gallery_request_posts _ _ _ _ Hreq) as [Hposts Hne].
  destruct (handleSync_returns env allowed _ _ _ _ Hposts Hne Hlist)
    as (r & w' & Hrun & Hperm & _).
  rewrite <- fmap_take, take_take in Hperm.
  exists r, w'. split; [done|]. split; [done|]. split.
  - rewrite Hperm, length_fmap, length_take. lia.
  - intros a Ha. rewrite Hperm in Ha.
    apply list_elem_of_fmap in Ha as (m & -> & Hm).
    exists m. split; [done|].
    apply elem_of_take in Hm as (i & Hi & _).
    apply list_elem_of_lookup_2 in Hi.
    unfold toSync in Hi. by apply list_elem_of_filter in Hi as [_ Hi].
Qed.

Lemma gallery_request_is_served_witness :
  exists r w',
    handleSyncApprovedMembers gallery_request0 env0 origin0 gallery_bucket =
      (Returned (jsonResponse (SyncData r) 200 (Some origin0)), w')
    /\ recorded r ≡ₚ JStr <$> take 50 (toSync gallery_members gallery_listing)
    /\ (length (recorded r) <= 50)%nat
    /\ forall a, a ∈ recorded r -> exists m, a = JStr m /\ m ∈ gallery_members.
Proof.
  apply (gallery_request_is_served env0 origin0 origin0 gallery_members
           gallery_listing gallery_listing gallery_request0 gallery_bucket).
  - vm_compute. reflexivity.
  - apply bucket_listing.
Defined.

Lemma filter_none {A : Type} (P : A -> Prop) `{forall x, Decision (P x)}
    (l : list A) :
  (forall x, x ∈ l -> ~ P x) -> filter P l = [].
Proof.
  induction l as [|x l IH]; intros Hno; [done|].
  rewrite filter_cons, decide_False by (apply Hno; by left).
  apply IH. intros y Hy. apply Hno. by right.
Qed.

(** What the gallery takes for a pending address is the stripped name of a
    file under pending. *)
Lemma toSync_origin (members : list jsstring) (items : list ApillonFile)
    (m : jsstring) :
  m ∈ toSync members items ->
  m ∈ members /\ m <> []
  /\ exists file, file ∈ items /\ under_pending file = true
                  /\ strip_image_extension (af_name file) = m.
Proof.
  unfold toSync, pendingAddresses.
  intros [Hpending Hm]%list_elem_of_filter.
  apply list_elem_of_filter in Hpending as [Hne Hin].
  apply list_elem_of_fmap in Hin as (file & -> & Hfile).
  apply list_elem_of_filter in Hfile as [Hunder Hfile].
  repeat split; try done. by exists file.
Qed.

Lemma gallery_address_found (members : list jsstring)
    (items : list ApillonFile) (m : jsstring) :
  m ∈ toSync members items -> all_dot_class m = true ->
  (forall file, file ∈ items -> under_pending file = true ->
                af_path file = Some (lit "pending/")
                /\ strip_image_extension (af_name file) <> af_name file) ->
  pendingMap_get (pendingMap_of (pending_files items)) (JStr m) <> None.
Proof.
  intros Hm Hcls Hkept.
  destruct (toSync_origin _ _ _ Hm) as (_ & Hne & file & Hin & Hunder & Hstrip).
  destruct (Hkept file Hin Hunder) as [Hpath Hcut].
  destruct (strip_image_cases (af_name file)) as [Hsame | (suf & Hname & Hsuf)];
    [done|].
  rewrite Hstrip in Hname.
  apply is_image_suffix_shape in Hsuf as (ext & -> & Hext & Hdot).
  assert (Hmatch : name_match (af_name file) = Some (m, ext)).
  { rewrite Hname. by apply name_match_complete. }
  assert (Hsome : is_Some (pendingMap_of (pending_files items) !! m)).
  { apply (pendingMap_of_is_Some _ (folder_file file) m ext); [|done].
    apply list_elem_of_fmap_2, list_elem_of_filter. split; [|done].
    by apply in_folder_path. }
  simpl. intros Hnone. rewrite Hnone in Hsome. by destruct Hsome.
Qed.

(** X21: when every file the gallery sees under pending lies directly in
    the pending folder and carries one of the four image extensions, and no
    member address has a line terminator, the worker skips none of the
    addresses the gallery sends: each is moved or reported in [errors]. *)
Theorem gallery_addresses_are_not_skipped {B : Backend} (env : Env)
    (origin allowed : jsstring) (members : list jsstring)
    (items : list ApillonFile) (request : Request) (w : World B) :
  gallery_sync_request origin members items = Some request ->
  listing_succeeds w items ->
  Forall (fun m => all_dot_class m = true) members ->
  (forall file, file ∈ items -> under_pending file = true ->
                af_path file = Some (lit "pending/")
                /\ strip_image_extension (af_name file) <> af_name file) ->
  exists r w',
    handleSyncApprovedMembers request env allowed w =
      (Returned (jsonResponse (SyncData r) 200 (Some allowed)), w')
    /\ skipped r = []
    /\ recorded r ≡ₚ JStr <$> take 50 (toSync members items).
Proof.
  intros Hreq Hlist Hcls Hkept.
  destruct (gallery_request_posts _ _ _ _ Hreq) as [Hposts Hne].
  destruct (handleSync_returns env allowed _ _ _ _ Hposts Hne Hlist)
    as (r & w' & Hrun & Hperm & Hskip & _).
  rewrite <- fmap_take, take_take in Hperm, Hskip.
  exists r, w'. split; [done|]. split; [|done].
  rewrite Hskip, filter_none; [done|].
  intros a Ha. apply list_elem_of_fmap in Ha as (m & -> & Hm).
  apply elem_of_take in Hm as (i & Hi & _).
  apply list_elem_of_lookup_2 in Hi.
  apply (gallery_address_found members); try done.
  rewrite Forall_forall in Hcls. apply Hcls.
  by destruct (toSync_origin _ _ _ Hi).
Qed.

Lemma gallery_addresses_are_not_skipped_witness :
  exists r w',
    handleSyncApprovedMembers gallery_request0 env0 origin0 gallery_bucket =
      (Returned (jsonResponse (SyncData r) 200 (Some origin0)), w')
    /\ skipped r = []
    /\ recorded r ≡ₚ JStr <$> take 50 (toSync gallery_members gallery_listing).
Proof.
  apply (gallery_addresses_are_not_skipped env0 origin0 origin0
           gallery_members gallery_listing gallery_request0 gallery_bucket).
  - vm_compute. reflexivity.
  - apply bucket_listing.
  - repeat constructor.
  - intros file Hin Hunder. vm_compute in Hin.
    repeat (apply elem_of_cons in Hin as [->|Hin];
            [first [discriminate Hunder
                   | split; [reflexivity | vm_compute; discriminate]]|]).
    by apply elem_of_nil in Hin.
Defined.

(** A file without an extension under pending: the gallery sends its name as
    an address, and the worker skips it. *)
Example extensionless_file_is_sent_and_skipped :
  let items := [MemoryBucket.st_file (MemoryBucket.stored "ADDR3" "pending" "f-x")] in
  toSync gallery_members items = [lit "ADDR3"]
  /\ pendingMap_get (pendingMap_of (pending_files items)) (JStr (lit "ADDR3"))
     = None.
Proof. vm_compute. done. Qed.

(** ** Abbreviated addresses *)

Lemma js_slice_head (s : jsstring) (n : nat) :
  js_slice s 0 (Z.of_nat n) = take n s.
Proof.
  unfold js_slice.
  change (0 <? 0) with false. cbv iota.
  destruct (Z.ltb_spec (Z.of_nat n) 0) as [Hneg|Hneg]; [lia|].
  replace (Z.min 0 (Z.of_nat (length s))) with 0 by lia.
  rewrite Z.sub_0_r. change (Z.to_nat 0) with 0%nat. rewrite drop_0.
  destruct (decide (n <= length s)%nat).
  - f_equal. lia.
  - rewrite (take_ge s n) by lia. apply take_ge. lia.
Qed.

Lemma js_slice_tail (s : jsstring) (start : Z) :
  js_slice s start (Z.of_nat (length s)) =
    drop (Z.to_nat (if start <? 0
                    then Z.max (Z.of_nat (length s) + start) 0
                    else Z.min start (Z.of_nat (length s)))) s.
Proof.
  unfold js_slice.
  destruct (Z.ltb_spec (Z.of_nat (length s)) 0) as [Hneg|Hneg]; [lia|].
  rewrite Z.min_id. apply take_ge. rewrite length_drop.
  destruct (Z.ltb_spec start 0); lia.
Qed.

(** X22: the abbreviation of an address of at least five code units is its
    first six, three dots, and its last five; from eleven on these are
    disjoint parts of the address and the result has fourteen code units.  A
    string of three or four code units loses the start of its tail: the
    negative start index of the second slice counts from the end. *)
Theorem formatHash_shape (str : jsstring) :
  ((5 <= length str)%nat ->
   formatHash str = take 6 str ++ lit "..." ++ drop (length str - 5) str)
  /\ ((11 <= length str)%nat ->
      length (formatHash str) = 14%nat
      /\ exists middle,
           str = take 6 str ++ middle ++ drop (length str - 5) str)
  /\ ((0 < length str < 5)%nat ->
      formatHash str = str ++ lit "..." ++ drop (2 * length str - 5) str).
Proof.
  assert (Hshape : str <> [] ->
    formatHash str =
      take 6 str ++ lit "..." ++
      js_slice str (Z.of_nat (length str) - 5) (Z.of_nat (length str))).
  { intros Hne. destruct str as [|c str]; [done|].
    unfold formatHash. by rewrite (js_slice_head _ 6). }
  assert (Hlong : (5 <= length str)%nat ->
    formatHash str = take 6 str ++ lit "..." ++ drop (length str - 5) str).
  { intros Hlen. rewrite Hshape by (intros ->; simpl in Hlen; lia).
    rewrite js_slice_tail.
    destruct (Z.ltb_spec (Z.of_nat (length str) - 5) 0) as [Hneg|Hneg];
      [lia|].
    do 3 f_equal. lia. }
  split; [exact Hlong|]. split.
  - intros Hlen. split.
    + rewrite Hlong by lia.
      rewrite !length_app, length_take, length_drop.
      change (length (lit "...")) with 3%nat. lia.
    + exists (take (length str - 11) (drop 6 str)).
      rewrite <- (take_drop 6 str) at 1. f_equal.
      rewrite <- (take_drop (length str - 11) (drop 6 str)) at 1. f_equal.
      rewrite drop_drop. f_equal. lia.
  - intros Hlen. rewrite Hshape by (intros ->; simpl in Hlen; lia).
    rewrite js_slice_tail.
    destruct (Z.ltb_spec (Z.of_nat (length str) - 5) 0) as [Hneg|Hneg];
      [|lia].
    rewrite take_ge by lia. do 3 f_equal. lia.
Qed.

Lemma formatHash_shape_witness :
  formatHash (lit "5GrwvaEF5zXb26Fz9rcQpDWS57CtERHpNehXCPcNoHGKutQY") =
    take 6 (lit "5GrwvaEF5zXb26Fz9rcQpDWS57CtERHpNehXCPcNoHGKutQY")
    ++ lit "..."
    ++ drop (length (lit "5GrwvaEF5zXb26Fz9rcQpDWS57CtERHpNehXCPcNoHGKutQY") - 5)
         (lit "5GrwvaEF5zXb26Fz9rcQpDWS57CtERHpNehXCPcNoHGKutQY").
Proof.
  apply (proj1 (formatHash_shape
                  (lit "5GrwvaEF5zXb26Fz9rcQpDWS57CtERHpNehXCPcNoHGKutQY"))).
  vm_compute. lia.
Defined.

Example formatHash_examples :
  formatHash (lit "5GrwvaEF5zXb26Fz9rcQpDWS57CtERHpNehXCPcNoHGKutQY")
    = lit "5Grwva...KutQY"
  /\ formatHash (lit "abc") = lit "abc...bc"
  /\ formatHash (lit "abcd") = lit "abcd...d"
  /\ formatHash [] = [].
Proof. vm_compute. done. Qed.

(** ** The gallery's replacement *)

(** X19: the replacement the gallery and the member panel apply to a file
    name cuts off one trailing image extension (jpg, png, heic or webp in any
    case) and nothing else; on a name made of a non-empty identifier without
    line terminators and such an extension it gives the identifier the
    worker's pattern captures. *)
Theorem strip_image_extension_spec :
  (forall a suf,
     is_image_suffix suf = true -> strip_image_extension (a ++ suf) = a)
  /\ (forall name,
        (forall a suf, name = a ++ suf -> is_image_suffix suf = false) ->
        strip_image_extension name = name)
  /\ (forall a ext,
        is_image_suffix (DOT :: ext) = true ->
        a <> [] -> all_dot_class a = true ->
        name_match (a ++ DOT :: ext) =
          Some (strip_image_extension (a ++ DOT :: ext), ext)).
Proof.
  split; [|split].
  - apply strip_image_suffix.
  - intros name Hno.
    destruct (strip_image_cases name) as [Hsame | (suf & Hname & Hsuf)];
      [done|].
    rewrite (Hno _ _ Hname) in Hsuf. discriminate Hsuf.
  - intros a ext Hsuf Ha Hcls. rewrite strip_image_suffix by done.
    destruct (is_image_suffix_shape _ Hsuf) as (ext' & [= <-] & Hext & Hdot).
    by apply name_match_complete.
Qed.

Lemma strip_image_extension_spec_witness :
  strip_image_extension (lit "ADDR1.v2" ++ lit ".WebP") = lit "ADDR1.v2".
Proof.
  apply (proj1 strip_image_extension_spec (lit "ADDR1.v2") (lit ".WebP")).
  vm_compute. reflexivity.
Defined.

(** ** Moved entries and confirmed deletes *)

Lemma sync_one_confirmed {B : Backend} (env : Env)
    (pendingMap : gmap jsstring FileInfo) (results : SyncResults) (a : json)
    (w : World B) :
  exists results' w' t ms,
    sync_one env pendingMap results a w = (Returned results', w')
    /\ trace w' = trace w ++ t
    /\ moved results' = moved results ++ ms
    /\ Forall2 (delete_of pendingMap) ms (confirmed_deletes t).
Proof.
  pose proof (sync_one_cases env pendingMap results a w) as Hone.
  destruct (pendingMap_get pendingMap a) as [info|] eqn:Hget.
  - destruct (moveFile_cases env (lit "pending/" ++ fi_fileName info)
                (lit "approved/" ++ fi_fileName info) (fi_fileUuid info)
                (fi_link info) w) as (t & Htrace & Hcases).
    destruct (moveFile _ _ _ _ _ w) as [out w1]. simpl in Htrace, Hcases.
    destruct Hcases as [(Hall & message & ->) | Hfive].
    + exists (push_error results {| er_address := a; er_error := message |}),
        w1, t, [].
      split; [exact Hone|]. split; [exact Htrace|].
      split; [simpl; by rewrite app_nil_r|].
      unfold confirmed_deletes. rewrite filter_none; [constructor|].
      intros e He. rewrite Forall_forall in Hall.
      specialize (Hall e He). by destruct e.
    + destruct Hfive as (source & r1 & blob & r2 & u & target & session
                         & r3 & r4 & r5 & _ & -> & _ & _ & _ & _ & ->).
      destruct r5 as [message|r5]; simpl in Hone.
      { eexists _, w1, _, [].
        split; [exact Hone|]. split; [exact Htrace|].
        split; [simpl; by rewrite app_nil_r|].
        unfold confirmed_deletes. rewrite !filter_cons, filter_nil. simpl.
        constructor. }
      destruct (ok r5) eqn:Hok; simpl in Hone.
      * eexists _, w1, _, [move_entry a info].
        split; [exact Hone|]. split; [exact Htrace|]. split; [done|].
        unfold confirmed_deletes. rewrite !filter_cons, filter_nil. simpl.
        rewrite Hok. simpl.
        constructor; [|constructor]. by exists info, r5.
      * eexists _, w1, _, [].
        split; [exact Hone|]. split; [exact Htrace|].
        split; [simpl; by rewrite app_nil_r|].
        unfold confirmed_deletes. rewrite !filter_cons, filter_nil. simpl.
        rewrite Hok. simpl. constructor.
  - exists (push_skipped results (skip_entry a)), w, [], [].
    split; [exact Hone|]. rewrite !app_nil_r. split; [done|].
    split; [done|constructor].
Qed.

Lemma sync_loop_confirmed {B : Backend} (env : Env)
    (pendingMap : gmap jsstring FileInfo) (l : list json)
    (results : SyncResults) (w : World B) :
  exists results' w' t ms,
    sync_loop env pendingMap l results w = (Returned results', w')
    /\ trace w' = trace w ++ t
    /\ moved results' = moved results ++ ms
    /\ Forall2 (delete_of pendingMap) ms (confirmed_deletes t).
Proof.
  revert results w. induction l as [|a l IH]; intros results w.
  - exists results, w, [], []. simpl. rewrite !app_nil_r.
    repeat split. constructor.
  - destruct (sync_one_confirmed env pendingMap results a w)
      as (r1 & w1 & t1 & ms1 & Hone & Ht1 & Hm1 & Hp1).
    destruct (IH r1 w1) as (r2 & w2 & t2 & ms2 & Hloop & Ht2 & Hm2 & Hp2).
    exists r2, w2, (t1 ++ t2), (ms1 ++ ms2). simpl. unfold bind at 1.
    rewrite Hone.
    split; [done|]. split; [by rewrite Ht2, Ht1, app_assoc|].
    split; [by rewrite Hm2, Hm1, app_assoc|].
    unfold confirmed_deletes in *. rewrite filter_app.
    by apply Forall2_app.
Qed.

(** X12: the entries a sync reports in [moved] and the deletes the backend
    confirmed during it correspond one to one, in order: each entry is made
    from the pending-map entry of its address, and its delete is that of
    this entry's object, answered ok.  So there are as many moved
    identifiers as confirmed deletes. *)
Theorem moved_entries_are_confirmed_deletes {B : Backend} (env : Env)
    (origin : jsstring) (request : Request) (addresses : list json)
    (items : list ApillonFile) (w : World B) s r0 :
  posts_addresses request addresses -> addresses <> [] ->
  on_list B (store w) = (s, Responded r0) -> ok r0 = true ->
  payload r0 = Some items ->
  exists r w' t,
    handleSyncApprovedMembers request env origin w =
      (Returned (jsonResponse (SyncData r) 200 (Some origin)), w')
    /\ trace w' = trace w ++ EvList (Responded r0) :: t
    /\ length (moved r) = length (confirmed_deletes t)
    /\ Forall2 (delete_of (pendingMap_of (pending_files items))) (moved r)
         (confirmed_deletes t).
Proof.
  intros Hreq Hne Hlist Hok Hitems.
  rewrite (handleSync_runs _ _ _ _ _ Hreq Hne).
  rewrite (listFilesInFolder_ok _ _ _ _ _ _ Hlist Hok Hitems).
  destruct (sync_loop_confirmed env
              (pendingMap_of (folder_file <$> filter (in_folder (lit "pending")) items))
              (take 50 addresses) no_results
              {| store := s; trace := trace w ++ [EvList (Responded r0)] |})
    as (r & w' & t & ms & -> & Ht & Hm & Hpairs).
  simpl in Hm. subst ms.
  exists r, w', t. split; [done|]. split.
  { rewrite Ht. simpl. by rewrite <- app_assoc. }
  split; [by apply Forall2_length in Hpairs | exact Hpairs].
Qed.

Lemma moved_entries_are_confirmed_deletes_witness :
  exists r w' t,
    handleSyncApprovedMembers (sync_request [addr "ADDR1"; addr "ADDR2"]) env0
      origin0 one_pending =
      (Returned (jsonResponse (SyncData r) 200 (Some origin0)), w')
    /\ trace w' =
         trace one_pending
         ++ EvList (MemoryBucket.respond true "OK"
                      (Some (MemoryBucket.st_file <$> one_object))) :: t
    /\ length (moved r) = length (confirmed_deletes t)
    /\ Forall2
         (delete_of
            (pendingMap_of (pending_files (MemoryBucket.st_file <$> one_object))))
         (moved r) (confirmed_deletes t).
Proof.
  apply (moved_entries_are_confirmed_deletes env0 origin0
           (sync_request [addr "ADDR1"; addr "ADDR2"])
           [addr "ADDR1"; addr "ADDR2"]
           (MemoryBucket.st_file <$> one_object) one_pending
           (store one_pending)).
  - apply sync_request_posts.
  - discriminate.
  - reflexivity.
  - reflexivity.
  - reflexivity.
Defined.

(** ** The allow-list as it is written *)

Lemma trim_padded (p : PaddedEntry) :
  well_padded p -> trim (padded_text p) = pad_origin p.
Proof.
  intros (Hl & Hr & _ & Hhead & Hlast). unfold padded_text.
  destruct (trim_spec (pad_left p) (pad_right p) Hl Hr) as [Hblank Hcore].
  destruct (pad_origin p) as [|a rest]; [exact Hblank|].
  assert (Ha : is_trimmed a = false) by (by apply Hhead).
  destruct rest as [|z core _] using rev_ind.
  - by destruct (Hcore a [] a Ha Ha) as [H _].
  - assert (Hz : is_trimmed z = false).
    { apply Hlast. by rewrite app_comm_cons, last_snoc. }
    destruct (Hcore a core z Ha Hz) as [_ H].
    simpl. rewrite <- app_assoc. exact H.
Qed.

(** X1: an allow-list written as origins separated by commas, each with
    optional white space around it, is read back as exactly those origins;
    an Origin header passes the guard exactly when it is non-empty and one
    of them. *)
Theorem allow_list_round_trip (env : Env) (entries : list PaddedEntry) :
  entries <> [] -> Forall well_padded entries ->
  ALLOWED_ORIGINS env = join COMMA (padded_text <$> entries) ->
  allowedOrigins env = pad_origin <$> entries
  /\ forall o, origin_rejected env (Some o) = false <->
               o <> [] /\ o ∈ pad_origin <$> entries.
Proof.
  intros Hne Hall Hconfig.
  assert (Hlist : allowedOrigins env = pad_origin <$> entries).
  { unfold allowedOrigins. rewrite Hconfig.
    rewrite (proj1 (split_join_round_trip COMMA)).
    - rewrite <- list_fmap_compose. apply Forall_fmap_ext_1.
      eapply Forall_impl; [exact Hall|]. intros p Hp. by apply trim_padded.
    - by destruct entries.
    - apply Forall_fmap. eapply Forall_impl; [exact Hall|].
      by intros p (_ & _ & Hcomma & _). }
  split; [exact Hlist|].
  intros o. unfold origin_rejected. rewrite Hlist. simpl.
  rewrite orb_false_iff, !negb_false_iff, bool_decide_eq_true.
  destruct o; simpl; split; intros [H1 H2]; done.
Qed.

Lemma allow_list_round_trip_witness :
  allowedOrigins env0 = pad_origin <$> spaced_entries
  /\ forall o, origin_rejected env0 (Some o) = false <->
               o <> [] /\ o ∈ pad_origin <$> spaced_entries.
Proof.
  apply (allow_list_round_trip env0 spaced_entries).
  - discriminate.
  - repeat constructor; try not_in_literal;
      simpl; intros c [= <-]; reflexivity.
  - vm_compute. reflexivity.
Defined.
